(** * ST7789V display driver and XL9555 GPIO expander (MicroPython)

    A shallow embedding of [st7789v.py] and [xl9555.py].  Python objects
    become records, attribute mutation and hardware effects become explicit
    state passing, and Python exceptions become the left summand of the
    result of every method.  Effects on the outside world (I2C and SPI
    writes, pin levels, delays, console output) are recorded, oldest first,
    in a trace of events. *)

From Stdlib Require Import ZArith Lia String.
From stdpp Require Import base option list gmap.

Open Scope Z_scope.

(** ** Exceptions, results and the state-and-exception monad *)

Inductive exn :=
| ValueError | RuntimeError | TypeError | IndexError
| AttributeError | UnboundLocalError.

Definition result (A : Type) : Type := exn + A.

(** A method runs on a state [S]; a raised exception keeps the mutations
    performed before it, as in Python. *)
Definition M (S A : Type) : Type := S -> result A * S.

Definition ret {S A} (a : A) : M S A := fun s => (inr a, s).
Definition raise {S A} (e : exn) : M S A := fun s => (inl e, s).
Definition bind {S A B} (m : M S A) (k : A -> M S B) : M S B :=
  fun s => match m s with
           | (inr a, s') => k a s'
           | (inl e, s') => (inl e, s')
           end.
Definition gets {S A} (f : S -> A) : M S A := fun s => (inr (f s), s).
Definition modify {S} (f : S -> S) : M S unit := fun s => (inr tt, f s).
Definition lift_result {S A} (r : result A) : M S A := fun s => (r, s).

Declare Scope py_scope.
Delimit Scope py_scope with py.
Notation "x <- c1 ;; c2" := (bind c1 (fun x => c2))
  (at level 100, c1 at next level, right associativity) : py_scope.
Notation "c1 ;; c2" := (bind c1 (fun _ => c2))
  (at level 100, right associativity) : py_scope.
Open Scope py_scope.

(** [for x in xs: body x] *)
Fixpoint for_each {S A} (xs : list A) (body : A -> M S unit) : M S unit :=
  match xs with
  | [] => ret tt
  | x :: rest => body x ;; for_each rest body
  end.

(** ** Hardware events *)

Record Pin := mkPin { gpio : Z }.

Inductive event :=
| I2cWriteto (addr : Z) (data : list Z)
| PinInit (p : Pin) (value : Z)
| PinCall (p : Pin) (value : Z)
| SpiWrite (data : list Z)
| SleepMs (ms : Z)
| Print (msg : string).

(** ** Python built-ins used by the drivers *)

(** [bytes(iterable_of_ints)]: every item must be in [range(0, 256)]. *)
Definition is_byte (b : Z) : bool := (0 <=? b) && (b <? 256).
Definition bytes_of (l : list Z) : result (list Z) :=
  if forallb is_byte l then inr l else inl ValueError.

(** Position in a sequence of length [n] addressed by the Python index [i]
    (negative indices count from the end). *)
Definition py_index (n : nat) (i : Z) : option nat :=
  if (0 <=? i) && (i <? Z.of_nat n) then Some (Z.to_nat i)
  else if (- Z.of_nat n <=? i) && (i <? 0) then Some (Z.to_nat (Z.of_nat n + i))
  else None.

(** [l[i]] *)
Definition getitem {A} (l : list A) (i : Z) : result A :=
  match py_index (length l) i with
  | Some k => match l !! k with Some a => inr a | None => inl IndexError end
  | None => inl IndexError
  end.

(** [l[i] = v] *)
Definition setitem {A} (l : list A) (i : Z) (v : A) : result (list A) :=
  match py_index (length l) i with
  | Some k => inr (<[k := v]> l)
  | None => inl IndexError
  end.

(** ** xl9555.py *)

Module XL9555.

Definition REG_INPUT_PORT0 := 0x00.
Definition REG_INPUT_PORT1 := 0x01.
Definition REG_OUTPUT_PORT0 := 0x02.
Definition REG_OUTPUT_PORT1 := 0x03.
Definition REG_POLARITY_INV0 := 0x04.
Definition REG_POLARITY_INV1 := 0x05.
Definition REG_CONFIG_PORT0 := 0x06.
Definition REG_CONFIG_PORT1 := 0x07.
Definition DEFAULT_ADDRESS := 0x20.

(** Attributes of an [XL9555] instance. *)
Record t := mk {
  address : Z;
  _output_cache : list Z;
  _config_cache : list Z;
}.

(** The object together with the bus it talks to. *)
Definition st : Type := t * list event.

Definition emit (e : event) : M st unit :=
  modify (fun s => (fst s, snd s ++ [e])).

Definition set_output_cache (i : Z) (v : Z) : M st unit :=
  fun s =>
    match setitem (_output_cache (fst s)) i v with
    | inr l => (inr tt, (mk (address (fst s)) l (_config_cache (fst s)), snd s))
    | inl e => (inl e, s)
    end.

Definition set_config_cache (i : Z) (v : Z) : M st unit :=
  fun s =>
    match setitem (_config_cache (fst s)) i v with
    | inr l => (inr tt, (mk (address (fst s)) (_output_cache (fst s)) l, snd s))
    | inl e => (inl e, s)
    end.

Definition get_output_cache (i : Z) : M st Z :=
  fun s => (getitem (_output_cache (fst s)) i, s).

(** [self.i2c.writeto(self.address, bytes([reg, value]))] *)
Definition _write_reg (reg value : Z) : M st unit :=
  data <- lift_result (bytes_of [reg; value]) ;;
  a <- gets (fun s => address (fst s)) ;;
  emit (I2cWriteto a data).

Definition config (config0 config1 : Z) : M st unit :=
  set_config_cache 0 config0 ;;
  set_config_cache 1 config1 ;;
  _write_reg REG_CONFIG_PORT0 config0 ;;
  _write_reg REG_CONFIG_PORT1 config1.

Definition set_output (value : Z) : M st unit :=
  let port0 := Z.land value 0xFF in
  let port1 := Z.land (Z.shiftr value 8) 0xFF in
  set_output_cache 0 port0 ;;
  set_output_cache 1 port1 ;;
  _write_reg REG_OUTPUT_PORT0 port0 ;;
  _write_reg REG_OUTPUT_PORT1 port1.

Definition set_output_port (port value : Z) : M st unit :=
  if negb ((port =? 0) || (port =? 1)) then raise ValueError
  else
    set_output_cache port value ;;
    _write_reg (REG_OUTPUT_PORT0 + port) value.

Definition get_output (x : t) : result Z :=
  match getitem (_output_cache x) 1, getitem (_output_cache x) 0 with
  | inr p1, inr p0 => inr (Z.lor (Z.shiftl p1 8) p0)
  | inl e, _ => inl e
  | _, inl e => inl e
  end.

(** [write_pin(pin, value)]; [value] is the truth value of the argument. *)
Definition write_pin (pin : Z) (value : bool) : M st unit :=
  if negb ((0 <=? pin) && (pin <=? 15)) then raise ValueError
  else
    let port := pin / 8 in
    let bit := pin mod 8 in
    (if value then
       c <- get_output_cache port ;;
       set_output_cache port (Z.lor c (Z.shiftl 1 bit))
     else
       c <- get_output_cache port ;;
       set_output_cache port (Z.land c (Z.lnot (Z.shiftl 1 bit)))) ;;
    c <- get_output_cache port ;;
    _write_reg (REG_OUTPUT_PORT0 + port) c.

(** [XL9555(i2c, address)] *)
Definition __init__ (addr : Z) : M (list event) t :=
  fun tr =>
    let x := mk addr [0x00; 0x00] [0xFF; 0xFF] in
    match (config 0x03 0xF0 ;; set_output 0xFFFF) (x, tr) with
    | (inr _, (x', tr')) => (inr x', tr')
    | (inl e, (_, tr')) => (inl e, tr')
    end.

(** Both output-cache entries are register values (one byte each); this is
    what the constructor leaves and what every pin write maintains. *)
Definition cache_ok (x : t) : Prop :=
  exists c0 c1, _output_cache x = [c0; c1]
                /\ 0 <= c0 < 256 /\ 0 <= c1 < 256.

End XL9555.

(** ** More Python built-ins: [range], [bytearray] *)

(** [range(start, stop, step)] for a positive [step] (the drivers only use
    the steps 2 and 512). *)
Definition py_range (start stop step : Z) : list Z :=
  map (fun k => start + Z.of_nat k * step)
      (seq 0 (Z.to_nat ((stop - start + step - 1) / step))).

(** [bytearray(n)]: [n] zero bytes. *)
Definition bytearray (n : Z) : result (list Z) :=
  if n <? 0 then inl ValueError else inr (repeat 0 (Z.to_nat n)).

(** Truth value of an optional object ([None] is false, an object true). *)
Definition truthy {A} (o : option A) : bool :=
  match o with Some _ => true | None => false end.

(** ** The pixel-buffer base class *)

Module FrameBuffer.

(** Modelled from the spec: the base class [framebuf.FrameBuffer] (format
    RGB565) that [ST7789V] inherits from; it belongs to the platform and its
    code is not among the sources.  The model follows the data model of the
    specification: a flat byte sequence, row-major, two bytes per pixel,
    pixel (x,y) at byte offset (y*stride + x)*2 holding a 16-bit value in
    little-endian order; a pixel request outside the buffer is ignored; a
    rectangle is written only on its intersection with the buffer and not
    at all when its width or height is below 1; [fill] writes every
    pixel.  The object keeps a reference to the byte sequence handed to its
    constructor and never copies it. *)
Record t := mk {
  buf : nat;
  width : Z;
  height : Z;
  stride : Z;
}.

(** Modelled from the spec: byte offset of pixel (x,y), [(y*stride + x)*2]. *)
Definition offset (fb : t) (x y : Z) : nat := Z.to_nat (2 * (x + y * stride fb)).

(** Modelled from the spec: a 16-bit store in little-endian order (the
    colour is cut to its low 16 bits). *)
Definition setpixel (fb : t) (x y col : Z) (bytes : list Z) : list Z :=
  <[S (offset fb x y) := Z.land (Z.shiftr col 8) 0xFF]>
    (<[offset fb x y := Z.land col 0xFF]> bytes).

(** Modelled from the spec: the 16-bit value read back, low byte first. *)
Definition getpixel (fb : t) (x y : Z) (bytes : list Z) : Z :=
  Z.lor (default 0 (bytes !! offset fb x y))
        (Z.shiftl (default 0 (bytes !! S (offset fb x y))) 8).

(** Modelled from the spec: (x,y) is a pixel of the buffer. *)
Definition in_bounds (fb : t) (x y : Z) : bool :=
  (0 <=? x) && (x <? width fb) && (0 <=? y) && (y <? height fb).

(** Modelled from the spec: [pixel(x, y, col)] of the base class; a
    request outside the buffer is ignored. *)
Definition pixel (fb : t) (x y col : Z) (bytes : list Z) : list Z :=
  if in_bounds fb x y then setpixel fb x y col bytes else bytes.

(** Modelled from the spec: [pixel(x, y)] of the base class, the pixel
    read ([None] outside the buffer). *)
Definition pixel_get (fb : t) (x y : Z) (bytes : list Z) : option Z :=
  if in_bounds fb x y then Some (getpixel fb x y bytes) else None.

(** The [w] consecutive integers from [a]. *)
Definition span (a w : Z) : list Z :=
  map (fun k => a + Z.of_nat k) (seq 0 (Z.to_nat w)).

(** Modelled from the spec: [w] pixels of row [yy] from column [x]. *)
Definition fill_row (fb : t) (x w yy col : Z) (bytes : list Z) : list Z :=
  fold_left (fun b xx => setpixel fb xx yy col b) (span x w) bytes.

(** Modelled from the spec: the format-level fill of a rectangle that lies
    inside the buffer, row by row. *)
Definition rgb565_fill_rect (fb : t) (x y w h col : Z) (bytes : list Z) : list Z :=
  fold_left (fun b yy => fill_row fb x w yy col b) (span y h) bytes.

(** Modelled from the spec: [fill_rect(x, y, w, h, col)] of the base
    class; nothing is written for a width or height below 1 or a rectangle
    outside the buffer, otherwise the rectangle is cut to the buffer. *)
Definition fill_rect (fb : t) (x y w h col : Z) (bytes : list Z) : list Z :=
  if (h <? 1) || (w <? 1) || (x + w <=? 0) || (y + h <=? 0)
     || (height fb <=? y) || (width fb <=? x)
  then bytes
  else
    let xend := Z.min (width fb) (x + w) in
    let yend := Z.min (height fb) (y + h) in
    let x := Z.max x 0 in
    let y := Z.max y 0 in
    rgb565_fill_rect fb x y (xend - x) (yend - y) col bytes.

(** Modelled from the spec: [fill(col)] sets every pixel. *)
Definition fill (fb : t) (col : Z) (bytes : list Z) : list Z :=
  rgb565_fill_rect fb 0 0 (width fb) (height fb) col bytes.

End FrameBuffer.

(** ** st7789v.py *)

Module ST7789V.

Definition ST7789_NOP := 0x00.
Definition ST7789_SWRESET := 0x01.
Definition ST7789_SLPIN := 0x10.
Definition ST7789_SLPOUT := 0x11.
Definition ST7789_INVOFF := 0x20.
Definition ST7789_INVON := 0x21.
Definition ST7789_DISPOFF := 0x28.
Definition ST7789_DISPON := 0x29.
Definition ST7789_CASET := 0x2A.
Definition ST7789_RASET := 0x2B.
Definition ST7789_RAMWR := 0x2C.
Definition ST7789_COLMOD := 0x3A.
Definition ST7789_MADCTL := 0x36.

Definition COLOR_BLACK := 0x0000.
Definition COLOR_WHITE := 0xFFFF.
Definition COLOR_RED := 0xF800.

(** Attributes of an [ST7789V] instance.  An attribute that the constructor
    sets only on some paths, or only later, is optional; [fb] is the state
    of the inherited [FrameBuffer] part of the object. *)
Record t := mk {
  width : Z;
  height : Z;
  dc : Pin;
  cs : option Pin;
  buffer : nat;
  fb : FrameBuffer.t;
  _xl9555 : option XL9555.t;
  _pin_rst : option Z;
  _pin_bl : option Z;
  _use_xl9555 : bool;
  rotation : option Z;
  w : option Z;
  h : option Z;
}.

(** The driver object, the heap of byte arrays it refers to, and the events
    seen so far. *)
Record state := mkState {
  self : t;
  heap : gmap nat (list Z);
  trace : list event;
}.

Definition with_xl (d : t) (x : XL9555.t) : t :=
  mk (width d) (height d) (dc d) (cs d) (buffer d) (fb d) (Some x)
     (_pin_rst d) (_pin_bl d) (_use_xl9555 d) (rotation d) (w d) (h d).

Definition with_rotation (d : t) (r : Z) : t :=
  mk (width d) (height d) (dc d) (cs d) (buffer d) (fb d) (_xl9555 d)
     (_pin_rst d) (_pin_bl d) (_use_xl9555 d) (Some r) (w d) (h d).

Definition with_w (d : t) (v : Z) : t :=
  mk (width d) (height d) (dc d) (cs d) (buffer d) (fb d) (_xl9555 d)
     (_pin_rst d) (_pin_bl d) (_use_xl9555 d) (rotation d) (Some v) (h d).

Definition with_h (d : t) (v : Z) : t :=
  mk (width d) (height d) (dc d) (cs d) (buffer d) (fb d) (_xl9555 d)
     (_pin_rst d) (_pin_bl d) (_use_xl9555 d) (rotation d) (w d) (Some v).

Definition update_self (f : t -> t) : M state unit :=
  modify (fun s => mkState (f (self s)) (heap s) (trace s)).

Definition emit (e : event) : M state unit :=
  modify (fun s => mkState (self s) (heap s) (trace s ++ [e])).

(** Read an attribute that may not have been set. *)
Definition attr {A} (f : t -> option A) : M state A :=
  fun s => match f (self s) with
           | Some a => (inr a, s)
           | None => (inl AttributeError, s)
           end.

Definition when (b : bool) (m : M state unit) : M state unit :=
  if b then m else ret tt.

Definition sleep_ms (n : Z) : M state unit := emit (SleepMs n).

(** [self.cs(v)]: calling [None] is a [TypeError]. *)
Definition cs_call (v : Z) : M state unit :=
  c <- gets (fun s => cs (self s)) ;;
  match c with
  | Some p => emit (PinCall p v)
  | None => raise TypeError
  end.

(** [self.dc(v)] *)
Definition dc_call (v : Z) : M state unit :=
  p <- gets (fun s => dc (self s)) ;;
  emit (PinCall p v).

Definition _write_cmd (cmd : Z) : M state unit :=
  c <- gets (fun s => cs (self s)) ;;
  when (truthy c) (cs_call 0) ;;
  dc_call 0 ;;
  data <- lift_result (bytes_of [cmd]) ;;
  emit (SpiWrite data) ;;
  c <- gets (fun s => cs (self s)) ;;
  when (truthy c) (cs_call 1).

Definition _write_data (data : list Z) : M state unit :=
  c <- gets (fun s => cs (self s)) ;;
  when (truthy c) (cs_call 0) ;;
  dc_call 1 ;;
  emit (SpiWrite data) ;;
  c <- gets (fun s => cs (self s)) ;;
  when (truthy c) (cs_call 1).

(** [_write_reg(reg, *data)] *)
Definition _write_reg (reg : Z) (data : list Z) : M state unit :=
  _write_cmd reg ;;
  match data with
  | [] => ret tt
  | _ :: _ => b <- lift_result (bytes_of data) ;; _write_data b
  end.

(** [self._xl9555.write_pin(pin, value)] on the expander the driver holds. *)
Definition xl_write_pin (pin : t -> option Z) (value : bool) : M state unit :=
  fun s =>
    match _xl9555 (self s) with
    | None => (inl AttributeError, s)
    | Some x =>
        match pin (self s) with
        | None => (inl AttributeError, s)
        | Some p =>
            match XL9555.write_pin p value (x, trace s) with
            | (r, (x', tr')) => (r, mkState (with_xl (self s) x') (heap s) tr')
            end
        end
    end.

Definition reset : M state unit :=
  u <- gets (fun s => _use_xl9555 (self s)) ;;
  if u then
    xl_write_pin _pin_rst false ;;
    sleep_ms 100 ;;
    xl_write_pin _pin_rst true ;;
    sleep_ms 100
  else raise RuntimeError.

Definition warning : string :=
  "Warning: Backlight control not available without XL9555".

Definition set_backlight (on : bool) : M state unit :=
  u <- gets (fun s => _use_xl9555 (self s)) ;;
  if u then xl_write_pin _pin_bl on
  else emit (Print warning).

Definition set_rotation (r : Z) : M state unit :=
  update_self (fun d => with_rotation d (r mod 4)) ;;
  rot <- attr rotation ;;
  wd <- gets (fun s => width (self s)) ;;
  ht <- gets (fun s => height (self s)) ;;
  madctl <-
    (if rot =? 0 then
       update_self (fun d => with_w d wd) ;;
       update_self (fun d => with_h d ht) ;;
       ret (Some 0x00)
     else if rot =? 1 then
       update_self (fun d => with_w d ht) ;;
       update_self (fun d => with_h d wd) ;;
       ret (Some 0x60)
     else if rot =? 2 then
       update_self (fun d => with_w d wd) ;;
       update_self (fun d => with_h d ht) ;;
       ret (Some 0xC0)
     else if rot =? 3 then
       update_self (fun d => with_w d ht) ;;
       update_self (fun d => with_h d wd) ;;
       ret (Some 0xA0)
     else ret None) ;;
  match madctl with
  | Some m => _write_reg ST7789_MADCTL [m]
  | None => raise UnboundLocalError
  end.

Definition set_window (x y w h : Z) : M state unit :=
  let x_start := x in
  let x_end := x + w - 1 in
  let y_start := y in
  let y_end := y + h - 1 in
  _write_reg ST7789_CASET
    [Z.land (Z.shiftr x_start 8) 0xFF; Z.land x_start 0xFF;
     Z.land (Z.shiftr x_end 8) 0xFF; Z.land x_end 0xFF] ;;
  _write_reg ST7789_RASET
    [Z.land (Z.shiftr y_start 8) 0xFF; Z.land y_start 0xFF;
     Z.land (Z.shiftr y_end 8) 0xFF; Z.land y_end 0xFF] ;;
  _write_cmd ST7789_RAMWR.

(** The byte array behind a reference. *)
Definition deref (l : nat) : M state (list Z) :=
  fun s => match heap s !! l with
           | Some b => (inr b, s)
           | None => (inl AttributeError, s)
           end.

(** [chunk[j] = v] on the scratch buffer of the conversion loop. *)
Definition chunk_set (j v : Z) : M (list Z) unit :=
  fun c => match setitem c j v with
           | inr c' => (inr tt, c')
           | inl e => (inl e, c)
           end.

(** The inner loop of [show], run on the scratch buffer [chunk]. *)
Definition swap_into_chunk (buf : list Z) (i len : Z) : M (list Z) unit :=
  for_each (py_range 0 len 2) (fun j =>
    hi <- lift_result (getitem buf (i + j + 1)) ;;
    chunk_set j hi ;;
    lo <- lift_result (getitem buf (i + j)) ;;
    chunk_set (j + 1) lo).

(** One iteration of the outer loop of [show]: the converted chunk that is
    handed to [spi.write]. *)
Definition convert_chunk (CHUNK : Z) (buf : list Z) (i : Z) : result (list Z) :=
  let n := Z.of_nat (length buf) in
  let e := Z.min (i + CHUNK) n in
  match bytearray (e - i) with
  | inl err => inl err
  | inr chunk0 =>
      match swap_into_chunk buf i (e - i) chunk0 with
      | (inr _, chunk) => inr chunk
      | (inl err, _) => inl err
      end
  end.

(** [show()], with the chunk size as a parameter. *)
Definition show_chunked (CHUNK : Z) : M state unit :=
  l <- gets (fun s => buffer (self s)) ;;
  buf <- deref l ;;
  let n := Z.of_nat (length buf) in
  wd <- gets (fun s => width (self s)) ;;
  ht <- gets (fun s => height (self s)) ;;
  set_window 0 0 wd ht ;;
  cs_call 0 ;;
  dc_call 1 ;;
  for_each (py_range 0 n CHUNK) (fun i =>
    chunk <- lift_result (convert_chunk CHUNK buf i) ;;
    emit (SpiWrite chunk)) ;;
  cs_call 1.

Definition CHUNK : Z := 512.

Definition show : M state unit := show_chunked CHUNK.

(** Run a method of the [FrameBuffer] base object on the byte array it
    refers to; the array is updated in place. *)
Definition super (f : FrameBuffer.t -> list Z -> list Z) : M state unit :=
  fun s =>
    let b := fb (self s) in
    match heap s !! FrameBuffer.buf b with
    | Some bytes =>
        (inr tt, mkState (self s) (<[FrameBuffer.buf b := f b bytes]> (heap s)) (trace s))
    | None => (inl AttributeError, s)
    end.

Definition pixel (x y color : Z) : M state unit :=
  wd <- gets (fun s => width (self s)) ;;
  ht <- gets (fun s => height (self s)) ;;
  if (0 <=? x) && (x <? wd) && (0 <=? y) && (y <? ht)
  then super (fun b => FrameBuffer.pixel b x y color)
  else ret tt.

Definition fill_rect (x y w h color : Z) : M state unit :=
  if (w <=? 0) || (h <=? 0) then ret tt
  else
    wd <- gets (fun s => width (self s)) ;;
    ht <- gets (fun s => height (self s)) ;;
    let end_x := x + w in
    let end_y := y + h in
    let x := if x <? 0 then 0 else x in
    let y := if y <? 0 then 0 else y in
    let end_x := if end_x >? wd then wd else end_x in
    let end_y := if end_y >? ht then ht else end_y in
    super (fun b => FrameBuffer.fill_rect b x y (end_x - x) (end_y - y) color).

(** [fill(color)], inherited. *)
Definition fill (color : Z) : M state unit :=
  super (fun b => FrameBuffer.fill b color).

(** Reading a pixel back through the base class. *)
Definition read_pixel (s : state) (x y : Z) : option Z :=
  match heap s !! FrameBuffer.buf (fb (self s)) with
  | Some bytes => FrameBuffer.pixel_get (fb (self s)) x y bytes
  | None => None
  end.

Definition init_display (rotation : Z) : M state unit :=
  u <- gets (fun s => _use_xl9555 (self s)) ;;
  when u (xl_write_pin _pin_rst false ;;
          sleep_ms 10 ;;
          xl_write_pin _pin_rst true ;;
          sleep_ms 120) ;;
  _write_cmd ST7789_SLPOUT ;;
  sleep_ms 120 ;;
  _write_reg ST7789_COLMOD [0x05] ;;
  _write_cmd ST7789_INVON ;;
  sleep_ms 10 ;;
  set_rotation rotation ;;
  _write_cmd ST7789_DISPON ;;
  sleep_ms 100 ;;
  set_backlight true ;;
  fill COLOR_BLACK ;;
  show.

(** [ST7789V(spi, dc, cs, width, height, rotation, xl9555)], run on the
    heap and trace of the caller.  It returns the new object, or the
    exception that escaped the constructor, and the heap and trace it
    leaves. *)
Definition __init__ (dc : Pin) (cs : option Pin) (width height rotation : Z)
    (xl9555 : option XL9555.t) (hp : gmap nat (list Z)) (tr : list event)
    : result t * (gmap nat (list Z) * list event) :=
  let tr := tr ++ (match cs with Some p => [PinInit p 1] | None => [] end)
               ++ [PinInit dc 0] in
  match bytearray (width * height * 2) with
  | inl e => (inl e, (hp, tr))
  | inr zeros =>
      let l := fresh (dom hp) in
      let d := mk width height dc cs l (FrameBuffer.mk l width height width)
                  xl9555
                  (if truthy xl9555 then Some 10 else None)
                  (if truthy xl9555 then Some 11 else None)
                  (truthy xl9555) None None None in
      match init_display rotation (mkState d (<[l := zeros]> hp) tr) with
      | (inr _, s') => (inr (self s'), (heap s', trace s'))
      | (inl e, s') => (inl e, (heap s', trace s'))
      end
  end.

End ST7789V.

(** ** xl9555.py: pin names and the methods that read from the device *)

Module Expander.

Definition P00 := 0.
Definition P01 := 1.
Definition P02 := 2.
Definition P03 := 3.
Definition P04 := 4.
Definition P05 := 5.
Definition P06 := 6.
Definition P07 := 7.
Definition P10 := 8.
Definition P11 := 9.
Definition P12 := 10.
Definition P13 := 11.
Definition P14 := 12.
Definition P15 := 13.
Definition P16 := 14.
Definition P17 := 15.

(** Bus traffic of the expander with reads in it: what was sent, and each
    [readfrom] with the bytes it returned. *)
Inductive bus_op :=
| Sent (e : event)
| I2cReadfrom (addr : Z) (nbytes : Z) (data : list Z).

(** The object together with the log of its bus traffic. *)
Definition st : Type := XL9555.t * list bus_op.

Definition emit (o : bus_op) : M st unit :=
  modify (fun s => (fst s, snd s ++ [o])).

(** A method of the object that only writes to the bus, run on the log. *)
Definition writes {A} (m : M XL9555.st A) : M st A :=
  fun s =>
    match m (fst s, []) with
    | (r, (x', evs)) => (r, (x', snd s ++ map Sent evs))
    end.

(** [_read_reg(reg)].  The device is given by [dev]: the byte it answers
    when the register [reg] has been selected by the preceding write. *)
Definition _read_reg (dev : Z -> Z) (reg : Z) : M st Z :=
  data <- lift_result (bytes_of [reg]) ;;
  a <- gets (fun s => XL9555.address (fst s)) ;;
  emit (Sent (I2cWriteto a data)) ;;
  emit (I2cReadfrom a 1 [dev reg]) ;;
  lift_result (getitem [dev reg] 0).

Definition get_input (dev : Z -> Z) : M st Z :=
  port0 <- _read_reg dev XL9555.REG_INPUT_PORT0 ;;
  port1 <- _read_reg dev XL9555.REG_INPUT_PORT1 ;;
  ret (Z.lor (Z.shiftl port1 8) port0).

Definition get_input_port (dev : Z -> Z) (port : Z) : M st Z :=
  if negb ((port =? 0) || (port =? 1)) then raise ValueError
  else _read_reg dev (XL9555.REG_INPUT_PORT0 + port).

Definition read_pin (dev : Z -> Z) (pin : Z) : M st Z :=
  if negb ((0 <=? pin) && (pin <=? 15)) then raise ValueError
  else
    let port := pin / 8 in
    let bit := pin mod 8 in
    cfg <- (fun s => (getitem (XL9555._config_cache (fst s)) port, s)) ;;
    value <-
      (if negb (Z.land cfg (Z.shiftl 1 bit) =? 0)
       then _read_reg dev (XL9555.REG_INPUT_PORT0 + port)
       else fun s => (getitem (XL9555._output_cache (fst s)) port, s)) ;;
    ret (Z.land (Z.shiftr value bit) 1).

(** [toggle_pin(pin)]: [not current] is true exactly when [current] is 0. *)
Definition toggle_pin (dev : Z -> Z) (pin : Z) : M st unit :=
  current <- read_pin dev pin ;;
  writes (XL9555.write_pin pin (current =? 0)).

Definition set_backlight (value : bool) : M st unit :=
  writes (XL9555.write_pin P02 value).

Definition set_lcd_power (value : bool) : M st unit :=
  writes (XL9555.write_pin P03 value).

Definition beep (enable : bool) : M st unit :=
  writes (XL9555.write_pin P04 enable).

Definition key_scan (dev : Z -> Z) : M st Z :=
  inputs <- get_input dev ;;
  if Z.land inputs (Z.shiftl 1 P11) =? 0 then ret 0
  else if Z.land inputs (Z.shiftl 1 P10) =? 0 then ret 1
  else if Z.land inputs (Z.shiftl 1 P01) =? 0 then ret 2
  else if Z.land inputs (Z.shiftl 1 P00) =? 0 then ret 3
  else ret (-1).

End Expander.

(** ** Specification-side vocabulary *)

(** The value [write_pin] leaves in an output-cache entry [c]. *)
Definition with_bit (c bit : Z) (level : bool) : Z :=
  if level then Z.lor c (Z.shiftl 1 bit)
  else Z.land c (Z.lnot (Z.shiftl 1 bit)).

(** The state after more events have been seen. *)
Definition add_events (s : ST7789V.state) (evs : list event) : ST7789V.state :=
  ST7789V.mkState (ST7789V.self s) (ST7789V.heap s) (ST7789V.trace s ++ evs).

(** Chip-select activity: present only when a chip-select line is. *)
Definition cs_events (cs : option Pin) (v : Z) : list event :=
  match cs with Some p => [PinCall p v] | None => [] end.

(** One command transaction: data/command low, one byte. *)
Definition cmd_events (cs : option Pin) (dc : Pin) (cmd : Z) : list event :=
  cs_events cs 0 ++ [PinCall dc 0; SpiWrite [cmd]] ++ cs_events cs 1.

(** One data transaction: data/command high, the payload. *)
Definition data_events (cs : option Pin) (dc : Pin) (data : list Z) : list event :=
  cs_events cs 0 ++ [PinCall dc 1; SpiWrite data] ++ cs_events cs 1.

(** A command followed by its payload. *)
Definition reg_events (cs : option Pin) (dc : Pin) (reg : Z) (data : list Z)
    : list event :=
  cmd_events cs dc reg ++ data_events cs dc data.

(** Big-endian encoding of the low 16 bits of [v]. *)
Definition be16 (v : Z) : list Z := [(v mod 65536) / 256; v mod 256].

(** The three sequences that program a window. *)
Definition window_events (cs : option Pin) (dc : Pin) (x y w h : Z) : list event :=
  reg_events cs dc 0x2A (be16 x ++ be16 (x + w - 1))
  ++ reg_events cs dc 0x2B (be16 y ++ be16 (y + h - 1))
  ++ cmd_events cs dc 0x2C.

(** The driver holds a GPIO expander the way its constructor sets it up:
    reset on pin 10, backlight on pin 11, and the expander's output cache
    holds register values. *)
Definition expander_ready (s : ST7789V.state) (x : XL9555.t) : Prop :=
  ST7789V._use_xl9555 (ST7789V.self s) = true
  /\ ST7789V._xl9555 (ST7789V.self s) = Some x
  /\ ST7789V._pin_rst (ST7789V.self s) = Some 10
  /\ ST7789V._pin_bl (ST7789V.self s) = Some 11
  /\ XL9555.cache_ok x.

(** The state after the expander has driven a pin of port 1: the new
    cache entry [c1] is stored and written to output register 3. *)
Definition port1_written (s : ST7789V.state) (x : XL9555.t) (c1 : Z) : ST7789V.state :=
  ST7789V.mkState
    (ST7789V.with_xl (ST7789V.self s)
       (XL9555.mk (XL9555.address x)
                  (<[1%nat := c1]> (XL9555._output_cache x))
                  (XL9555._config_cache x)))
    (ST7789V.heap s)
    (ST7789V.trace s ++ [I2cWriteto (XL9555.address x) [3; c1]]).

(** Exchange the two bytes of every 2-byte group, keeping the groups in
    order (a trailing single byte stays). *)
Fixpoint swap_pairs (l : list Z) : list Z :=
  match l with
  | a :: b :: rest => b :: a :: swap_pairs rest
  | _ => l
  end.

(** The pieces the refresh hands to the bus, one per iteration of its outer
    loop: the bytes from [i] up to the chunk size, to the end of the buffer
    at most, each piece with its pairs exchanged. *)
Definition wire_chunks (CHUNK : Z) (buf : list Z) : list (list Z) :=
  map (fun i => swap_pairs (take (Z.to_nat CHUNK) (drop (Z.to_nat i) buf)))
      (py_range 0 (Z.of_nat (length buf)) CHUNK).

(** Everything [show] puts on the bus. *)
Definition show_events (cs : option Pin) (dc : Pin) (width height CHUNK : Z)
    (buf : list Z) : list event :=
  window_events cs dc 0 0 width height
  ++ cs_events cs 0 ++ [PinCall dc 1]
  ++ map SpiWrite (wire_chunks CHUNK buf)
  ++ cs_events cs 1.

(** Byte [i] of a buffer filled with the 16-bit colour [col] in
    little-endian order: low byte at even offsets, high byte at odd ones. *)
Definition color_byte (col : Z) (i : nat) : Z :=
  if Z.even (Z.of_nat i) then Z.land col 0xFF else Z.land (Z.shiftr col 8) 0xFF.

(** The pixel store invariant: positive dimensions, the inherited
    [FrameBuffer] part refers to the very byte array in [buffer] with the
    same dimensions, and that array has [width * height * 2] bytes. *)
Definition store_inv (s : ST7789V.state) : Prop :=
  let d := ST7789V.self s in
  0 < ST7789V.width d /\ 0 < ST7789V.height d
  /\ ST7789V.fb d = FrameBuffer.mk (ST7789V.buffer d) (ST7789V.width d)
                                   (ST7789V.height d) (ST7789V.width d)
  /\ exists buf, ST7789V.heap s !! ST7789V.buffer d = Some buf
                 /\ Z.of_nat (length buf) = ST7789V.width d * ST7789V.height d * 2.

(** The two bytes stored for pixel (x,y): those at byte offset
    [(y * width + x) * 2] and the one after it. *)
Definition pixel_bytes (s : ST7789V.state) (x y : Z) : option (Z * Z) :=
  match ST7789V.heap s !! ST7789V.buffer (ST7789V.self s) with
  | Some buf =>
      let off := Z.to_nat ((y * ST7789V.width (ST7789V.self s) + x) * 2) in
      match buf !! off, buf !! S off with
      | Some lo, Some hi => Some (lo, hi)
      | _, _ => None
      end
  | None => None
  end.

(** Pixel (px,py) lies in the rectangle (x,y,w,h) clamped to a buffer of
    [W] by [H] pixels: the origin raised to 0, the far edges capped. *)
Definition in_clamped_rect (W H x y w h px py : Z) : Prop :=
  0 < w /\ 0 < h
  /\ Z.max x 0 <= px < Z.min (x + w) W
  /\ Z.max y 0 <= py < Z.min (y + h) H.

(** The little-endian bytes of a 16-bit colour. *)
Definition le16 (color : Z) : Z * Z :=
  (Z.land color 0xFF, Z.land (Z.shiftr color 8) 0xFF).

(** The addressing-mode code of a rotation in 0..3. *)
Definition madctl_code (rot : Z) : Z :=
  if rot =? 0 then 0x00 else if rot =? 1 then 0x60
  else if rot =? 2 then 0xC0 else 0xA0.

(** The hardware reset of the initialization: the reset pin (bit 2 of
    expander port 1, whose cache entry is [c1]) driven low for 10 ms, then
    high, then 120 ms of settling. *)
Definition reset_pulse_events (a c1 : Z) : list event :=
  [I2cWriteto a [3; with_bit c1 2 false]; SleepMs 10;
   I2cWriteto a [3; with_bit (with_bit c1 2 false) 2 true]; SleepMs 120].

(** Backlight on: bit 3 of expander port 1 set. *)
Definition backlight_on_events (a c1 : Z) : list event :=
  [I2cWriteto a [3; with_bit c1 3 true]].

(** The initialization sequence around a given reset step and a given
    backlight step: sleep-out and 120 ms, colour mode 0x05, inversion on and
    10 ms, addressing mode of the rotation, display on and 100 ms, the
    backlight step, and the refresh of an all-black buffer. *)
Definition init_events (cs : option Pin) (dc : Pin)
    (reset_step backlight_step : list event) (rot W H : Z) : list event :=
  reset_step
  ++ cmd_events cs dc 0x11 ++ [SleepMs 120]
  ++ reg_events cs dc 0x3A [0x05]
  ++ cmd_events cs dc 0x21 ++ [SleepMs 10]
  ++ reg_events cs dc 0x36 [madctl_code rot]
  ++ cmd_events cs dc 0x29 ++ [SleepMs 100]
  ++ backlight_step
  ++ show_events cs dc W H 512 (repeat 0 (Z.to_nat (W * H * 2))).

(** The initialization as a sequence that always starts with the hardware
    reset and always switches the backlight on through the expander. *)
Definition performs_full_init (s : ST7789V.state) (r : Z) : Prop :=
  exists s' a c1,
    ST7789V.init_display r s = (inr tt, s')
    /\ ST7789V.trace s'
       = ST7789V.trace s
         ++ init_events (ST7789V.cs (ST7789V.self s)) (ST7789V.dc (ST7789V.self s))
              (reset_pulse_events a c1)
              (backlight_on_events a (with_bit (with_bit c1 2 false) 2 true))
              (r mod 4)
              (ST7789V.width (ST7789V.self s)) (ST7789V.height (ST7789V.self s)).

(** Two driver objects wired alike: same dimensions, pins, buffer and
    expander set-up. *)
Definition same_wiring (d d' : ST7789V.t) : Prop :=
  ST7789V.width d' = ST7789V.width d /\ ST7789V.height d' = ST7789V.height d
  /\ ST7789V.dc d' = ST7789V.dc d /\ ST7789V.cs d' = ST7789V.cs d
  /\ ST7789V.buffer d' = ST7789V.buffer d /\ ST7789V.fb d' = ST7789V.fb d
  /\ ST7789V._use_xl9555 d' = ST7789V._use_xl9555 d
  /\ ST7789V._pin_rst d' = ST7789V._pin_rst d
  /\ ST7789V._pin_bl d' = ST7789V._pin_bl d.

(** The operations that touch the pixel store after construction. *)
Inductive draw_op :=
| SetPixel (x y color : Z)
| FillRect (x y w h color : Z)
| Fill (color : Z)
| Rotate (r : Z)
| Refresh.

Definition run_op (op : draw_op) : M ST7789V.state unit :=
  match op with
  | SetPixel x y color => ST7789V.pixel x y color
  | FillRect x y w h color => ST7789V.fill_rect x y w h color
  | Fill color => ST7789V.fill color
  | Rotate r => ST7789V.set_rotation r
  | Refresh => ST7789V.show
  end.

(** The state after a sequence of operations; an operation that raises
    leaves the state it reached, and the caller goes on from there. *)
Fixpoint run_ops (ops : list draw_op) (s : ST7789V.state) : ST7789V.state :=
  match ops with
  | [] => s
  | op :: rest => run_ops rest (snd (run_op op s))
  end.

(** ** Example configurations *)

(** A driver object over a [W] by [H] pixel store with the given bytes,
    before any rotation has been applied, with nothing on the bus yet. *)
Definition state_with_buffer (cs : option Pin) (xl : option XL9555.t) (W H : Z)
    (bytes : list Z) : ST7789V.state :=
  ST7789V.mkState
    (ST7789V.mk W H (mkPin 2) cs 0%nat (FrameBuffer.mk 0%nat W H W) xl
       (if truthy xl then Some 10 else None)
       (if truthy xl then Some 11 else None)
       (truthy xl) None None None)
    {[ 0%nat := bytes ]}
    [].

(** The same over a zeroed store. *)
Definition blank_state (cs : option Pin) (xl : option XL9555.t) (W H : Z)
    : ST7789V.state :=
  state_with_buffer cs xl W H (repeat 0 (Z.to_nat (W * H * 2))).

(** A 20 by 13 store (520 bytes: one full chunk and a short one) whose
    bytes count upwards, so that every pixel has a different value. *)
Definition counting_state : ST7789V.state :=
  state_with_buffer (Some (mkPin 1)) None 20 13
    (map (fun k => Z.of_nat k mod 256) (seq 0 520)).

(** The expander as its constructor leaves it. *)
Definition fresh_xl : XL9555.t := XL9555.mk 0x20 [0xFF; 0xFF] [0x03; 0xF0].

(** The reference display: 240 by 320, chip-select on, expander present. *)
Definition lcd_240x320 : ST7789V.state :=
  blank_state (Some (mkPin 1)) (Some fresh_xl) 240 320.

(** ** Vocabulary for the bus protocol *)

(** A computation that, whatever it returns or raises, only adds events:
    it leaves the driver object and the heap as they are. *)
Definition only_emits {A} (m : M ST7789V.state A) : Prop :=
  forall s, exists evs, snd (m s) = add_events s evs.

Definition pin_eqb (p q : Pin) : bool := gpio p =? gpio q.

(** Level of line [p] after the events, when it was [v] before them. *)
Fixpoint line_level (p : Pin) (v : Z) (evs : list event) : Z :=
  match evs with
  | [] => v
  | PinCall q v' :: rest => line_level p (if pin_eqb q p then v' else v) rest
  | PinInit q v' :: rest => line_level p (if pin_eqb q p then v' else v) rest
  | _ :: rest => line_level p v rest
  end.

(** The SPI transfers of a trace, each with the levels of the chip-select
    and data/command lines at the moment of the transfer; [csl] and [dcl]
    are the levels before the trace. *)
Fixpoint bus_frames (cs dc : Pin) (csl dcl : Z) (evs : list event)
    : list (Z * Z * list Z) :=
  match evs with
  | [] => []
  | PinCall q v :: rest =>
      bus_frames cs dc (if pin_eqb q cs then v else csl)
                 (if pin_eqb q dc then v else dcl) rest
  | PinInit q v :: rest =>
      bus_frames cs dc (if pin_eqb q cs then v else csl)
                 (if pin_eqb q dc then v else dcl) rest
  | SpiWrite data :: rest => (csl, dcl, data) :: bus_frames cs dc csl dcl rest
  | _ :: rest => bus_frames cs dc csl dcl rest
  end.

(** * Properties *)

(** ** Bytes and bits *)

Lemma is_byte_true b : 0 <= b < 256 -> is_byte b = true.
Proof. unfold is_byte. intros. apply andb_true_intro; split; lia. Qed.

Lemma byte_high_bits c k : 0 <= c < 256 -> 8 <= k -> Z.testbit c k = false.
Proof.
  intros Hc Hk. rewrite <- (Z.mod_small c (2 ^ 8)) by lia.
  apply Z.mod_pow2_bits_high. lia.
Qed.

Lemma byte_of_high_bits a :
  0 <= a -> (forall k, 8 <= k -> Z.testbit a k = false) -> a < 256.
Proof.
  intros Ha Hbits. destruct (Z.lt_ge_cases a 256) as [|Hge]; [done|].
  assert (Hpos : 0 < a) by lia.
  assert (Hlog : 8 <= Z.log2 a) by (apply Z.log2_le_pow2; lia).
  pose proof (Z.bit_log2 a Hpos) as Hbit.
  rewrite Hbits in Hbit by done. discriminate.
Qed.

Lemma testbit_one_shl bit k : 0 <= bit -> Z.testbit (Z.shiftl 1 bit) k = (k =? bit).
Proof.
  intros Hb. rewrite Z.shiftl_1_l, Z.pow2_bits_eqb by done. apply Z.eqb_sym.
Qed.

Lemma with_bit_spec c bit level k :
  0 <= bit ->
  Z.testbit (with_bit c bit level) k = if k =? bit then level else Z.testbit c k.
Proof.
  intros Hb. unfold with_bit. destruct level.
  - rewrite Z.lor_spec, testbit_one_shl by done.
    destruct (k =? bit); [apply orb_true_r | apply orb_false_r].
  - destruct (Z.lt_ge_cases k 0) as [Hneg|Hk].
    + rewrite !Z.testbit_neg_r by done. by destruct (k =? bit).
    + rewrite Z.land_spec, Z.lnot_spec, testbit_one_shl by done.
      destruct (k =? bit); [apply andb_false_r | apply andb_true_r].
Qed.

Lemma with_bit_byte c bit level :
  0 <= c < 256 -> 0 <= bit < 8 -> 0 <= with_bit c bit level < 256.
Proof.
  intros Hc Hb.
  assert (Hnn : 0 <= with_bit c bit level).
  { unfold with_bit. destruct level.
    - apply Z.lor_nonneg. split; [lia|]. apply Z.shiftl_nonneg. lia.
    - apply Z.land_nonneg. left. lia. }
  split; [done|]. apply byte_of_high_bits; [done|].
  intros k Hk. rewrite with_bit_spec by lia.
  destruct (Z.eqb_spec k bit); [lia|]. by apply byte_high_bits.
Qed.

(** ** The GPIO expander *)

Lemma xl_write_reg_ok reg v x tr :
  0 <= reg < 256 -> 0 <= v < 256 ->
  XL9555._write_reg reg v (x, tr)
  = (inr tt, (x, tr ++ [I2cWriteto (XL9555.address x) [reg; v]])).
Proof.
  intros Hr Hv. unfold XL9555._write_reg, bind, lift_result, bytes_of.
  cbn [forallb]. rewrite !is_byte_true by done. reflexivity.
Qed.

Lemma pin_port_bit pin :
  0 <= pin <= 15 -> (pin / 8 = 0 \/ pin / 8 = 1) /\ 0 <= pin mod 8 < 8.
Proof.
  intros Hp. split; [|apply Z.mod_pos_bound; lia].
  assert (0 <= pin / 8) by (apply Z.div_pos; lia).
  assert (pin / 8 < 2) by (apply Z.div_lt_upper_bound; lia). lia.
Qed.

(** What a pin write does on a well-formed expander object. *)
Lemma xl_write_pin_run pin level a c0 c1 cfg tr :
  0 <= pin <= 15 -> 0 <= c0 < 256 -> 0 <= c1 < 256 ->
  XL9555.write_pin pin level (XL9555.mk a [c0; c1] cfg, tr)
  = if pin / 8 =? 0
    then (inr tt, (XL9555.mk a [with_bit c0 (pin mod 8) level; c1] cfg,
                   tr ++ [I2cWriteto a [2; with_bit c0 (pin mod 8) level]]))
    else (inr tt, (XL9555.mk a [c0; with_bit c1 (pin mod 8) level] cfg,
                   tr ++ [I2cWriteto a [3; with_bit c1 (pin mod 8) level]])).
Proof.
  intros Hp H0 H1. destruct (pin_port_bit pin Hp) as [Hport Hbit].
  pose proof (with_bit_byte c0 (pin mod 8) level H0 Hbit) as Hb0.
  pose proof (with_bit_byte c1 (pin mod 8) level H1 Hbit) as Hb1.
  unfold XL9555.write_pin.
  replace ((0 <=? pin) && (pin <=? 15)) with true
    by (symmetry; apply andb_true_intro; split; lia).
  cbn [negb]. unfold with_bit in *.
  destruct Hport as [-> | ->]; cbn [Z.eqb];
    destruct level; cbv [bind XL9555.get_output_cache XL9555.set_output_cache
      getitem setitem py_index fst snd length Z.of_nat Z.leb Z.ltb Z.compare
      Pos.of_succ_nat Pos.succ Pos.compare Pos.compare_cont andb Z.to_nat
      Pos.to_nat Pos.iter_op Nat.add lookup list_lookup list_insert insert
      XL9555._output_cache XL9555._config_cache XL9555.address Z.opp Z.add];
    rewrite xl_write_reg_ok by (cbv [XL9555.REG_OUTPUT_PORT0]; lia);
    reflexivity.
Qed.

(** ** Bus transactions of the display driver *)

Import ST7789V.

Lemma add_events_nil s : add_events s [] = s.
Proof. destruct s. unfold add_events. cbn. by rewrite app_nil_r. Qed.

Lemma add_events_app s a b : add_events (add_events s a) b = add_events s (a ++ b).
Proof. unfold add_events. cbn. by rewrite app_assoc. Qed.

Lemma bind_ok {S A B} (m : M S A) (k : A -> M S B) s a s' :
  m s = (inr a, s') -> bind m k s = k a s'.
Proof. unfold bind. by intros ->. Qed.

Lemma bind_err {S A B} (m : M S A) (k : A -> M S B) s e s' :
  m s = (inl e, s') -> bind m k s = (inl e, s').
Proof. unfold bind. by intros ->. Qed.

Lemma self_add_events s evs : self (add_events s evs) = self s.
Proof. reflexivity. Qed.

Lemma heap_add_events s evs : heap (add_events s evs) = heap s.
Proof. reflexivity. Qed.

Lemma trace_add_events s evs : trace (add_events s evs) = trace s ++ evs.
Proof. reflexivity. Qed.

Lemma gets_run {S A} (f : S -> A) s : gets f s = (inr (f s), s).
Proof. reflexivity. Qed.

Lemma emit_run e s : emit e s = (inr tt, add_events s [e]).
Proof. reflexivity. Qed.

Lemma sleep_ms_run n s : sleep_ms n s = (inr tt, add_events s [SleepMs n]).
Proof. reflexivity. Qed.

Lemma cs_call_run s p v :
  cs (self s) = Some p -> cs_call v s = (inr tt, add_events s [PinCall p v]).
Proof. intros H. unfold cs_call, bind, gets. by rewrite H. Qed.

Lemma cs_call_none s v : cs (self s) = None -> cs_call v s = (inl TypeError, s).
Proof. intros H. unfold cs_call, bind, gets. by rewrite H. Qed.

Lemma dc_call_run s v : dc_call v s = (inr tt, add_events s [PinCall (dc (self s)) v]).
Proof. reflexivity. Qed.

Lemma when_cs_run s c v :
  c = cs (self s) ->
  when (truthy c) (cs_call v) s = (inr tt, add_events s (cs_events c v)).
Proof.
  intros ->. destruct (cs (self s)) as [p|] eqn:E; cbn [truthy when cs_events].
  - by apply cs_call_run.
  - by rewrite add_events_nil.
Qed.

Lemma lift_bytes_run {S} (l : list Z) (s : S) :
  forallb is_byte l = true -> lift_result (bytes_of l) s = (inr l, s).
Proof. intros H. unfold lift_result, bytes_of. by rewrite H. Qed.

(** One step of symbolic execution: run the first action of a sequence
    with the lemma that describes it. *)
Ltac step_with lem :=
  erewrite bind_ok by (apply lem; done);
  rewrite ?self_add_events, ?heap_add_events, ?add_events_app.

Lemma write_cmd_run s cmd :
  0 <= cmd < 256 ->
  _write_cmd cmd s
  = (inr tt, add_events s (cmd_events (cs (self s)) (dc (self s)) cmd)).
Proof.
  intros Hc. unfold _write_cmd.
  step_with @gets_run. step_with when_cs_run.
  step_with dc_call_run.
  erewrite bind_ok
    by (apply lift_bytes_run; cbn [forallb]; by rewrite is_byte_true).
  step_with emit_run. step_with @gets_run.
  rewrite when_cs_run by done.
  rewrite add_events_app, <- !app_assoc. reflexivity.
Qed.

Lemma write_data_run s data :
  _write_data data s
  = (inr tt, add_events s (data_events (cs (self s)) (dc (self s)) data)).
Proof.
  unfold _write_data.
  step_with @gets_run. step_with when_cs_run.
  step_with dc_call_run. step_with emit_run. step_with @gets_run.
  rewrite when_cs_run by done.
  rewrite add_events_app, <- !app_assoc. reflexivity.
Qed.

Lemma land_255 v : Z.land v 0xFF = v mod 256.
Proof. change 0xFF with (Z.ones 8). by rewrite Z.land_ones. Qed.

Lemma land_255_byte v : 0 <= Z.land v 0xFF < 256.
Proof. rewrite land_255. apply Z.mod_pos_bound. lia. Qed.

Lemma be16_code v :
  [Z.land (Z.shiftr v 8) 0xFF; Z.land v 0xFF] = be16 v.
Proof.
  unfold be16. rewrite !land_255, Z.shiftr_div_pow2 by lia.
  change (2 ^ 8) with 256. f_equal. Z.div_mod_to_equations. lia.
Qed.

Lemma be16_bytes v : forallb is_byte (be16 v) = true.
Proof.
  rewrite <- be16_code. cbn [forallb].
  rewrite !is_byte_true by apply land_255_byte. reflexivity.
Qed.

(** The two bytes are the big-endian digits of the low 16 bits. *)
Lemma be16_value v :
  exists hi lo, be16 v = [hi; lo] /\ 0 <= hi < 256 /\ 0 <= lo < 256
                /\ hi * 256 + lo = v mod 65536.
Proof.
  exists ((v mod 65536) / 256), (v mod 256). split; [done|].
  Z.div_mod_to_equations. lia.
Qed.

Lemma be16_small v : 0 <= v < 65536 -> be16 v = [v / 256; v mod 256].
Proof. intros H. unfold be16. by rewrite Z.mod_small. Qed.

Lemma write_reg_run s reg d ds :
  0 <= reg < 256 -> forallb is_byte (d :: ds) = true ->
  _write_reg reg (d :: ds) s
  = (inr tt, add_events s (reg_events (cs (self s)) (dc (self s)) reg (d :: ds))).
Proof.
  intros Hr Hd. unfold _write_reg.
  step_with write_cmd_run.
  erewrite bind_ok by (by apply lift_bytes_run).
  rewrite write_data_run, self_add_events, add_events_app. reflexivity.
Qed.

Lemma set_window_run s x y w h :
  set_window x y w h s
  = (inr tt, add_events s (window_events (cs (self s)) (dc (self s)) x y w h)).
Proof.
  unfold set_window, window_events, ST7789_CASET, ST7789_RASET, ST7789_RAMWR.
  change [Z.land (Z.shiftr x 8) 255; Z.land x 255;
          Z.land (Z.shiftr (x + w - 1) 8) 255; Z.land (x + w - 1) 255]
    with ([Z.land (Z.shiftr x 8) 255; Z.land x 255]
          ++ [Z.land (Z.shiftr (x + w - 1) 8) 255; Z.land (x + w - 1) 255]).
  change [Z.land (Z.shiftr y 8) 255; Z.land y 255;
          Z.land (Z.shiftr (y + h - 1) 8) 255; Z.land (y + h - 1) 255]
    with ([Z.land (Z.shiftr y 8) 255; Z.land y 255]
          ++ [Z.land (Z.shiftr (y + h - 1) 8) 255; Z.land (y + h - 1) 255]).
  rewrite !be16_code.
  assert (Hb : forall a b, forallb is_byte (be16 a ++ be16 b) = true).
  { intros a b. rewrite forallb_app, !be16_bytes. reflexivity. }
  erewrite bind_ok by (apply write_reg_run; [lia | apply Hb]).
  erewrite bind_ok by (apply write_reg_run; [lia | apply Hb]).
  rewrite write_cmd_run by lia.
  rewrite ?self_add_events, ?add_events_app, <- ?app_assoc. reflexivity.
Qed.

(** ** Rotation *)

Lemma set_rotation_run s r :
  exists code lw lh,
    ((r mod 4 = 0 /\ code = 0x00 /\ lw = width (self s) /\ lh = height (self s))
     \/ (r mod 4 = 1 /\ code = 0x60 /\ lw = height (self s) /\ lh = width (self s))
     \/ (r mod 4 = 2 /\ code = 0xC0 /\ lw = width (self s) /\ lh = height (self s))
     \/ (r mod 4 = 3 /\ code = 0xA0 /\ lw = height (self s) /\ lh = width (self s)))
    /\ set_rotation r s
       = (inr tt,
          mkState (with_h (with_w (with_rotation (self s) (r mod 4)) lw) lh)
                  (heap s)
                  (trace s ++ reg_events (cs (self s)) (dc (self s))
                                         ST7789_MADCTL [code])).
Proof.
  assert (Hr : 0 <= r mod 4 < 4) by (apply Z.mod_pos_bound; lia).
  assert (Hcases : r mod 4 = 0 \/ r mod 4 = 1 \/ r mod 4 = 2 \/ r mod 4 = 3) by lia.
  unfold set_rotation.
  destruct Hcases as [E|[E|[E|E]]]; rewrite E;
    [exists 0x00, (width (self s)), (height (self s))
    |exists 0x60, (height (self s)), (width (self s))
    |exists 0xC0, (width (self s)), (height (self s))
    |exists 0xA0, (height (self s)), (width (self s))];
    (split; [tauto|]);
    cbv [bind update_self modify attr gets ret];
    cbn [self heap trace rotation with_rotation with_w with_h width height
         Z.eqb Pos.eqb];
    rewrite write_reg_run by (first [lia | reflexivity | cbv [ST7789_MADCTL]; lia]);
    reflexivity.
Qed.

(** ** Reset and backlight *)

Lemma drv_write_pin_run s x f p level c1 :
  _xl9555 (self s) = Some x -> XL9555.cache_ok x ->
  f (self s) = Some p -> 8 <= p <= 15 ->
  XL9555._output_cache x !! 1%nat = Some c1 ->
  xl_write_pin f level s
  = (inr tt, port1_written s x (with_bit c1 (p mod 8) level)).
Proof.
  intros Hx (c0 & c1' & Hc & H0 & H1) Hf Hp Hl.
  destruct x as [a oc cfg]. cbn [XL9555._output_cache] in *. subst oc.
  injection Hl as <-.
  unfold xl_write_pin. rewrite Hx, Hf.
  rewrite xl_write_pin_run by (done || lia).
  assert (Hport : p / 8 = 1).
  { assert (1 <= p / 8) by (apply Z.div_le_lower_bound; lia).
    assert (p / 8 < 2) by (apply Z.div_lt_upper_bound; lia). lia. }
  rewrite Hport. reflexivity.
Qed.

Lemma port1_written_ready s x c1 :
  expander_ready s x -> 0 <= c1 < 256 ->
  expander_ready (port1_written s x c1)
    (XL9555.mk (XL9555.address x) (<[1%nat := c1]> (XL9555._output_cache x))
               (XL9555._config_cache x)).
Proof.
  intros (Hu & Hx & Hr & Hb & (c0 & c1' & Hc & H0 & H1)) Hc1.
  repeat split; try done.
  exists c0, c1. cbn [XL9555._output_cache]. rewrite Hc. repeat split; (done || lia).
Qed.

Lemma cache_ok_port1 x :
  XL9555.cache_ok x ->
  exists c1, XL9555._output_cache x !! 1%nat = Some c1 /\ 0 <= c1 < 256.
Proof. intros (c0 & c1 & Hc & H0 & H1). exists c1. by rewrite Hc. Qed.

(** A reset pulse: the reset bit (bit 2 of port 1) is cleared, then set
    again, each time followed by the given delay. *)
Lemma reset_pulse_run s x c1 t1 t2 :
  expander_ready s x -> XL9555._output_cache x !! 1%nat = Some c1 ->
  (xl_write_pin _pin_rst false ;; sleep_ms t1 ;;
   xl_write_pin _pin_rst true ;; sleep_ms t2) s
  = (inr tt,
     add_events
       (port1_written
          (add_events (port1_written s x (with_bit c1 2 false)) [SleepMs t1])
          (XL9555.mk (XL9555.address x)
             (<[1%nat := with_bit c1 2 false]> (XL9555._output_cache x))
             (XL9555._config_cache x))
          (with_bit (with_bit c1 2 false) 2 true))
       [SleepMs t2]).
Proof.
  intros Hrdy Hl.
  pose proof Hrdy as (Hu & Hx & Hr & Hb & Hok).
  destruct (cache_ok_port1 x Hok) as (c1' & Hl' & Hc1).
  rewrite Hl in Hl'. injection Hl' as <-.
  assert (Hlo : 0 <= with_bit c1 2 false < 256) by (apply with_bit_byte; lia).
  pose proof (port1_written_ready s x _ Hrdy Hlo) as (Hu1 & Hx1 & Hr1 & Hb1 & Hok1).
  erewrite bind_ok
    by (apply (drv_write_pin_run s x _pin_rst 10 false c1); (done || lia)).
  change (10 mod 8) with 2.
  erewrite bind_ok by apply sleep_ms_run.
  erewrite bind_ok.
  2:{ eapply (drv_write_pin_run _ _ _pin_rst 10 true); try done; try lia.
      cbn [XL9555._output_cache]. destruct Hok as (c0 & c1' & Hc & _).
      rewrite Hc. reflexivity. }
  change (10 mod 8) with 2. rewrite sleep_ms_run. reflexivity.
Qed.

Lemma backlight_run s x c1 on :
  expander_ready s x -> XL9555._output_cache x !! 1%nat = Some c1 ->
  set_backlight on s = (inr tt, port1_written s x (with_bit c1 3 on)).
Proof.
  intros (Hu & Hx & Hr & Hb & Hok) Hl. unfold set_backlight.
  erewrite bind_ok by apply gets_run. rewrite Hu.
  rewrite (drv_write_pin_run s x _pin_bl 11 on c1) by (done || lia).
  reflexivity.
Qed.

Lemma reset_run s x c1 :
  expander_ready s x -> XL9555._output_cache x !! 1%nat = Some c1 ->
  exists s', reset s = (inr tt, s')
    /\ trace s' = trace s ++
         [I2cWriteto (XL9555.address x) [3; with_bit c1 2 false]; SleepMs 100;
          I2cWriteto (XL9555.address x) [3; with_bit (with_bit c1 2 false) 2 true];
          SleepMs 100].
Proof.
  intros Hrdy Hl. pose proof Hrdy as (Hu & _).
  unfold reset. erewrite bind_ok by apply gets_run. rewrite Hu.
  rewrite (reset_pulse_run s x c1) by done.
  eexists. split; [reflexivity|].
  cbn [trace add_events port1_written XL9555.address]. by rewrite <- !app_assoc.
Qed.

(** ** The conversion loop of the refresh *)

Lemma getitem_nat {A} (l : list A) (k : nat) (z : Z) (a : A) :
  z = Z.of_nat k -> l !! k = Some a -> getitem l z = inr a.
Proof.
  intros -> Hl. pose proof (lookup_lt_Some _ _ _ Hl) as Hlt.
  unfold getitem, py_index.
  replace ((0 <=? Z.of_nat k) && (Z.of_nat k <? Z.of_nat (length l))) with true
    by (symmetry; apply andb_true_intro; split; lia).
  by rewrite Nat2Z.id, Hl.
Qed.

Lemma setitem_nat {A} (l : list A) (k : nat) (z : Z) (a : A) :
  z = Z.of_nat k -> (k < length l)%nat -> setitem l z a = inr (<[k := a]> l).
Proof.
  intros -> Hlt. unfold setitem, py_index.
  replace ((0 <=? Z.of_nat k) && (Z.of_nat k <? Z.of_nat (length l))) with true
    by (symmetry; apply andb_true_intro; split; lia).
  by rewrite Nat2Z.id.
Qed.

Lemma swap_pairs_involutive l : swap_pairs (swap_pairs l) = l.
Proof.
  induction l as [l IH] using (induction_ltof1 _ (@length Z)).
  destruct l as [|a [|b rest]]; [done..|]. cbn [swap_pairs].
  rewrite IH; [done|]. unfold ltof. cbn [length]. lia.
Qed.

Lemma swap_pairs_length l : length (swap_pairs l) = length l.
Proof.
  induction l as [l IH] using (induction_ltof1 _ (@length Z)).
  destruct l as [|a [|b rest]]; [done..|]. cbn [swap_pairs length].
  rewrite IH; [done|]. unfold ltof. cbn [length]. lia.
Qed.

Lemma swap_pairs_take k l :
  swap_pairs (take (2 * k) l) = take (2 * k) (swap_pairs l).
Proof.
  revert l. induction k as [|k IH]; intros l; [done|].
  replace (2 * S k)%nat with (S (S (2 * k))) by lia.
  destruct l as [|a [|b rest]]; [done..|].
  cbn [take swap_pairs]. by rewrite IH.
Qed.

Lemma swap_pairs_drop k l :
  swap_pairs (drop (2 * k) l) = drop (2 * k) (swap_pairs l).
Proof.
  revert l. induction k as [|k IH]; intros l; [done|].
  replace (2 * S k)%nat with (S (S (2 * k))) by lia.
  destruct l as [|a [|b rest]]; [done..|].
  cbn [drop swap_pairs]. by rewrite IH.
Qed.

(** Position [2p] of the exchanged sequence holds byte [2p+1] of the
    original and the other way round: pixels keep their place. *)
Lemma swap_pairs_lookup l p a b :
  l !! (2 * p)%nat = Some a -> l !! (2 * p + 1)%nat = Some b ->
  swap_pairs l !! (2 * p)%nat = Some b /\ swap_pairs l !! (2 * p + 1)%nat = Some a.
Proof.
  revert l. induction p as [|p IH]; intros l Ha Hb.
  - by destruct l as [|a' [|b' rest]]; simplify_eq/=.
  - replace (2 * S p)%nat with (S (S (2 * p))) in * by lia.
    destruct l as [|a' [|b' rest]]; try done.
    cbn [swap_pairs]. cbn in Ha, Hb |- *. by apply IH.
Qed.

Lemma chunk_set_run c k z v :
  z = Z.of_nat k -> (k < length c)%nat ->
  chunk_set z v c = (inr tt, <[k := v]> c).
Proof. intros Hz Hk. unfold chunk_set. by rewrite (setitem_nat c k z v). Qed.

(** The inner loop, started after [a] pairs have been converted into
    [pre], converts the next [cnt] pairs. *)
Lemma swap_loop buf (i : nat) cnt : forall a pre,
  length pre = (2 * a)%nat ->
  (i + 2 * a + 2 * cnt <= length buf)%nat ->
  for_each (map (fun k => 0 + Z.of_nat k * 2) (seq a cnt))
    (fun j =>
       hi <- lift_result (getitem buf (Z.of_nat i + j + 1)) ;;
       chunk_set j hi ;;
       lo <- lift_result (getitem buf (Z.of_nat i + j)) ;;
       chunk_set (j + 1) lo)
    (pre ++ repeat 0 (2 * cnt))
  = (inr tt, pre ++ swap_pairs (take (2 * cnt) (drop (i + 2 * a) buf))).
Proof.
  induction cnt as [|cnt IH]; intros a pre Hpre Hlen.
  - change (2 * 0)%nat with 0%nat. rewrite take_0. reflexivity.
  - replace (2 * S cnt)%nat with (S (S (2 * cnt))) by lia.
    destruct (lookup_lt_is_Some_2 buf (i + 2 * a)) as [b0 Hb0]; [lia|].
    destruct (lookup_lt_is_Some_2 buf (i + 2 * a + 1)) as [b1 Hb1]; [lia|].
    cbn [seq map for_each repeat].
    erewrite bind_ok.
    2:{ erewrite bind_ok
          by (unfold lift_result; erewrite (getitem_nat buf (i + 2 * a + 1));
              [reflexivity | lia | exact Hb1]).
        erewrite bind_ok
          by (apply (chunk_set_run _ (2 * a)); [lia | rewrite length_app; cbn; lia]).
        erewrite bind_ok
          by (unfold lift_result; erewrite (getitem_nat buf (i + 2 * a));
              [reflexivity | lia | exact Hb0]).
        apply (chunk_set_run _ (2 * a + 1)); [lia|].
        rewrite length_insert, length_app. cbn. lia. }
    rewrite insert_app_r_alt by lia.
    rewrite insert_app_r_alt by lia.
    replace (2 * a - length pre)%nat with 0%nat by lia.
    replace (2 * a + 1 - length pre)%nat with 1%nat by lia.
    cbn [insert list_insert].
    change (pre ++ b1 :: b0 :: repeat 0 (2 * cnt))
      with (pre ++ [b1; b0] ++ repeat 0 (2 * cnt)).
    rewrite app_assoc.
    rewrite (IH (S a) (pre ++ [b1; b0])) by (rewrite ?length_app; cbn; lia).
    rewrite (drop_S buf b0 (i + 2 * a)) by done.
    rewrite (drop_S buf b1 (S (i + 2 * a)))
      by (by replace (S (i + 2 * a)) with (i + 2 * a + 1)%nat by lia).
    cbn [take swap_pairs].
    replace (S (S (i + 2 * a))) with (i + 2 * S a)%nat by lia.
    by rewrite <- app_assoc.
Qed.

Lemma take_min_length {A} (l : list A) k :
  take (k `min` length l) l = take k l.
Proof.
  destruct (Nat.le_gt_cases k (length l)).
  - by rewrite Nat.min_l.
  - rewrite Nat.min_r by lia. by rewrite !take_ge by lia.
Qed.

(** One chunk: for an even chunk size and an even buffer length, the
    iteration that starts at the even index [2 * a] hands over the next bytes
    with every pair exchanged. *)
Lemma convert_chunk_run (c n2 a : nat) buf :
  (0 < c)%nat -> length buf = (2 * n2)%nat -> (a < n2)%nat ->
  convert_chunk (Z.of_nat (2 * c)) buf (Z.of_nat (2 * a))
  = inr (swap_pairs (take (2 * c) (drop (2 * a) buf))).
Proof.
  intros Hc Hn Ha. unfold convert_chunk.
  set (m := (c `min` (n2 - a))%nat).
  assert (Hlen : Z.min (Z.of_nat (2 * a) + Z.of_nat (2 * c)) (Z.of_nat (length buf))
                 - Z.of_nat (2 * a) = Z.of_nat (2 * m)) by (subst m; lia).
  rewrite Hlen. unfold bytearray.
  replace (Z.of_nat (2 * m) <? 0) with false by (symmetry; apply Z.ltb_ge; lia).
  rewrite Nat2Z.id. unfold swap_into_chunk, py_range.
  replace (Z.to_nat ((Z.of_nat (2 * m) - 0 + 2 - 1) / 2)) with m.
  2:{ replace (Z.of_nat (2 * m) - 0 + 2 - 1) with (1 + Z.of_nat m * 2) by lia.
      rewrite Z.div_add by lia. change (1 / 2) with 0. lia. }
  pose proof (swap_loop buf (2 * a) m 0 [] eq_refl) as Hloop.
  cbn [app] in Hloop. rewrite Hloop by (subst m; lia).
  replace (2 * a + 2 * 0)%nat with (2 * a)%nat by lia.
  f_equal. f_equal.
  rewrite <- (take_min_length (drop (2 * a) buf) (2 * c)), length_drop.
  f_equal. subst m. lia.
Qed.

(** Cutting a list into consecutive pieces of [c] elements and gluing the
    pieces together gives the list back. *)
Lemma pieces_concat {A} (l : list A) (c : nat) m : forall a,
  concat (map (fun k => take c (drop (k * c) l)) (seq a m))
  = take (m * c) (drop (a * c) l).
Proof.
  induction m as [|m IH]; intros a; [done|].
  cbn [seq map concat]. rewrite IH.
  replace (S a * c)%nat with (a * c + c)%nat by lia.
  by rewrite <- drop_drop, take_take_drop.
Qed.

(** Number of iterations of [range(0, n, C)], and what it covers. *)
Lemma py_range_count (n C : Z) :
  0 <= n -> 0 < C ->
  exists cnt : nat,
    py_range 0 n C = map (fun k => 0 + Z.of_nat k * C) (seq 0 cnt)
    /\ n <= Z.of_nat cnt * C
    /\ (forall k : nat, (k < cnt)%nat -> Z.of_nat k * C < n).
Proof.
  intros Hn HC. exists (Z.to_nat ((n - 0 + C - 1) / C)).
  split; [reflexivity|].
  assert (Hq : 0 <= (n - 0 + C - 1) / C) by (apply Z.div_pos; lia).
  rewrite Z2Nat.id by done.
  pose proof (Z.mul_div_le (n - 0 + C - 1) C HC) as Hle.
  pose proof (Z.mul_succ_div_gt (n - 0 + C - 1) C HC) as Hgt.
  split; [lia|]. intros k Hk. nia.
Qed.

Lemma wire_chunks_concat (c n2 : nat) buf :
  (0 < c)%nat -> length buf = (2 * n2)%nat ->
  concat (wire_chunks (Z.of_nat (2 * c)) buf) = swap_pairs buf.
Proof.
  intros Hc Hn. unfold wire_chunks.
  destruct (py_range_count (Z.of_nat (length buf)) (Z.of_nat (2 * c)))
    as (cnt & -> & Hcover & _); [lia..|].
  rewrite map_map, Nat2Z.id.
  rewrite (map_ext _ (fun k => take (2 * c) (drop (k * (2 * c)) (swap_pairs buf)))).
  - rewrite pieces_concat. cbn [Nat.mul drop].
    apply take_ge. rewrite swap_pairs_length. lia.
  - intros k.
    replace (Z.to_nat (0 + Z.of_nat k * Z.of_nat (2 * c))) with (2 * (k * c))%nat by lia.
    rewrite swap_pairs_take, swap_pairs_drop. do 2 f_equal. lia.
Qed.

(** The outer loop writes one converted chunk per index. *)
Lemma show_loop_run C buf (f : Z -> list Z) (idx : list Z) : forall s,
  Forall (fun i => convert_chunk C buf i = inr (f i)) idx ->
  for_each idx (fun i =>
      chunk <- lift_result (convert_chunk C buf i) ;; emit (SpiWrite chunk)) s
  = (inr tt, add_events s (map (fun i => SpiWrite (f i)) idx)).
Proof.
  induction idx as [|i idx IH]; intros s Hall.
  - cbn. by rewrite add_events_nil.
  - inversion Hall as [|? ? Hi Hrest]; subst. cbn [for_each map].
    erewrite bind_ok.
    2:{ erewrite bind_ok by (unfold lift_result; rewrite Hi; reflexivity).
        apply emit_run. }
    rewrite IH by done. by rewrite add_events_app.
Qed.

Lemma deref_run s l b : heap s !! l = Some b -> deref l s = (inr b, s).
Proof. intros H. unfold deref. by rewrite H. Qed.

Lemma range_chunks_ok (c n2 : nat) buf :
  (0 < c)%nat -> length buf = (2 * n2)%nat ->
  Forall (fun i => convert_chunk (Z.of_nat (2 * c)) buf i
                   = inr (swap_pairs (take (Z.to_nat (Z.of_nat (2 * c)))
                                           (drop (Z.to_nat i) buf))))
         (py_range 0 (Z.of_nat (length buf)) (Z.of_nat (2 * c))).
Proof.
  intros Hc Hn.
  destruct (py_range_count (Z.of_nat (length buf)) (Z.of_nat (2 * c)))
    as (cnt & -> & _ & Hlt); [lia..|].
  apply List.Forall_forall. intros i Hi.
  apply in_map_iff in Hi as (k & <- & Hk). apply in_seq in Hk.
  specialize (Hlt k ltac:(lia)).
  replace (0 + Z.of_nat k * Z.of_nat (2 * c)) with (Z.of_nat (2 * (k * c))) by lia.
  rewrite !Nat2Z.id. apply (convert_chunk_run c n2); [done..|nia].
Qed.

(** What a refresh does when a chip-select line is present. *)
Lemma show_chunked_run (c n2 : nat) s p buf :
  (0 < c)%nat -> cs (self s) = Some p ->
  heap s !! buffer (self s) = Some buf -> length buf = (2 * n2)%nat ->
  show_chunked (Z.of_nat (2 * c)) s
  = (inr tt,
     add_events s
       (show_events (cs (self s)) (dc (self s)) (width (self s)) (height (self s))
                    (Z.of_nat (2 * c)) buf)).
Proof.
  intros Hc Hcs Hbuf Hn. unfold show_chunked.
  step_with @gets_run. step_with deref_run.
  step_with @gets_run. step_with @gets_run.
  step_with set_window_run.
  erewrite bind_ok by (by apply cs_call_run).
  step_with dc_call_run.
  erewrite bind_ok by (apply show_loop_run, (range_chunks_ok c n2); done).
  rewrite ?self_add_events, ?add_events_app.
  rewrite (cs_call_run _ p) by done.
  rewrite ?add_events_app. unfold show_events, wire_chunks.
  rewrite Hcs. cbn [cs_events]. rewrite map_map, <- !app_assoc. reflexivity.
Qed.

(** Without a chip-select line the refresh stops at its first
    chip-select call, after the window has been programmed. *)
Lemma show_chunked_no_cs C s buf :
  cs (self s) = None -> heap s !! buffer (self s) = Some buf ->
  show_chunked C s
  = (inl TypeError,
     add_events s (window_events None (dc (self s)) 0 0
                                 (width (self s)) (height (self s)))).
Proof.
  intros Hcs Hbuf. unfold show_chunked.
  step_with @gets_run. step_with deref_run.
  step_with @gets_run. step_with @gets_run.
  step_with set_window_run.
  erewrite bind_err by (by apply cs_call_none).
  by rewrite Hcs.
Qed.

(** ** The pixel buffer *)

Lemma setpixel_length fb x y col b :
  length (FrameBuffer.setpixel fb x y col b) = length b.
Proof. unfold FrameBuffer.setpixel. by rewrite !length_insert. Qed.

Lemma color_byte_even col (z : Z) :
  0 <= z -> color_byte col (Z.to_nat (2 * z)) = Z.land col 0xFF.
Proof.
  intros Hz. unfold color_byte. rewrite Z2Nat.id by lia.
  by rewrite Z.even_mul.
Qed.

Lemma color_byte_odd col (z : Z) :
  0 <= z -> color_byte col (S (Z.to_nat (2 * z))) = Z.land (Z.shiftr col 8) 0xFF.
Proof.
  intros Hz. unfold color_byte.
  replace (Z.of_nat (S (Z.to_nat (2 * z)))) with (Z.succ (2 * z)) by lia.
  by rewrite Z.even_succ, Z.odd_mul.
Qed.

(** Writing one pixel changes exactly its two bytes. *)
Lemma setpixel_lookup fb x y col b (i : nat) :
  0 <= x + y * FrameBuffer.stride fb ->
  2 * (x + y * FrameBuffer.stride fb) + 1 < Z.of_nat (length b) ->
  FrameBuffer.setpixel fb x y col b !! i
  = if decide (2 * (x + y * FrameBuffer.stride fb) <= Z.of_nat i
               < 2 * (x + y * FrameBuffer.stride fb + 1))
    then Some (color_byte col i) else b !! i.
Proof.
  intros Hnn Hlen. unfold FrameBuffer.setpixel, FrameBuffer.offset.
  set (z := x + y * FrameBuffer.stride fb) in *.
  case_decide as Hi.
  - destruct (decide (i = Z.to_nat (2 * z))) as [->|Hne].
    + rewrite list_lookup_insert_ne by lia.
      rewrite list_lookup_insert_eq by lia. by rewrite color_byte_even.
    + assert (i = S (Z.to_nat (2 * z))) as -> by lia.
      rewrite list_lookup_insert_eq by (rewrite length_insert; lia).
      by rewrite color_byte_odd.
  - rewrite !list_lookup_insert_ne by lia. done.
Qed.

(** A row written from [x + a] for [n] pixels. *)
Lemma fill_row_seq fb x yy col n : forall a b (i : nat),
  0 <= x + yy * FrameBuffer.stride fb ->
  2 * (x + yy * FrameBuffer.stride fb + Z.of_nat a + Z.of_nat n) <= Z.of_nat (length b) ->
  let r := fold_left (fun b xx => FrameBuffer.setpixel fb xx yy col b)
                     (map (fun k => x + Z.of_nat k) (seq a n)) b in
  length r = length b
  /\ r !! i
     = if decide (2 * (x + yy * FrameBuffer.stride fb + Z.of_nat a) <= Z.of_nat i
                  < 2 * (x + yy * FrameBuffer.stride fb + Z.of_nat a + Z.of_nat n))
       then Some (color_byte col i) else b !! i.
Proof.
  induction n as [|n IH]; intros a b i Hnn Hlen; cbn [seq map fold_left].
  - split; [done|]. case_decide; [lia|done].
  - destruct (IH (S a) (FrameBuffer.setpixel fb (x + Z.of_nat a) yy col b) i Hnn)
      as [Hl Hi]; [rewrite setpixel_length; lia|].
    cbv zeta in Hl, Hi |- *. rewrite Hl, Hi, setpixel_length. split; [done|].
    rewrite setpixel_lookup by lia.
    repeat case_decide; try lia; done.
Qed.

Lemma fill_row_lookup fb x w yy col b (i : nat) :
  0 <= x + yy * FrameBuffer.stride fb -> 0 <= w ->
  2 * (x + yy * FrameBuffer.stride fb + w) <= Z.of_nat (length b) ->
  length (FrameBuffer.fill_row fb x w yy col b) = length b
  /\ FrameBuffer.fill_row fb x w yy col b !! i
     = if decide (2 * (x + yy * FrameBuffer.stride fb) <= Z.of_nat i
                  < 2 * (x + yy * FrameBuffer.stride fb + w))
       then Some (color_byte col i) else b !! i.
Proof.
  intros Hnn Hw Hlen. unfold FrameBuffer.fill_row, FrameBuffer.span.
  destruct (fill_row_seq fb x yy col (Z.to_nat w) 0 b i Hnn) as [Hl Hi]; [lia|].
  cbv zeta in Hl, Hi. rewrite Hl, Hi. split; [done|].
  repeat case_decide; try lia; done.
Qed.

(** The bytes of row [yy] between columns [x] and [x + w] are those of the
    pixels whose coordinates lie there. *)
Lemma row_range_iff S x w yy (i : Z) :
  0 < S -> 0 <= x -> 0 <= w -> x + w <= S -> 0 <= yy ->
  (2 * (x + yy * S) <= i < 2 * (x + yy * S + w))
  <-> (x <= (i / 2) mod S < x + w /\ (i / 2) / S = yy).
Proof.
  intros HS Hx Hw Hxw Hy.
  pose proof (Z.div_mod i 2 ltac:(lia)) as Hi.
  pose proof (Z.mod_pos_bound i 2 ltac:(lia)) as Hr.
  set (p := i / 2) in *.
  pose proof (Z.div_mod p S ltac:(lia)) as Hp.
  pose proof (Z.mod_pos_bound p S HS) as Hm.
  set (q := p / S) in *. set (m := p mod S) in *.
  split.
  - intros [Hlo Hhi].
    assert (Hq : q = yy) by nia. subst yy. nia.
  - intros [Hm' <-]. nia.
Qed.

(** Rows [y + a], ..., [y + a + n - 1] written between columns [x] and
    [x + w]. *)
Lemma fill_rect_rows fb x y w col n : forall a b (i : nat),
  let S := FrameBuffer.stride fb in
  0 < S -> 0 <= x -> 0 <= w -> x + w <= S -> 0 <= y ->
  2 * S * (y + Z.of_nat a + Z.of_nat n) <= Z.of_nat (length b) ->
  let r := fold_left (fun b yy => FrameBuffer.fill_row fb x w yy col b)
                     (map (fun k => y + Z.of_nat k) (seq a n)) b in
  length r = length b
  /\ r !! i
     = if decide (x <= (Z.of_nat i / 2) mod S < x + w
                  /\ y + Z.of_nat a <= (Z.of_nat i / 2) / S < y + Z.of_nat a + Z.of_nat n)
       then Some (color_byte col i) else b !! i.
Proof.
  cbv zeta.
  induction n as [|n IH]; intros a b i HS Hx Hw Hxw Hy Hlen; cbn [seq map fold_left].
  - split; [done|]. case_decide; [lia|done].
  - assert (Hrow : 2 * (x + (y + Z.of_nat a) * FrameBuffer.stride fb + w)
                   <= Z.of_nat (length b)) by nia.
    destruct (fill_row_lookup fb x w (y + Z.of_nat a) col b i) as [Hl1 Hi1];
      [nia | done | done |].
    destruct (IH (S a) (FrameBuffer.fill_row fb x w (y + Z.of_nat a) col b) i)
      as [Hl Hi]; [done..| rewrite Hl1; nia |].
    rewrite Hl, Hi, Hl1, Hi1. split; [done|].
    pose proof (row_range_iff (FrameBuffer.stride fb) x w (y + Z.of_nat a)
                  (Z.of_nat i) HS Hx Hw Hxw ltac:(lia)) as Hiff.
    repeat case_decide; try done; exfalso; lia.
Qed.

(** The format-level rectangle fill, for a rectangle inside the buffer. *)
Lemma rgb565_fill_rect_lookup fb x y w h col b (i : nat) :
  let S := FrameBuffer.stride fb in
  0 < S -> 0 <= x -> 0 <= w -> x + w <= S -> 0 <= y -> 0 <= h ->
  2 * S * (y + h) <= Z.of_nat (length b) ->
  length (FrameBuffer.rgb565_fill_rect fb x y w h col b) = length b
  /\ FrameBuffer.rgb565_fill_rect fb x y w h col b !! i
     = if decide (x <= (Z.of_nat i / 2) mod S < x + w
                  /\ y <= (Z.of_nat i / 2) / S < y + h)
       then Some (color_byte col i) else b !! i.
Proof.
  cbv zeta. intros HS Hx Hw Hxw Hy Hh Hlen.
  unfold FrameBuffer.rgb565_fill_rect, FrameBuffer.span.
  destruct (fill_rect_rows fb x y w col (Z.to_nat h) 0 b i) as [Hl Hi];
    [done..| nia |].
  rewrite Hl, Hi. split; [done|].
  repeat case_decide; try done; exfalso; lia.
Qed.

(** Coordinates of the pixel that owns byte [i] of a [W]-wide buffer of
    [2 * W * H] bytes. *)
Lemma byte_pixel_bounds (W H : Z) (i : Z) :
  0 < W -> 0 <= i ->
  0 <= (i / 2) mod W < W /\ 0 <= (i / 2) / W
  /\ (i < 2 * W * H <-> (i / 2) / W < H).
Proof.
  intros HW Hi.
  pose proof (Z.div_mod i 2 ltac:(lia)) as Hd.
  pose proof (Z.mod_pos_bound i 2 ltac:(lia)) as Hr.
  set (p := i / 2) in *.
  pose proof (Z.div_mod p W ltac:(lia)) as Hp.
  pose proof (Z.mod_pos_bound p W HW) as Hm.
  set (q := p / W) in *. set (m := p mod W) in *.
  assert (0 <= p) by lia. assert (0 <= q) by nia.
  repeat split; try lia; nia.
Qed.

(** The inherited rectangle fill, for any rectangle: the bytes written are
    those of the pixels of the buffer that lie in the rectangle. *)
Lemma fb_fill_rect_lookup fb x y w h col b (i : nat) :
  let W := FrameBuffer.width fb in
  let H := FrameBuffer.height fb in
  FrameBuffer.stride fb = W -> 0 < W -> 0 < H ->
  Z.of_nat (length b) = W * H * 2 ->
  length (FrameBuffer.fill_rect fb x y w h col b) = length b
  /\ FrameBuffer.fill_rect fb x y w h col b !! i
     = if decide (x <= (Z.of_nat i / 2) mod W < x + w
                  /\ y <= (Z.of_nat i / 2) / W < y + h
                  /\ (i < length b)%nat)
       then Some (color_byte col i) else b !! i.
Proof.
  cbv zeta. intros HS HW HH Hlen.
  destruct (byte_pixel_bounds (FrameBuffer.width fb) (FrameBuffer.height fb)
              (Z.of_nat i) HW ltac:(lia)) as (Hm & Hq & Hin).
  unfold FrameBuffer.fill_rect.
  destruct ((h <? 1) || (w <? 1) || (x + w <=? 0) || (y + h <=? 0)
            || (FrameBuffer.height fb <=? y) || (FrameBuffer.width fb <=? x))
    eqn:Hskip.
  - split; [done|]. case_decide as Hc; [exfalso|done].
    destruct Hc as (Hx & Hy & Hi). rewrite !orb_true_iff in Hskip. lia.
  - rewrite !orb_false_iff in Hskip.
    destruct (rgb565_fill_rect_lookup fb (Z.max x 0) (Z.max y 0)
                (Z.min (FrameBuffer.width fb) (x + w) - Z.max x 0)
                (Z.min (FrameBuffer.height fb) (y + h) - Z.max y 0) col b i)
      as [Hl Hi]; [rewrite ?HS; (lia || nia)..|].
    rewrite Hl, Hi, HS. split; [done|].
    repeat case_decide; try done; exfalso; lia.
Qed.

Lemma super_run s f bytes :
  heap s !! FrameBuffer.buf (fb (self s)) = Some bytes ->
  super f s
  = (inr tt, mkState (self s)
               (<[FrameBuffer.buf (fb (self s)) := f (fb (self s)) bytes]> (heap s))
               (trace s)).
Proof. intros H. unfold super. by rewrite H. Qed.

Lemma state_insert_id s l bytes :
  heap s !! l = Some bytes -> mkState (self s) (<[l := bytes]> (heap s)) (trace s) = s.
Proof. intros H. destruct s. cbn in *. by rewrite insert_id. Qed.

(** The clipped rectangle fill of the driver, byte by byte. *)
Lemma drv_fill_rect_run s x y w h color buf :
  store_inv s -> heap s !! buffer (self s) = Some buf ->
  exists buf',
    fill_rect x y w h color s
    = (inr tt, mkState (self s) (<[buffer (self s) := buf']> (heap s)) (trace s))
    /\ length buf' = length buf
    /\ ((w <= 0 \/ h <= 0) -> buf' = buf)
    /\ forall i : nat,
         buf' !! i
         = if decide (0 < w /\ 0 < h
                      /\ Z.max x 0 <= (Z.of_nat i / 2) mod width (self s)
                         < Z.min (x + w) (width (self s))
                      /\ Z.max y 0 <= (Z.of_nat i / 2) / width (self s)
                         < Z.min (y + h) (height (self s))
                      /\ (i < length buf)%nat)
           then Some (color_byte color i) else buf !! i.
Proof.
  intros (HW & HH & Hfb & buf0 & Hb0 & Hlen) Hbuf.
  rewrite Hbuf in Hb0. injection Hb0 as <-.
  unfold fill_rect.
  destruct ((w <=? 0) || (h <=? 0)) eqn:Hskip.
  - exists buf. rewrite state_insert_id by done.
    repeat split; try done. intros i. rewrite orb_true_iff in Hskip.
    case_decide; [lia|done].
  - rewrite orb_false_iff in Hskip.
    erewrite bind_ok by apply gets_run. erewrite bind_ok by apply gets_run.
    rewrite (super_run s _ buf) by (by rewrite Hfb).
    rewrite Hfb. cbn [FrameBuffer.buf].
    eexists. split; [reflexivity|].
    match goal with
    | |- context [FrameBuffer.fill_rect ?f ?a ?b ?c ?d ?e buf] =>
        pose proof (fun i => fb_fill_rect_lookup f a b c d e buf i eq_refl HW HH Hlen)
          as Hlk
    end.
    cbn [FrameBuffer.width FrameBuffer.height] in Hlk.
    split; [apply (Hlk 0%nat)|]. split; [lia|].
    intros i. rewrite (proj2 (Hlk i)).
    destruct (x <? 0) eqn:Ex; destruct (y <? 0) eqn:Ey;
      destruct (x + w >? width (self s)) eqn:Ew;
      destruct (y + h >? height (self s)) eqn:Eh;
      repeat case_decide; try done; exfalso; lia.
Qed.

(** ** Pixels *)

Lemma pixel_offset_coords (W H px py : Z) :
  0 <= px < W -> 0 <= py < H ->
  let off := Z.to_nat ((py * W + px) * 2) in
  Z.of_nat off = (py * W + px) * 2
  /\ (Z.of_nat off / 2) mod W = px /\ (Z.of_nat off / 2) / W = py
  /\ (Z.of_nat (S off) / 2) mod W = px /\ (Z.of_nat (S off) / 2) / W = py
  /\ Z.of_nat (S off) < W * H * 2.
Proof.
  intros Hx Hy off.
  assert (Hnn : 0 <= py * W + px) by nia.
  assert (Hoff : Z.of_nat off = (py * W + px) * 2) by (subst off; lia).
  assert (H1 : Z.of_nat off / 2 = py * W + px) by (rewrite Hoff; apply Z.div_mul; lia).
  assert (H2 : Z.of_nat (S off) / 2 = py * W + px).
  { symmetry. apply (Z.div_unique_pos _ _ _ 1); lia. }
  assert (Hm : (py * W + px) mod W = px).
  { symmetry. apply (Z.mod_unique_pos _ _ py); lia. }
  assert (Hd : (py * W + px) / W = py).
  { symmetry. apply (Z.div_unique_pos _ _ _ px); lia. }
  rewrite H1, H2, Hm, Hd. repeat split; try done. nia.
Qed.

Lemma pixel_bytes_updated s buf' px py :
  pixel_bytes (mkState (self s) (<[buffer (self s) := buf']> (heap s)) (trace s)) px py
  = match buf' !! Z.to_nat ((py * width (self s) + px) * 2),
          buf' !! S (Z.to_nat ((py * width (self s) + px) * 2)) with
    | Some lo, Some hi => Some (lo, hi)
    | _, _ => None
    end.
Proof. unfold pixel_bytes. cbn [self heap]. by rewrite lookup_insert_eq. Qed.

Lemma store_inv_updated s buf buf' :
  store_inv s -> heap s !! buffer (self s) = Some buf -> length buf' = length buf ->
  store_inv (mkState (self s) (<[buffer (self s) := buf']> (heap s)) (trace s)).
Proof.
  intros (HW & HH & Hfb & buf0 & Hb0 & Hlen) Hbuf Hl.
  rewrite Hbuf in Hb0. injection Hb0 as <-.
  repeat split; try done. exists buf'. cbn [self heap].
  rewrite lookup_insert_eq. split; [done|]. by rewrite Hl.
Qed.

(** The bytes of an in-bounds pixel after an update that rewrote the bytes
    selected by [P] with the colour [col]. *)
Lemma pixel_bytes_recolored s buf buf' (P : nat -> Prop) `{!forall i, Decision (P i)}
    col px py :
  store_inv s -> heap s !! buffer (self s) = Some buf ->
  (forall i : nat, buf' !! i = if decide (P i) then Some (color_byte col i) else buf !! i) ->
  0 <= px < width (self s) -> 0 <= py < height (self s) ->
  let off := Z.to_nat ((py * width (self s) + px) * 2) in
  (P off <-> P (S off)) ->
  (P off ->
     pixel_bytes (mkState (self s) (<[buffer (self s) := buf']> (heap s)) (trace s)) px py
     = Some (le16 col))
  /\ (~ P off ->
     pixel_bytes (mkState (self s) (<[buffer (self s) := buf']> (heap s)) (trace s)) px py
     = pixel_bytes s px py).
Proof.
  intros Hinv Hbuf Hlk Hx Hy off HP.
  rewrite pixel_bytes_updated. fold off. rewrite !Hlk.
  assert (Hnn : 0 <= py * width (self s) + px) by nia.
  split; intros HPoff.
  - rewrite !decide_True by tauto.
    unfold le16, color_byte.
    replace (Z.of_nat off) with (2 * (py * width (self s) + px)) by (subst off; lia).
    replace (Z.of_nat (S off)) with (Z.succ (2 * (py * width (self s) + px)))
      by (subst off; lia).
    by rewrite Z.even_succ, Z.odd_mul, Z.even_mul.
  - rewrite !decide_False by tauto. unfold pixel_bytes. by rewrite Hbuf.
Qed.

Lemma blank_state_inv cs xl W H :
  0 < W -> 0 < H -> store_inv (blank_state cs xl W H).
Proof.
  intros HW HH. unfold store_inv, blank_state, state_with_buffer.
  cbn [self width height fb buffer heap].
  repeat split; try done.
  exists (repeat 0 (Z.to_nat (W * H * 2))).
  split; [apply lookup_singleton_eq|].
  rewrite repeat_length. nia.
Qed.

(** ** Rectangle fill *)

(** C3: [fill_rect(x, y, w, h, color)] leaves the state untouched when
    [w <= 0] or [h <= 0]; otherwise exactly the pixels of the rectangle
    clamped to the buffer (origin raised to 0, far edges capped at width and
    height) receive the colour, and every other pixel keeps its bytes.  On a
    240 by 320 buffer, [fill_rect(-5, -5, 10, 10, c)] therefore writes the
    pixels (0,0) to (4,4) only. *)
Theorem fill_rect_clamped (s : state) (x y w h color : Z) :
  store_inv s ->
  exists s',
    fill_rect x y w h color s = (inr tt, s')
    /\ store_inv s' /\ self s' = self s /\ trace s' = trace s
    /\ ((w <= 0 \/ h <= 0) -> s' = s)
    /\ forall px py,
         0 <= px < width (self s) -> 0 <= py < height (self s) ->
         (in_clamped_rect (width (self s)) (height (self s)) x y w h px py ->
            pixel_bytes s' px py = Some (le16 color))
         /\ (~ in_clamped_rect (width (self s)) (height (self s)) x y w h px py ->
            pixel_bytes s' px py = pixel_bytes s px py).
Proof.
  intros Hinv. pose proof Hinv as (HW & HH & Hfb & buf & Hbuf & Hlen).
  destruct (drv_fill_rect_run s x y w h color buf Hinv Hbuf)
    as (buf' & Hrun & Hl & Hnoop & Hlk).
  eexists. split; [exact Hrun|].
  split; [by apply (store_inv_updated s buf)|].
  split; [done|]. split; [done|].
  split; [intros Hz; rewrite (Hnoop Hz); by apply state_insert_id|].
  intros px py Hx Hy.
  destruct (pixel_offset_coords _ _ px py Hx Hy) as (Hoff & Hm & Hd & Hm' & Hd' & Hlt).
  pose proof (pixel_bytes_recolored s buf buf' _ color px py Hinv Hbuf Hlk Hx Hy) as Hpix.
  cbv beta zeta in Hpix. rewrite Hm, Hd, Hm', Hd' in Hpix.
  destruct Hpix as [Hin Hout]; [lia|].
  unfold in_clamped_rect.
  split; intros Hc; [apply Hin | apply Hout]; lia.
Qed.

Lemma fill_rect_clamped_witness :
  store_inv lcd_240x320
  /\ exists s',
      fill_rect (-5) (-5) 10 10 0xF800 lcd_240x320 = (inr tt, s')
      /\ forall px py, 0 <= px < 240 -> 0 <= py < 320 ->
           ((0 <= px <= 4 /\ 0 <= py <= 4) -> pixel_bytes s' px py = Some (0x00, 0xF8))
           /\ (~ (0 <= px <= 4 /\ 0 <= py <= 4) ->
               pixel_bytes s' px py = pixel_bytes lcd_240x320 px py).
Proof.
  assert (Hinv : store_inv lcd_240x320) by (apply blank_state_inv; lia).
  split; [exact Hinv|].
  destruct (fill_rect_clamped lcd_240x320 (-5) (-5) 10 10 0xF800 Hinv)
    as (s' & Hrun & _ & _ & _ & _ & Hpx).
  exists s'. split; [exact Hrun|].
  intros px py Hx Hy. destruct (Hpx px py Hx Hy) as [Hin Hout].
  split; intros Hc; [apply Hin | apply Hout];
    unfold in_clamped_rect; change (width (self lcd_240x320)) with 240;
    change (height (self lcd_240x320)) with 320; lia.
Defined.

(** ** Single pixels *)

(** Reading two little-endian bytes back gives the low 16 bits. *)
Lemma le16_read color :
  Z.lor (Z.land color 0xFF) (Z.shiftl (Z.land (Z.shiftr color 8) 0xFF) 8)
  = color mod 65536.
Proof.
  change 0xFF with (Z.ones 8). change 65536 with (2 ^ 16).
  apply Z.bits_inj'. intros n Hn.
  rewrite Z.lor_spec, Z.land_spec, Z.testbit_ones_nonneg by lia.
  destruct (Z.lt_ge_cases n 8) as [H8|H8].
  - rewrite Z.shiftl_spec, (Z.testbit_neg_r _ (n - 8)) by lia.
    rewrite Z.mod_pow2_bits_low by lia.
    replace (n <? 8) with true by (symmetry; apply Z.ltb_lt; lia).
    by rewrite andb_true_r, orb_false_r.
  - rewrite Z.shiftl_spec, Z.land_spec, Z.shiftr_spec,
      Z.testbit_ones_nonneg by lia.
    replace (n - 8 + 8) with n by lia.
    replace (n <? 8) with false by (symmetry; apply Z.ltb_ge; lia).
    rewrite andb_false_r, orb_false_l.
    destruct (Z.lt_ge_cases n 16) as [H16|H16].
    + rewrite Z.mod_pow2_bits_low by lia.
      replace (n - 8 <? 8) with true by (symmetry; apply Z.ltb_lt; lia).
      by rewrite andb_true_r.
    + rewrite Z.mod_pow2_bits_high by lia.
      replace (n - 8 <? 8) with false by (symmetry; apply Z.ltb_ge; lia).
      by rewrite andb_false_r.
Qed.

Lemma drv_pixel_run s x y color buf :
  store_inv s -> heap s !! buffer (self s) = Some buf ->
  0 <= x < width (self s) -> 0 <= y < height (self s) ->
  pixel x y color s
  = (inr tt,
     mkState (self s)
       (<[buffer (self s) := FrameBuffer.setpixel (fb (self s)) x y color buf]> (heap s))
       (trace s)).
Proof.
  intros (HW & HH & Hfb & _) Hbuf Hx Hy. unfold pixel.
  erewrite bind_ok by apply gets_run. erewrite bind_ok by apply gets_run.
  replace ((0 <=? x) && (x <? width (self s)) && (0 <=? y) && (y <? height (self s)))
    with true by (symmetry; rewrite !andb_true_iff; lia).
  rewrite (super_run s _ buf) by (by rewrite Hfb).
  unfold FrameBuffer.pixel, FrameBuffer.in_bounds.
  rewrite Hfb. cbn [FrameBuffer.buf FrameBuffer.width FrameBuffer.height].
  replace ((0 <=? x) && (x <? width (self s)) && (0 <=? y) && (y <? height (self s)))
    with true by (symmetry; rewrite !andb_true_iff; lia).
  reflexivity.
Qed.

Lemma drv_pixel_skip s x y color :
  ~ (0 <= x < width (self s) /\ 0 <= y < height (self s)) ->
  pixel x y color s = (inr tt, s).
Proof.
  intros Hout. unfold pixel.
  erewrite bind_ok by apply gets_run. erewrite bind_ok by apply gets_run.
  replace ((0 <=? x) && (x <? width (self s)) && (0 <=? y) && (y <? height (self s)))
    with false; [done|].
  symmetry. apply not_true_is_false. rewrite !andb_true_iff. lia.
Qed.

Lemma read_pixel_bytes s x y lo hi :
  store_inv s -> 0 <= x < width (self s) -> 0 <= y < height (self s) ->
  pixel_bytes s x y = Some (lo, hi) ->
  read_pixel s x y = Some (Z.lor lo (Z.shiftl hi 8)).
Proof.
  intros (HW & HH & Hfb & buf & Hbuf & Hlen) Hx Hy.
  unfold pixel_bytes, read_pixel. rewrite Hfb. cbn [FrameBuffer.buf].
  rewrite Hbuf. unfold FrameBuffer.pixel_get, FrameBuffer.in_bounds.
  cbn [FrameBuffer.width FrameBuffer.height].
  replace ((0 <=? x) && (x <? width (self s)) && (0 <=? y) && (y <? height (self s)))
    with true by (symmetry; rewrite !andb_true_iff; lia).
  unfold FrameBuffer.getpixel, FrameBuffer.offset. cbn [FrameBuffer.stride].
  replace (2 * (x + y * width (self s))) with ((y * width (self s) + x) * 2) by lia.
  destruct (buf !! Z.to_nat _) as [lo'|]; [|done].
  destruct (buf !! S _) as [hi'|]; [|done].
  by intros [= -> ->].
Qed.

(** C2: inside the buffer, [pixel(x, y, color)] stores the 16-bit colour at
    (x,y), where a pixel read finds it again, and touches no other pixel;
    outside the buffer the call returns normally and leaves the whole state,
    the buffer included, as it was. *)
Theorem set_pixel_read_back (s : state) (x y color : Z) :
  store_inv s ->
  (0 <= x < width (self s) /\ 0 <= y < height (self s) ->
   0 <= color < 65536 ->
   exists s',
     pixel x y color s = (inr tt, s')
     /\ read_pixel s' x y = Some color
     /\ pixel_bytes s' x y = Some (le16 color)
     /\ store_inv s' /\ self s' = self s /\ trace s' = trace s
     /\ forall px py,
          0 <= px < width (self s) -> 0 <= py < height (self s) ->
          (px, py) <> (x, y) -> pixel_bytes s' px py = pixel_bytes s px py)
  /\ (~ (0 <= x < width (self s) /\ 0 <= y < height (self s)) ->
      pixel x y color s = (inr tt, s)).
Proof.
  intros Hinv. split; [|apply drv_pixel_skip].
  intros [Hx Hy] Hcol.
  pose proof Hinv as (HW & HH & Hfb & buf & Hbuf & Hlen).
  set (buf' := FrameBuffer.setpixel (fb (self s)) x y color buf).
  assert (Hnn : 0 <= x + y * width (self s)) by nia.
  assert (Hlk : forall i : nat,
             buf' !! i
             = if decide (2 * (x + y * width (self s)) <= Z.of_nat i
                          < 2 * (x + y * width (self s) + 1))
               then Some (color_byte color i) else buf !! i).
  { intros i. subst buf'.
    rewrite setpixel_lookup; rewrite Hfb; cbn [FrameBuffer.stride]; [done|done|nia]. }
  assert (Hinv' : store_inv (mkState (self s) (<[buffer (self s) := buf']> (heap s))
                                     (trace s))).
  { apply (store_inv_updated s buf); [done..|]. apply setpixel_length. }
  assert (Hbytes : pixel_bytes (mkState (self s) (<[buffer (self s) := buf']> (heap s))
                                        (trace s)) x y = Some (le16 color)).
  { destruct (pixel_offset_coords _ _ x y Hx Hy) as (Hoff & _).
    apply (pixel_bytes_recolored s buf buf' _ color x y Hinv Hbuf Hlk Hx Hy); lia. }
  exists (mkState (self s) (<[buffer (self s) := buf']> (heap s)) (trace s)).
  split; [by apply drv_pixel_run|].
  split.
  { rewrite (read_pixel_bytes _ x y _ _ Hinv' Hx Hy Hbytes).
    rewrite le16_read, Z.mod_small; done. }
  do 4 (split; [done|]).
  intros px py Hpx Hpy Hne.
  destruct (pixel_offset_coords _ _ px py Hpx Hpy) as (Hoff & _).
  apply (pixel_bytes_recolored s buf buf' _ color px py Hinv Hbuf Hlk Hpx Hpy); [lia|].
  assert (py * width (self s) + px <> x + y * width (self s)); [|lia].
  intros Heq. apply Hne.
  assert (py = y) by nia. subst. f_equal. lia.
Qed.

Lemma set_pixel_read_back_witness :
  store_inv (blank_state None None 4 3)
  /\ (0 <= 2 < 4 /\ 0 <= 1 < 3) /\ 0 <= 0xF800 < 65536
  /\ exists s',
      pixel 2 1 0xF800 (blank_state None None 4 3) = (inr tt, s')
      /\ read_pixel s' 2 1 = Some 0xF800.
Proof.
  assert (Hinv : store_inv (blank_state None None 4 3))
    by (apply blank_state_inv; lia).
  split; [exact Hinv|]. split; [lia|]. split; [lia|].
  destruct (proj1 (set_pixel_read_back (blank_state None None 4 3) 2 1 0xF800 Hinv)
              ltac:(cbn; lia) ltac:(lia))
    as (s' & Hrun & Hread & _).
  exists s'. split; [exact Hrun | exact Hread].
Defined.

(** ** Refresh *)

Lemma even_chunk_size (CHUNK : Z) :
  0 < CHUNK -> Z.even CHUNK = true ->
  exists c : nat, (0 < c)%nat /\ CHUNK = Z.of_nat (2 * c).
Proof.
  intros Hpos Hev. apply Z.even_spec in Hev as [m ->].
  exists (Z.to_nat m). lia.
Qed.

(** C1: for a frame buffer of even length, the chunks the refresh writes
    to the bus, put end to end and with the two bytes of every pair
    exchanged back, are the buffer again; the data has the length of the
    buffer and pixel [p] of the buffer is pixel [p] on the wire, with only
    its two bytes exchanged.  This holds for every even chunk size, whether
    it divides the buffer length or not; [show] uses 512. *)
Theorem show_byte_swap_round_trip (CHUNK : Z) (s : state) (buf : list Z) :
  0 < CHUNK -> Z.even CHUNK = true ->
  heap s !! buffer (self s) = Some buf ->
  Nat.even (length buf) = true ->
  let chunks := wire_chunks CHUNK buf in
  swap_pairs (concat chunks) = buf
  /\ length (concat chunks) = length buf
  /\ (forall (p : nat) lo hi,
        buf !! (2 * p)%nat = Some lo -> buf !! (2 * p + 1)%nat = Some hi ->
        concat chunks !! (2 * p)%nat = Some hi
        /\ concat chunks !! (2 * p + 1)%nat = Some lo)
  /\ (forall c, cs (self s) = Some c ->
        show_chunked CHUNK s
        = (inr tt,
           add_events s
             (window_events (Some c) (dc (self s)) 0 0
                            (width (self s)) (height (self s))
              ++ [PinCall c 0; PinCall (dc (self s)) 1]
              ++ map SpiWrite chunks
              ++ [PinCall c 1]))).
Proof.
  intros Hpos Hev Hbuf Hlen chunks.
  destruct (even_chunk_size CHUNK Hpos Hev) as (c & Hc & ->).
  apply Nat.even_spec in Hlen as [n2 Hn2].
  assert (Hcat : concat chunks = swap_pairs buf)
    by (by apply (wire_chunks_concat c n2)).
  rewrite Hcat.
  split; [apply swap_pairs_involutive|].
  split; [apply swap_pairs_length|].
  split; [intros p lo hi; apply swap_pairs_lookup|].
  intros p Hcs. rewrite (show_chunked_run c n2 s p buf) by done.
  unfold show_events. rewrite Hcs. reflexivity.
Qed.

Lemma show_byte_swap_round_trip_witness :
  0 < 512 /\ Z.even 512 = true
  /\ heap counting_state !! buffer (self counting_state)
     = Some (map (fun k => Z.of_nat k mod 256) (seq 0 520))
  /\ Nat.even (length (map (fun k => Z.of_nat k mod 256) (seq 0 520))) = true
  /\ swap_pairs (concat (wire_chunks 512 (map (fun k => Z.of_nat k mod 256) (seq 0 520))))
     = map (fun k => Z.of_nat k mod 256) (seq 0 520)
  /\ fst (show counting_state) = inr tt.
Proof.
  assert (H1 : 0 < 512) by lia.
  assert (H2 : Z.even 512 = true) by reflexivity.
  assert (H3 : heap counting_state !! buffer (self counting_state)
               = Some (map (fun k => Z.of_nat k mod 256) (seq 0 520)))
    by (vm_compute; reflexivity).
  assert (H4 : Nat.even (length (map (fun k => Z.of_nat k mod 256) (seq 0 520))) = true)
    by (vm_compute; reflexivity).
  destruct (show_byte_swap_round_trip 512 counting_state _ H1 H2 H3 H4)
    as (Hround & _ & _ & Hshow).
  repeat (split; [done|]).
  unfold show, ST7789V.CHUNK. by rewrite (Hshow (mkPin 1)).
Defined.

(** ** Claims on rotation, windows, reset and backlight *)

(** C4: for every integer [r], [set_rotation(r)] stores [r mod 4] and sends
    the addressing-mode register the code of that rotation: 0 gives 0x00
    with logical size (width, height), 1 gives 0x60 with (height, width),
    2 gives 0xC0 with (width, height), 3 gives 0xA0 with (height, width);
    on a 240 by 320 display these are (240,320) and (320,240).  The physical
    width and height, the buffer reference, the inherited buffer object and
    the heap are untouched. *)
Theorem set_rotation_mapping (s : state) (r : Z) :
  exists s' code lw lh,
    set_rotation r s = (inr tt, s')
    /\ rotation (self s') = Some (r mod 4)
    /\ w (self s') = Some lw /\ h (self s') = Some lh
    /\ trace s' = trace s ++ reg_events (cs (self s)) (dc (self s)) 0x36 [code]
    /\ ((r mod 4 = 0 /\ code = 0x00 /\ lw = width (self s) /\ lh = height (self s))
        \/ (r mod 4 = 1 /\ code = 0x60 /\ lw = height (self s) /\ lh = width (self s))
        \/ (r mod 4 = 2 /\ code = 0xC0 /\ lw = width (self s) /\ lh = height (self s))
        \/ (r mod 4 = 3 /\ code = 0xA0 /\ lw = height (self s) /\ lh = width (self s)))
    /\ width (self s') = width (self s) /\ height (self s') = height (self s)
    /\ buffer (self s') = buffer (self s) /\ fb (self s') = fb (self s)
    /\ heap s' = heap s.
Proof.
  destruct (set_rotation_run s r) as (code & lw & lh & Htable & Hrun).
  eexists _, code, lw, lh. split; [exact Hrun|].
  cbn [self heap trace rotation w h width height buffer fb
       with_rotation with_w with_h].
  repeat split; try done.
Qed.

(** The four rotations of the reference display. *)
Example set_rotation_240x320 :
  let run r := snd (set_rotation r lcd_240x320) in
  (rotation (self (run 0)), w (self (run 0)), h (self (run 0)))
  = (Some 0, Some 240, Some 320)
  /\ (rotation (self (run 1)), w (self (run 1)), h (self (run 1)))
     = (Some 1, Some 320, Some 240)
  /\ (rotation (self (run 2)), w (self (run 2)), h (self (run 2)))
     = (Some 2, Some 240, Some 320)
  /\ (rotation (self (run 3)), w (self (run 3)), h (self (run 3)))
     = (Some 3, Some 320, Some 240)
  /\ (rotation (self (run (-1))), w (self (run (-1))), h (self (run (-1))))
     = (Some 3, Some 320, Some 240)
  /\ map (fun r => trace (run r)) [0; 1; 2; 3]
     = map (fun code => reg_events (Some (mkPin 1)) (mkPin 2) 0x36 [code])
           [0x00; 0x60; 0xC0; 0xA0].
Proof. cbv zeta. repeat split; vm_compute; reflexivity. Qed.

(** C5: [set_window(x, y, w, h)] puts exactly three sequences on the bus,
    in this order: command 0x2A with the big-endian 16-bit pair
    (x, x + w - 1), command 0x2B with the pair (y, y + h - 1), and command
    0x2C with no payload; for [set_window(10, 20, 30, 40)] the payloads are
    [0x00,0x0A,0x00,0x27] and [0x00,0x14,0x00,0x3B]. *)
Theorem set_window_sequences (s : state) (x y w h : Z) :
  let c := cs (self s) in
  let d := dc (self s) in
  set_window x y w h s
  = (inr tt,
     add_events s
       (cmd_events c d 0x2A ++ data_events c d (be16 x ++ be16 (x + w - 1))
        ++ cmd_events c d 0x2B ++ data_events c d (be16 y ++ be16 (y + h - 1))
        ++ cmd_events c d 0x2C))
  /\ set_window 10 20 30 40 s
     = (inr tt,
        add_events s
          (cmd_events c d 0x2A ++ data_events c d [0x00; 0x0A; 0x00; 0x27]
           ++ cmd_events c d 0x2B ++ data_events c d [0x00; 0x14; 0x00; 0x3B]
           ++ cmd_events c d 0x2C)).
Proof.
  cbv zeta. split.
  - rewrite set_window_run. unfold window_events, reg_events.
    by rewrite <- !app_assoc.
  - rewrite set_window_run. unfold window_events, reg_events.
    by rewrite <- !app_assoc.
Qed.

(** C6: without a GPIO expander, [reset()] raises [RuntimeError] and changes
    nothing, while [set_backlight(on)] returns normally and only prints the
    warning; with an expander set up by the constructor, both return
    normally. *)
Theorem reset_and_backlight (s : state) (on : bool) :
  (_use_xl9555 (self s) = false ->
     reset s = (inl RuntimeError, s)
     /\ set_backlight on s = (inr tt, add_events s [Print warning]))
  /\ (forall x, expander_ready s x ->
        (exists s', reset s = (inr tt, s'))
        /\ (exists s', set_backlight on s = (inr tt, s'))).
Proof.
  split.
  - intros Hno. unfold reset, set_backlight.
    erewrite !bind_ok by apply gets_run. rewrite Hno. done.
  - intros x Hrdy. pose proof Hrdy as (_ & _ & _ & _ & Hok).
    destruct (cache_ok_port1 x Hok) as (c1 & Hl & _).
    split.
    + destruct (reset_run s x c1 Hrdy Hl) as (s' & Hrun & _). by exists s'.
    + eexists. by apply (backlight_run s x c1).
Qed.

Lemma reset_and_backlight_witness :
  _use_xl9555 (self (blank_state None None 4 3)) = false
  /\ reset (blank_state None None 4 3)
     = (inl RuntimeError, blank_state None None 4 3)
  /\ fst (set_backlight true (blank_state None None 4 3)) = inr tt
  /\ expander_ready (blank_state None (Some fresh_xl) 4 3) fresh_xl
  /\ (exists s', reset (blank_state None (Some fresh_xl) 4 3) = (inr tt, s')).
Proof.
  assert (H1 : _use_xl9555 (self (blank_state None None 4 3)) = false)
    by reflexivity.
  assert (H2 : expander_ready (blank_state None (Some fresh_xl) 4 3) fresh_xl).
  { repeat split; try reflexivity. exists 0xFF, 0xFF. repeat split; try lia. }
  destruct (reset_and_backlight (blank_state None None 4 3) true) as [Hno _].
  destruct (Hno H1) as [Hreset Hbl].
  destruct (reset_and_backlight (blank_state None (Some fresh_xl) 4 3) true)
    as [_ Hyes].
  destruct (Hyes fresh_xl H2) as [Hr _].
  split; [exact H1|]. split; [exact Hreset|].
  split; [by rewrite Hbl|]. split; [exact H2 | exact Hr].
Defined.

(** C10: for a pin in 0..15, [write_pin(pin, level)] sets bit [pin mod 8] of
    output-cache entry [pin div 8] to the level, keeps every other bit of
    that entry, the other entry and the configuration cache, and writes one
    register, the output register of that port, with the new entry; for any
    other pin it raises [ValueError], changes nothing and writes nothing. *)
Theorem write_pin_frame (pin : Z) (level : bool) (x : XL9555.t) (tr : list event) :
  (XL9555.cache_ok x -> 0 <= pin <= 15 ->
   exists x' c c',
     XL9555.write_pin pin level (x, tr)
     = (inr tt,
        (x', tr ++ [I2cWriteto (XL9555.address x)
                               [XL9555.REG_OUTPUT_PORT0 + pin / 8; c']]))
     /\ XL9555._output_cache x !! Z.to_nat (pin / 8) = Some c
     /\ XL9555._output_cache x' !! Z.to_nat (pin / 8) = Some c'
     /\ (forall k, Z.testbit c' k = if k =? pin mod 8 then level else Z.testbit c k)
     /\ (forall j, j <> Z.to_nat (pin / 8) ->
           XL9555._output_cache x' !! j = XL9555._output_cache x !! j)
     /\ XL9555._config_cache x' = XL9555._config_cache x
     /\ XL9555.address x' = XL9555.address x
     /\ XL9555.cache_ok x')
  /\ (~ 0 <= pin <= 15 ->
      XL9555.write_pin pin level (x, tr) = (inl ValueError, (x, tr))).
Proof.
  split.
  - intros (c0 & c1 & Hc & H0 & H1) Hp.
    destruct x as [a oc cfg]. cbn [XL9555._output_cache] in Hc. subst oc.
    destruct (pin_port_bit pin Hp) as [Hport Hbit].
    rewrite xl_write_pin_run by done.
    pose proof (with_bit_byte c0 (pin mod 8) level H0 Hbit) as Hb0.
    pose proof (with_bit_byte c1 (pin mod 8) level H1 Hbit) as Hb1.
    destruct Hport as [E|E]; rewrite E; cbn [Z.eqb].
    + eexists _, c0, _. split; [reflexivity|].
      cbn [XL9555._output_cache XL9555._config_cache XL9555.address].
      repeat split; try done.
      * intros k. apply with_bit_spec. lia.
      * intros [|j] Hj; [done|reflexivity].
      * exists (with_bit c0 (pin mod 8) level), c1. repeat split; (done || lia).
    + eexists _, c1, _. split; [reflexivity|].
      cbn [XL9555._output_cache XL9555._config_cache XL9555.address].
      repeat split; try done.
      * intros k. apply with_bit_spec. lia.
      * intros [|[|j]] Hj; [reflexivity|done|reflexivity].
      * exists c0, (with_bit c1 (pin mod 8) level). repeat split; (done || lia).
  - intros Hout. unfold XL9555.write_pin.
    replace ((0 <=? pin) && (pin <=? 15)) with false; [done|].
    symmetry. apply not_true_is_false. rewrite andb_true_iff. lia.
Qed.

Lemma write_pin_frame_witness :
  XL9555.cache_ok fresh_xl /\ 0 <= 10 <= 15
  /\ (exists x' c',
        XL9555.write_pin 10 false (fresh_xl, [])
        = (inr tt, (x', [I2cWriteto 0x20 [0x03; c']]))
        /\ Z.testbit c' 2 = false)
  /\ ~ 0 <= 16 <= 15
  /\ XL9555.write_pin 16 true (fresh_xl, []) = (inl ValueError, (fresh_xl, [])).
Proof.
  assert (H1 : XL9555.cache_ok fresh_xl).
  { exists 0xFF, 0xFF. repeat split; try lia. }
  assert (H2 : 0 <= 10 <= 15) by lia.
  assert (H3 : ~ 0 <= 16 <= 15) by lia.
  destruct (write_pin_frame 10 false fresh_xl []) as [Hin _].
  destruct (Hin H1 H2) as (x' & c & c' & Hrun).
  destruct (write_pin_frame 16 true fresh_xl []) as [_ Hout].
  split; [exact H1|]. split; [exact H2|].
  split; [|split; [exact H3 | exact (Hout H3)]].
  destruct Hrun as (Hrun & _ & _ & Hbits & _).
  exists x', c'. split; [exact Hrun | exact (Hbits 2)].
Defined.

(** C8: with no chip-select line, a command write and a data write complete
    (chip-select is simply skipped), but the refresh calls the missing
    chip-select unconditionally: [show()] raises [TypeError] after the
    window has been programmed and before any pixel data is sent, and so
    does the constructor, which ends with a refresh. *)
Theorem show_fails_without_chip_select :
  let s := blank_state None None 4 3 in
  _write_cmd 0x2C s
  = (inr tt, add_events s [PinCall (mkPin 2) 0; SpiWrite [0x2C]])
  /\ _write_data [0; 0] s
     = (inr tt, add_events s [PinCall (mkPin 2) 1; SpiWrite [0; 0]])
  /\ show s
     = (inl TypeError,
        add_events s (window_events None (mkPin 2) 0 0 4 3))
  /\ fst (__init__ (mkPin 2) None 4 3 0 None ∅ []) = inl TypeError.
Proof. cbv zeta. repeat split; vm_compute; reflexivity. Qed.

(** ** Initialization *)

Lemma repeat_lookup {A} (x : A) n i : (i < n)%nat -> repeat x n !! i = Some x.
Proof.
  revert i. induction n as [|n IH]; intros [|i] Hi; cbn; try lia; [done|].
  apply IH. lia.
Qed.

(** [fill(color)] rewrites every byte of the buffer. *)
Lemma fill_run s col buf :
  store_inv s -> heap s !! buffer (self s) = Some buf ->
  exists buf',
    fill col s
    = (inr tt, mkState (self s) (<[buffer (self s) := buf']> (heap s)) (trace s))
    /\ length buf' = length buf
    /\ forall i : nat, (i < length buf)%nat -> buf' !! i = Some (color_byte col i).
Proof.
  intros (HW & HH & Hfb & buf0 & Hb0 & Hlen) Hbuf.
  rewrite Hbuf in Hb0. injection Hb0 as <-.
  unfold fill. rewrite (super_run s _ buf) by (by rewrite Hfb).
  rewrite Hfb. cbn [FrameBuffer.buf]. unfold FrameBuffer.fill.
  cbn [FrameBuffer.width FrameBuffer.height].
  eexists. split; [reflexivity|].
  match goal with
  | |- context [FrameBuffer.rgb565_fill_rect ?f 0 0 ?a ?b col buf] =>
      pose proof (fun i => rgb565_fill_rect_lookup f 0 0 a b col buf i) as Hlk
  end.
  cbn [FrameBuffer.stride] in Hlk.
  split; [apply (Hlk 0%nat); lia|].
  intros i Hi. rewrite (proj2 (Hlk i ltac:(lia) ltac:(lia) ltac:(lia) ltac:(lia)
                                 ltac:(lia) ltac:(lia) ltac:(lia))).
  destruct (byte_pixel_bounds (width (self s)) (height (self s)) (Z.of_nat i)
              HW ltac:(lia)) as (Hm & Hq & Hin).
  rewrite decide_True; [done|]. lia.
Qed.

Lemma black_bytes buf' n :
  length buf' = n ->
  (forall i : nat, (i < n)%nat -> buf' !! i = Some (color_byte 0 i)) ->
  buf' = repeat 0 n.
Proof.
  intros Hl Hlk. apply list_eq. intros i.
  destruct (Nat.lt_ge_cases i n) as [Hi|Hi].
  - rewrite Hlk, repeat_lookup by done. unfold color_byte.
    by destruct (Z.even (Z.of_nat i)).
  - rewrite !lookup_ge_None_2; [done| rewrite repeat_length; lia | lia].
Qed.

(** The end of the initialization: black fill, then refresh. *)
Lemma init_finish_run s p :
  store_inv s -> cs (self s) = Some p ->
  exists s',
    (fill COLOR_BLACK ;; show) s = (inr tt, s')
    /\ self s' = self s
    /\ heap s'
       = <[buffer (self s) := repeat 0 (Z.to_nat (width (self s) * height (self s) * 2))]>
           (heap s)
    /\ trace s'
       = trace s
         ++ show_events (cs (self s)) (dc (self s)) (width (self s)) (height (self s))
              512 (repeat 0 (Z.to_nat (width (self s) * height (self s) * 2))).
Proof.
  intros Hinv Hcs. pose proof Hinv as (HW & HH & Hfb & buf & Hbuf & Hlen).
  destruct (fill_run s COLOR_BLACK buf Hinv Hbuf) as (buf' & Hrun & Hl & Hlk).
  assert (Hblack : buf' = repeat 0 (Z.to_nat (width (self s) * height (self s) * 2))).
  { apply black_bytes; [lia|]. intros i Hi. apply Hlk. lia. }
  erewrite bind_ok by exact Hrun.
  unfold show, CHUNK.
  rewrite (show_chunked_run 256 (Z.to_nat (width (self s) * height (self s))) _ p buf');
    [| lia | done | cbn [self heap]; apply lookup_insert_eq
     | rewrite Hblack, repeat_length; nia ].
  eexists. split; [reflexivity|].
  cbn [self heap trace add_events]. by rewrite Hblack.
Qed.

Lemma madctl_code_table r code lw lh (W H : Z) :
  (r mod 4 = 0 /\ code = 0x00 /\ lw = W /\ lh = H)
  \/ (r mod 4 = 1 /\ code = 0x60 /\ lw = H /\ lh = W)
  \/ (r mod 4 = 2 /\ code = 0xC0 /\ lw = W /\ lh = H)
  \/ (r mod 4 = 3 /\ code = 0xA0 /\ lw = H /\ lh = W) ->
  code = madctl_code (r mod 4).
Proof. intros [(-> & -> & _)|[(-> & -> & _)|[(-> & -> & _)|(-> & -> & _)]]]; done. Qed.

(** The middle of the initialization, from sleep-out to display-on,
    followed by any continuation [k]. *)
Lemma init_core_run s r (k : M state unit) :
  exists s1,
    (_write_cmd ST7789_SLPOUT ;; sleep_ms 120 ;;
     _write_reg ST7789_COLMOD [0x05] ;;
     _write_cmd ST7789_INVON ;; sleep_ms 10 ;;
     set_rotation r ;;
     _write_cmd ST7789_DISPON ;; sleep_ms 100 ;; k) s
    = k s1
    /\ same_wiring (self s) (self s1)
    /\ _xl9555 (self s1) = _xl9555 (self s)
    /\ rotation (self s1) = Some (r mod 4)
    /\ heap s1 = heap s
    /\ trace s1
       = trace s
         ++ cmd_events (cs (self s)) (dc (self s)) 0x11 ++ [SleepMs 120]
         ++ reg_events (cs (self s)) (dc (self s)) 0x3A [0x05]
         ++ cmd_events (cs (self s)) (dc (self s)) 0x21 ++ [SleepMs 10]
         ++ reg_events (cs (self s)) (dc (self s)) 0x36 [madctl_code (r mod 4)]
         ++ cmd_events (cs (self s)) (dc (self s)) 0x29 ++ [SleepMs 100].
Proof.
  erewrite bind_ok by (apply write_cmd_run; unfold ST7789_SLPOUT; lia).
  step_with sleep_ms_run.
  erewrite bind_ok
    by (apply write_reg_run; [unfold ST7789_COLMOD; lia | reflexivity]).
  rewrite ?self_add_events, ?add_events_app.
  erewrite bind_ok by (apply write_cmd_run; unfold ST7789_INVON; lia).
  rewrite ?self_add_events, ?add_events_app.
  step_with sleep_ms_run.
  match goal with
  | |- context [bind (set_rotation r) _ ?s0] =>
      destruct (set_rotation_run s0 r) as (code & lw & lh & Htable & Hrun)
  end.
  apply madctl_code_table in Htable. subst code.
  erewrite bind_ok by exact Hrun.
  erewrite bind_ok by (apply write_cmd_run; unfold ST7789_DISPON; lia).
  erewrite bind_ok by apply sleep_ms_run.
  eexists. split; [reflexivity|].
  cbn [self heap trace add_events with_rotation with_w with_h width height dc cs
       buffer fb _use_xl9555 _pin_rst _pin_bl _xl9555 rotation].
  unfold same_wiring, ST7789_MADCTL.
  cbn [width height dc cs buffer fb _use_xl9555 _pin_rst _pin_bl].
  repeat split; try done.
  by rewrite <- !app_assoc.
Qed.

Lemma same_wiring_refl d : same_wiring d d.
Proof. by repeat split. Qed.

Lemma same_wiring_trans d1 d2 d3 :
  same_wiring d1 d2 -> same_wiring d2 d3 -> same_wiring d1 d3.
Proof.
  intros (A1 & A2 & A3 & A4 & A5 & A6 & A7 & A8 & A9)
         (B1 & B2 & B3 & B4 & B5 & B6 & B7 & B8 & B9).
  repeat split; congruence.
Qed.

Lemma store_inv_same_wiring s s1 :
  store_inv s -> same_wiring (self s) (self s1) -> heap s1 = heap s ->
  store_inv s1.
Proof.
  intros (HW & HH & Hfb & buf & Hbuf & Hlen)
         (Ew & Eh & _ & _ & Eb & Ef & _) Ehp.
  unfold store_inv. cbv zeta. rewrite Ew, Eh, Eb, Ef, Ehp.
  repeat split; try done. by exists buf.
Qed.

Lemma reset_pulse_facts s x c1 t1 t2 :
  expander_ready s x -> XL9555._output_cache x !! 1%nat = Some c1 ->
  exists s1 x1,
    (xl_write_pin _pin_rst false ;; sleep_ms t1 ;;
     xl_write_pin _pin_rst true ;; sleep_ms t2) s = (inr tt, s1)
    /\ same_wiring (self s) (self s1)
    /\ expander_ready s1 x1
    /\ XL9555.address x1 = XL9555.address x
    /\ XL9555._output_cache x1 !! 1%nat = Some (with_bit (with_bit c1 2 false) 2 true)
    /\ heap s1 = heap s
    /\ trace s1
       = trace s ++ [I2cWriteto (XL9555.address x) [3; with_bit c1 2 false];
                     SleepMs t1;
                     I2cWriteto (XL9555.address x)
                                [3; with_bit (with_bit c1 2 false) 2 true];
                     SleepMs t2].
Proof.
  intros Hrdy Hl. rewrite (reset_pulse_run s x c1) by done.
  pose proof Hrdy as (Hu & Hx & Hr & Hb & (c0 & c1' & Hc & H0 & H1)).
  rewrite Hc in Hl. injection Hl as ->.
  assert (Hlo : 0 <= with_bit c1 2 false < 256) by (apply with_bit_byte; lia).
  assert (Hhi : 0 <= with_bit (with_bit c1 2 false) 2 true < 256)
    by (apply with_bit_byte; lia).
  eexists _, _. split; [reflexivity|].
  cbn [self heap trace add_events port1_written with_xl XL9555.address
       XL9555._output_cache XL9555._config_cache].
  unfold same_wiring, expander_ready.
  cbn [width height dc cs buffer fb _use_xl9555 _pin_rst _pin_bl _xl9555].
  rewrite Hc. cbn [insert list_insert lookup list_lookup].
  repeat split; try done.
  - exists c0, (with_bit (with_bit c1 2 false) 2 true). repeat split; (done || lia).
  - by rewrite <- !app_assoc.
Qed.

Lemma backlight_facts s x c1 on :
  expander_ready s x -> XL9555._output_cache x !! 1%nat = Some c1 ->
  exists s1,
    set_backlight on s = (inr tt, s1)
    /\ same_wiring (self s) (self s1)
    /\ rotation (self s1) = rotation (self s)
    /\ heap s1 = heap s
    /\ trace s1 = trace s ++ [I2cWriteto (XL9555.address x) [3; with_bit c1 3 on]].
Proof.
  intros Hrdy Hl. rewrite (backlight_run s x c1) by done.
  eexists. split; [reflexivity|]. by repeat split.
Qed.

Lemma backlight_warning_facts s on :
  _use_xl9555 (self s) = false ->
  set_backlight on s = (inr tt, add_events s [Print warning]).
Proof.
  intros Hno. unfold set_backlight.
  erewrite bind_ok by apply gets_run. by rewrite Hno.
Qed.

(** Rewrite the wiring of later states into that of the first one. *)
Ltac unwire :=
  repeat match goal with
         | H : same_wiring _ _ |- _ => destruct H as (? & ? & ? & ? & ? & ? & ? & ? & ?)
         end;
  repeat match goal with
         | E : _ (self _) = _ (self _) |- _ => rewrite E; clear E
         end.

Lemma expander_ready_same_wiring s s1 x :
  expander_ready s x -> same_wiring (self s) (self s1) ->
  _xl9555 (self s1) = _xl9555 (self s) -> expander_ready s1 x.
Proof.
  intros (Hu & Hx & Hr & Hb & Hok) (_ & _ & _ & _ & _ & _ & Eu & Er & Eb) Ex.
  unfold expander_ready. rewrite Eu, Er, Eb, Ex. done.
Qed.

(** The whole initialization, with and without an expander. *)
Lemma init_display_run (s : state) (r : Z) (c : Pin) :
  store_inv s -> cs (self s) = Some c ->
  let W := width (self s) in
  let H := height (self s) in
  (forall x c1,
     expander_ready s x -> XL9555._output_cache x !! 1%nat = Some c1 ->
     exists s',
       init_display r s = (inr tt, s')
       /\ same_wiring (self s) (self s')
       /\ rotation (self s') = Some (r mod 4)
       /\ heap s' = <[buffer (self s) := repeat 0 (Z.to_nat (W * H * 2))]> (heap s)
       /\ trace s'
          = trace s
            ++ init_events (Some c) (dc (self s))
                 (reset_pulse_events (XL9555.address x) c1)
                 (backlight_on_events (XL9555.address x)
                    (with_bit (with_bit c1 2 false) 2 true))
                 (r mod 4) W H)
  /\ (_use_xl9555 (self s) = false ->
      exists s',
        init_display r s = (inr tt, s')
        /\ same_wiring (self s) (self s')
        /\ rotation (self s') = Some (r mod 4)
        /\ heap s' = <[buffer (self s) := repeat 0 (Z.to_nat (W * H * 2))]> (heap s)
        /\ trace s'
           = trace s
             ++ init_events (Some c) (dc (self s)) [] [Print warning] (r mod 4) W H).
Proof.
  intros Hinv Hcs W H. split.
  - intros x c1 Hrdy Hl. pose proof Hrdy as (Hu & _).
    unfold init_display. erewrite bind_ok by apply gets_run. rewrite Hu.
    cbn [when].
    destruct (reset_pulse_facts s x c1 10 120 Hrdy Hl)
      as (s1 & x1 & Hrun1 & Hw1 & Hrdy1 & Ha1 & Hl1 & Hh1 & Ht1).
    erewrite bind_ok by exact Hrun1.
    destruct (init_core_run s1 r (set_backlight true ;; fill COLOR_BLACK ;; show))
      as (s2 & Hrun2 & Hw2 & Hx2 & Hr2 & Hh2 & Ht2).
    rewrite Hrun2.
    pose proof (expander_ready_same_wiring s1 s2 x1 Hrdy1 Hw2 Hx2) as Hrdy2.
    destruct (backlight_facts s2 x1 _ true Hrdy2 Hl1)
      as (s3 & Hrun3 & Hw3 & Hr3 & Hh3 & Ht3).
    erewrite bind_ok by exact Hrun3.
    assert (Hw : same_wiring (self s) (self s3)) by eauto using same_wiring_trans.
    assert (Hinv3 : store_inv s3)
      by (apply (store_inv_same_wiring s); [done|done|congruence]).
    assert (Hcs3 : cs (self s3) = Some c) by (clear Hw; unwire; done).
    destruct (init_finish_run s3 c Hinv3 Hcs3) as (s4 & Hrun4 & Hs4 & Hz4 & Ht4).
    rewrite Hrun4. exists s4. split; [done|].
    rewrite Hs4. split; [done|].
    rewrite Hz4, Ht4, Ht3, Ht2, Ht1, Hr3, Hr2, Ha1, Hh3, Hh2, Hh1.
    clear Hw. unwire. rewrite Hcs.
    unfold init_events, reset_pulse_events, backlight_on_events, W, H.
    by rewrite <- !app_assoc.
  - intros Hno.
    unfold init_display. erewrite bind_ok by apply gets_run. rewrite Hno.
    cbn [when]. erewrite bind_ok by reflexivity.
    destruct (init_core_run s r (set_backlight true ;; fill COLOR_BLACK ;; show))
      as (s2 & Hrun2 & Hw2 & Hx2 & Hr2 & Hh2 & Ht2).
    rewrite Hrun2.
    assert (Hno2 : _use_xl9555 (self s2) = false)
      by (pose proof Hw2 as Hw; unwire; done).
    erewrite bind_ok by (by apply backlight_warning_facts).
    assert (Hinv3 : store_inv (add_events s2 [Print warning]))
      by (by apply (store_inv_same_wiring s)).
    assert (Hcs3 : cs (self (add_events s2 [Print warning])) = Some c)
      by (cbn [self add_events]; pose proof Hw2 as Hw; unwire; done).
    destruct (init_finish_run _ c Hinv3 Hcs3) as (s4 & Hrun4 & Hs4 & Hz4 & Ht4).
    rewrite Hrun4. exists s4. split; [done|].
    rewrite Hs4. cbn [self add_events]. split; [done|].
    rewrite Hz4, Ht4. cbn [self heap trace add_events]. rewrite Ht2, Hr2, Hh2.
    unwire. rewrite Hcs.
    unfold init_events, W, H. cbn [app].
    by rewrite <- !app_assoc.
Qed.

(** C7, as amended: with a chip-select line, [init_display] emits one fixed
    sequence and never branches on a failure.  With an expander it is the
    hardware reset (low, 10 ms, high, 120 ms), sleep-out and 120 ms, colour
    mode 0x05, inversion on and 10 ms, the addressing mode of the rotation,
    display on and 100 ms, backlight on, a black fill of the whole buffer
    and a refresh.  Without an expander the reset step is absent and the
    backlight step is the printed warning; everything else is the same. *)
Theorem init_display_sequence (s : state) (r : Z) (c : Pin) :
  store_inv s -> cs (self s) = Some c ->
  let W := width (self s) in
  let H := height (self s) in
  (forall x c1,
     expander_ready s x -> XL9555._output_cache x !! 1%nat = Some c1 ->
     exists s',
       init_display r s = (inr tt, s')
       /\ trace s'
          = trace s
            ++ init_events (Some c) (dc (self s))
                 (reset_pulse_events (XL9555.address x) c1)
                 (backlight_on_events (XL9555.address x)
                    (with_bit (with_bit c1 2 false) 2 true))
                 (r mod 4) W H
       /\ heap s' !! buffer (self s') = Some (repeat 0 (Z.to_nat (W * H * 2)))
       /\ rotation (self s') = Some (r mod 4))
  /\ (_use_xl9555 (self s) = false ->
      exists s',
        init_display r s = (inr tt, s')
        /\ trace s'
           = trace s
             ++ init_events (Some c) (dc (self s)) [] [Print warning] (r mod 4) W H
        /\ heap s' !! buffer (self s') = Some (repeat 0 (Z.to_nat (W * H * 2)))
        /\ rotation (self s') = Some (r mod 4)).
Proof.
  intros Hinv Hcs W H.
  destruct (init_display_run s r c Hinv Hcs) as [Hwith Hwithout].
  split.
  - intros x c1 Hrdy Hl.
    destruct (Hwith x c1 Hrdy Hl) as (s' & Hrun & Hw & Hr & Hh & Ht).
    exists s'. repeat split; try done.
    destruct Hw as (_ & _ & _ & _ & -> & _). rewrite Hh. apply lookup_insert_eq.
  - intros Hno.
    destruct (Hwithout Hno) as (s' & Hrun & Hw & Hr & Hh & Ht).
    exists s'. repeat split; try done.
    destruct Hw as (_ & _ & _ & _ & -> & _). rewrite Hh. apply lookup_insert_eq.
Qed.

Lemma init_display_sequence_witness :
  let s := blank_state (Some (mkPin 1)) (Some fresh_xl) 4 3 in
  store_inv s /\ cs (self s) = Some (mkPin 1)
  /\ expander_ready s fresh_xl
  /\ XL9555._output_cache fresh_xl !! 1%nat = Some 0xFF
  /\ exists s',
      init_display 1 s = (inr tt, s')
      /\ trace s'
         = init_events (Some (mkPin 1)) (mkPin 2)
             (reset_pulse_events 0x20 0xFF) (backlight_on_events 0x20 0xFF) 1 4 3
      /\ rotation (self s') = Some 1.
Proof.
  cbv zeta.
  assert (H1 : store_inv (blank_state (Some (mkPin 1)) (Some fresh_xl) 4 3))
    by (apply blank_state_inv; lia).
  assert (H2 : cs (self (blank_state (Some (mkPin 1)) (Some fresh_xl) 4 3))
               = Some (mkPin 1)) by reflexivity.
  assert (H3 : expander_ready (blank_state (Some (mkPin 1)) (Some fresh_xl) 4 3)
                              fresh_xl).
  { repeat split; try reflexivity. exists 0xFF, 0xFF. repeat split; lia. }
  assert (H4 : XL9555._output_cache fresh_xl !! 1%nat = Some 0xFF) by reflexivity.
  destruct (init_display_sequence _ 1 (mkPin 1) H1 H2) as [Hwith _].
  destruct (Hwith fresh_xl 0xFF H3 H4) as (s' & Hrun & Ht & _ & Hr).
  repeat (split; [done|]).
  exists s'. split; [exact Hrun|]. split; [exact Ht | exact Hr].
Defined.

(** C7 as stated does not hold: a driver without an expander initializes
    without any hardware reset (its first event is the chip-select of the
    sleep-out command) and without switching the backlight on. *)
Lemma init_without_expander_skips_reset :
  ~ performs_full_init (blank_state (Some (mkPin 1)) None 4 3) 0.
Proof.
  intros (s' & a & c1 & Hrun & Htr).
  vm_compute in Hrun. injection Hrun as <-.
  vm_compute in Htr. discriminate Htr.
Qed.

(** ** The pixel store over the life of the driver *)

Lemma store_inv_even s buf :
  store_inv s -> heap s !! buffer (self s) = Some buf ->
  length buf = (2 * Z.to_nat (width (self s) * height (self s)))%nat.
Proof.
  intros (HW & HH & _ & buf0 & Hb0 & Hlen) Hbuf.
  rewrite Hbuf in Hb0. injection Hb0 as <-. nia.
Qed.

(** Every operation keeps the invariant, the wiring (dimensions and buffer
    reference included) and the set of allocated byte arrays, whether it
    returns or raises. *)
Lemma run_op_preserves op s :
  store_inv s ->
  store_inv (snd (run_op op s))
  /\ same_wiring (self s) (self (snd (run_op op s)))
  /\ dom (heap (snd (run_op op s))) = dom (heap s).
Proof.
  intros Hinv. pose proof Hinv as (HW & HH & Hfb & buf & Hbuf & Hlen).
  assert (Hupd : forall buf', length buf' = length buf ->
            store_inv (mkState (self s) (<[buffer (self s) := buf']> (heap s)) (trace s))
            /\ same_wiring (self s) (self s)
            /\ dom (<[buffer (self s) := buf']> (heap s)) = dom (heap s)).
  { intros buf' Hl. split; [by apply (store_inv_updated s buf)|].
    split; [apply same_wiring_refl|]. by apply dom_insert_lookup_L. }
  assert (Hev : forall evs,
            store_inv (add_events s evs)
            /\ same_wiring (self s) (self (add_events s evs))
            /\ dom (heap (add_events s evs)) = dom (heap s)).
  { intros evs. split; [by apply (store_inv_same_wiring s); try apply same_wiring_refl|].
    split; [apply same_wiring_refl|done]. }
  destruct op as [x y color|x y w h color|color|r|]; cbn [run_op].
  - destruct (decide (0 <= x < width (self s) /\ 0 <= y < height (self s)))
      as [[Hx Hy]|Hout].
    + rewrite (drv_pixel_run s x y color buf) by done. cbn [snd self heap].
      apply Hupd, setpixel_length.
    + rewrite drv_pixel_skip by done. cbn [snd].
      split; [done|]. split; [apply same_wiring_refl|done].
  - destruct (drv_fill_rect_run s x y w h color buf Hinv Hbuf)
      as (buf' & -> & Hl & _). cbn [snd self heap]. by apply Hupd.
  - destruct (fill_run s color buf Hinv Hbuf) as (buf' & -> & Hl & _).
    cbn [snd self heap]. by apply Hupd.
  - destruct (set_rotation_run s r) as (code & lw & lh & _ & ->).
    cbn [snd self heap].
    assert (Hw : same_wiring (self s)
                   (with_h (with_w (with_rotation (self s) (r mod 4)) lw) lh))
      by (by repeat split).
    split; [by apply (store_inv_same_wiring s)|]. by split.
  - unfold show, CHUNK. destruct (cs (self s)) as [p|] eqn:Hcs.
    + change 512 with (Z.of_nat (2 * 256)).
      rewrite (show_chunked_run 256 _ s p buf ltac:(lia) Hcs Hbuf
                 (store_inv_even s buf Hinv Hbuf)).
      cbn [snd]. apply Hev.
    + rewrite (show_chunked_no_cs _ s buf Hcs Hbuf). cbn [snd]. apply Hev.
Qed.

Lemma run_ops_preserves ops : forall s,
  store_inv s ->
  store_inv (run_ops ops s)
  /\ same_wiring (self s) (self (run_ops ops s))
  /\ dom (heap (run_ops ops s)) = dom (heap s).
Proof.
  induction ops as [|op ops IH]; intros s Hinv; cbn [run_ops].
  - split; [done|]. split; [apply same_wiring_refl|done].
  - destruct (run_op_preserves op s Hinv) as (Hinv1 & Hw1 & Hd1).
    destruct (IH _ Hinv1) as (Hinv2 & Hw2 & Hd2).
    split; [done|]. split; [eauto using same_wiring_trans | congruence].
Qed.

(** The constructor, given a chip-select line. *)
Lemma init_run dcp c W H r xl hp tr :
  0 < W -> 0 < H ->
  match xl with Some x => XL9555.cache_ok x | None => True end ->
  exists d tr',
    __init__ dcp (Some c) W H r xl hp tr
    = (inr d, (<[buffer d := repeat 0 (Z.to_nat (W * H * 2))]> hp, tr'))
    /\ store_inv (mkState d (<[buffer d := repeat 0 (Z.to_nat (W * H * 2))]> hp) tr')
    /\ width d = W /\ height d = H
    /\ hp !! buffer d = None.
Proof.
  intros HW HH Hxl. unfold __init__, bytearray.
  replace (W * H * 2 <? 0) with false by (symmetry; apply Z.ltb_ge; nia).
  set (l := fresh (dom hp)).
  set (zeros := repeat 0 (Z.to_nat (W * H * 2))).
  match goal with
  | |- context [init_display r ?s0] => set (s0' := s0)
  end.
  assert (Hfresh : hp !! l = None) by (apply not_elem_of_dom, is_fresh).
  assert (Hinv0 : store_inv s0').
  { repeat split; try done. exists zeros. subst s0'. cbn [self heap buffer].
    rewrite lookup_insert_eq. split; [done|]. subst zeros.
    rewrite repeat_length. cbn [width height]. nia. }
  assert (Hcs0 : cs (self s0') = Some c) by reflexivity.
  destruct (init_display_run s0' r c Hinv0 Hcs0) as [Hwith Hwithout].
  assert (Hrun : exists s', init_display r s0' = (inr tt, s')
                   /\ same_wiring (self s0') (self s')
                   /\ heap s' = <[l := zeros]> hp).
  { destruct xl as [x|].
    - destruct (cache_ok_port1 x Hxl) as (c1 & Hl & _).
      destruct (Hwith x c1) as (s' & Hr & Hw & _ & Hh & _); [by repeat split|done|].
      exists s'. split; [done|]. split; [done|]. rewrite Hh.
      apply insert_insert_eq.
    - destruct Hwithout as (s' & Hr & Hw & _ & Hh & _); [done|].
      exists s'. split; [done|]. split; [done|]. rewrite Hh.
      apply insert_insert_eq. }
  destruct Hrun as (s' & -> & Hw & Hh).
  pose proof Hw as (Ew & Eh & _ & _ & Eb & _). cbn [self buffer width height] in Ew, Eh, Eb.
  exists (self s'), (trace s'). rewrite Hh, Eb.
  split; [done|].
  split.
  { change (buffer (self s0')) with l. rewrite <- Hh.
    replace (mkState (self s') (heap s') (trace s')) with s' by (by destruct s').
    by apply (store_inv_same_wiring s0'). }
  by rewrite Ew, Eh.
Qed.

(** C9: the pixel store invariant.  The constructor allocates one new byte
    array of [width * height * 2] zero bytes and establishes the invariant;
    after any sequence of pixel writes, rectangle fills, fills, rotations
    and refreshes the driver still refers to that same array, no array has
    been allocated, and the array still has [width * height * 2] bytes; and
    the 16-bit colour of pixel (x,y) is stored at byte offset
    [(y * width + x) * 2], low byte first. *)
Theorem pixel_store_invariant :
  (forall dcp c W H r xl hp tr,
     0 < W -> 0 < H ->
     match xl with Some x => XL9555.cache_ok x | None => True end ->
     exists d hp' tr',
       __init__ dcp (Some c) W H r xl hp tr = (inr d, (hp', tr'))
       /\ store_inv (mkState d hp' tr')
       /\ width d = W /\ height d = H
       /\ hp !! buffer d = None
       /\ hp' = <[buffer d := repeat 0 (Z.to_nat (W * H * 2))]> hp)
  /\ (forall ops s,
        store_inv s ->
        store_inv (run_ops ops s)
        /\ buffer (self (run_ops ops s)) = buffer (self s)
        /\ width (self (run_ops ops s)) = width (self s)
        /\ height (self (run_ops ops s)) = height (self s)
        /\ dom (heap (run_ops ops s)) = dom (heap s))
  /\ (forall s x y color,
        store_inv s ->
        0 <= x < width (self s) -> 0 <= y < height (self s) ->
        0 <= color < 65536 ->
        exists s' lo hi,
          pixel x y color s = (inr tt, s')
          /\ pixel_bytes s' x y = Some (lo, hi)
          /\ 0 <= lo < 256 /\ 0 <= hi < 256 /\ lo + 256 * hi = color).
Proof.
  split; [|split].
  - intros dcp c W H r xl hp tr HW HH Hxl.
    destruct (init_run dcp c W H r xl hp tr HW HH Hxl)
      as (d & tr' & Hrun & Hinv & Ew & Eh & Hfresh).
    exists d, (<[buffer d := repeat 0 (Z.to_nat (W * H * 2))]> hp), tr'.
    split; [exact Hrun|]. split; [exact Hinv|]. split; [exact Ew|].
    split; [exact Eh|]. split; [exact Hfresh | reflexivity].
  - intros ops s Hinv.
    destruct (run_ops_preserves ops s Hinv)
      as (Hinv' & (Ew & Eh & _ & _ & Eb & _) & Hdom).
    split; [exact Hinv'|]. split; [exact Eb|]. split; [exact Ew|].
    split; [exact Eh | exact Hdom].
  - intros s x y color Hinv Hx Hy Hcol.
    pose proof Hinv as (HW & HH & Hfb & buf & Hbuf & Hlen).
    assert (Hnn : 0 <= x + y * width (self s)) by nia.
    eexists _, (color mod 256), (color / 256).
    split; [by apply (drv_pixel_run s x y color buf)|].
    split.
    + destruct (pixel_offset_coords _ _ x y Hx Hy) as (Hoff & _).
      assert (Hle : le16 color = (color mod 256, color / 256)).
      { unfold le16. rewrite !land_255, Z.shiftr_div_pow2 by lia.
        change (2 ^ 8) with 256. f_equal. apply Z.mod_small.
        split; [apply Z.div_pos; lia | apply Z.div_lt_upper_bound; lia]. }
      rewrite <- Hle.
      eapply (pixel_bytes_recolored s buf _
                (fun i => 2 * (x + y * width (self s)) <= Z.of_nat i
                          < 2 * (x + y * width (self s) + 1)));
        try done; [|lia|lia].
      intros i. rewrite setpixel_lookup; rewrite Hfb; cbn [FrameBuffer.stride];
        [done|done|nia].
    + pose proof (Z.mod_pos_bound color 256 ltac:(lia)).
      pose proof (Z.div_mod color 256 ltac:(lia)).
      assert (0 <= color / 256) by (apply Z.div_pos; lia).
      assert (color / 256 < 256) by (apply Z.div_lt_upper_bound; lia).
      lia.
Qed.

Lemma pixel_store_invariant_witness :
  let s := blank_state (Some (mkPin 1)) None 4 3 in
  let ops := [Fill 0xFFFF; SetPixel 1 1 0; FillRect (-1) (-1) 3 3 7; Rotate 1; Refresh] in
  (exists d hp' tr',
     __init__ (mkPin 2) (Some (mkPin 1)) 4 3 0 None ∅ [] = (inr d, (hp', tr'))
     /\ store_inv (mkState d hp' tr'))
  /\ store_inv s
  /\ store_inv (run_ops ops s)
  /\ buffer (self (run_ops ops s)) = buffer (self s)
  /\ dom (heap (run_ops ops s)) = dom (heap s).
Proof.
  cbv zeta. destruct pixel_store_invariant as (Hnew & Hops & _).
  assert (Hinv : store_inv (blank_state (Some (mkPin 1)) None 4 3))
    by (apply blank_state_inv; lia).
  split.
  - destruct (Hnew (mkPin 2) (mkPin 1) 4 3 0 None ∅ [] ltac:(lia) ltac:(lia) I)
      as (d & hp' & tr' & Hrun & Hi & _).
    exists d, hp', tr'. split; [exact Hrun | exact Hi].
  - split; [exact Hinv|].
    destruct (Hops [Fill 0xFFFF; SetPixel 1 1 0; FillRect (-1) (-1) 3 3 7;
                    Rotate 1; Refresh] _ Hinv) as (H1 & H2 & _ & _ & H3).
    split; [exact H1|]. split; [exact H2 | exact H3].
Defined.

(** * The rest of the expander driver *)

(** ** Construction and whole-word output *)

Lemma two_entries {A} (l : list A) :
  length l = 2%nat -> exists a b, l = [a; b].
Proof. destruct l as [|a [|b [|]]]; try done. intros _. by exists a, b. Qed.

Lemma xl_set_out i v a oc cfg tr l' :
  setitem oc i v = inr l' ->
  XL9555.set_output_cache i v (XL9555.mk a oc cfg, tr)
  = (inr tt, (XL9555.mk a l' cfg, tr)).
Proof. intros H. unfold XL9555.set_output_cache. cbn [fst snd XL9555._output_cache]. by rewrite H. Qed.

Lemma xl_set_out_err i v a oc cfg tr e :
  setitem oc i v = inl e ->
  XL9555.set_output_cache i v (XL9555.mk a oc cfg, tr)
  = (inl e, (XL9555.mk a oc cfg, tr)).
Proof. intros H. unfold XL9555.set_output_cache. cbn [fst snd XL9555._output_cache]. by rewrite H. Qed.

Lemma xl_set_cfg i v a oc cfg tr l' :
  setitem cfg i v = inr l' ->
  XL9555.set_config_cache i v (XL9555.mk a oc cfg, tr)
  = (inr tt, (XL9555.mk a oc l', tr)).
Proof. intros H. unfold XL9555.set_config_cache. cbn [fst snd XL9555._config_cache]. by rewrite H. Qed.

Lemma xl_write_reg_bad reg v x tr :
  ~ (0 <= reg < 256 /\ 0 <= v < 256) ->
  XL9555._write_reg reg v (x, tr) = (inl ValueError, (x, tr)).
Proof.
  intros Hbad. unfold XL9555._write_reg, bind, lift_result, bytes_of.
  cbn [forallb]. unfold is_byte.
  destruct ((0 <=? reg) && (reg <? 256) && ((0 <=? v) && (v <? 256) && true)) eqn:E;
    [|done].
  rewrite !andb_true_iff in E. lia.
Qed.

(** [config] on byte values. *)
Lemma xl_config_run c0 c1 a oc g0 g1 tr :
  0 <= c0 < 256 -> 0 <= c1 < 256 ->
  XL9555.config c0 c1 (XL9555.mk a oc [g0; g1], tr)
  = (inr tt, (XL9555.mk a oc [c0; c1],
              tr ++ [I2cWriteto a [XL9555.REG_CONFIG_PORT0; c0];
                     I2cWriteto a [XL9555.REG_CONFIG_PORT1; c1]])).
Proof.
  intros H0 H1. unfold XL9555.config.
  erewrite bind_ok by (by apply xl_set_cfg).
  erewrite bind_ok by (by apply xl_set_cfg). cbn [insert list_insert Z.to_nat].
  erewrite bind_ok by (apply xl_write_reg_ok; [cbv [XL9555.REG_CONFIG_PORT0]; lia|done]).
  rewrite xl_write_reg_ok by (cbv [XL9555.REG_CONFIG_PORT1]; lia).
  cbn [XL9555.address]. by rewrite <- !app_assoc.
Qed.

(** [set_output] on any integer. *)
Lemma xl_set_output_run value a o0 o1 cfg tr :
  XL9555.set_output value (XL9555.mk a [o0; o1] cfg, tr)
  = (inr tt, (XL9555.mk a [value mod 256; (value / 256) mod 256] cfg,
              tr ++ [I2cWriteto a [XL9555.REG_OUTPUT_PORT0; value mod 256];
                     I2cWriteto a [XL9555.REG_OUTPUT_PORT1; (value / 256) mod 256]])).
Proof.
  unfold XL9555.set_output. cbv zeta.
  rewrite !land_255, Z.shiftr_div_pow2 by lia. change (2 ^ 8) with 256.
  assert (Hb0 : 0 <= value mod 256 < 256) by (apply Z.mod_pos_bound; lia).
  assert (Hb1 : 0 <= (value / 256) mod 256 < 256) by (apply Z.mod_pos_bound; lia).
  erewrite bind_ok by (by apply xl_set_out).
  erewrite bind_ok by (by apply xl_set_out). cbn [insert list_insert Z.to_nat].
  erewrite bind_ok by (apply xl_write_reg_ok; [cbv [XL9555.REG_OUTPUT_PORT0]; lia|done]).
  rewrite xl_write_reg_ok by (cbv [XL9555.REG_OUTPUT_PORT1]; lia).
  cbn [XL9555.address]. by rewrite <- !app_assoc.
Qed.

(** X1: the constructor of the expander, for any address: it configures
    port 0 with 0x03 and port 1 with 0xF0 (pins 0, 1 and 12..15 inputs, the
    rest outputs), drives every output high, issues exactly these four
    register writes in this order, and leaves an output cache of register
    values, which is what the pin writes rely on. *)
Theorem xl_constructor_state (addr : Z) (tr : list event) :
  XL9555.__init__ addr tr
  = (inr (XL9555.mk addr [0xFF; 0xFF] [0x03; 0xF0]),
     tr ++ [I2cWriteto addr [XL9555.REG_CONFIG_PORT0; 0x03];
            I2cWriteto addr [XL9555.REG_CONFIG_PORT1; 0xF0];
            I2cWriteto addr [XL9555.REG_OUTPUT_PORT0; 0xFF];
            I2cWriteto addr [XL9555.REG_OUTPUT_PORT1; 0xFF]])
  /\ XL9555.cache_ok (XL9555.mk addr [0xFF; 0xFF] [0x03; 0xF0])
  /\ (forall pin, 0 <= pin <= 15 ->
        Z.testbit (if pin / 8 =? 0 then 0x03 else 0xF0) (pin mod 8)
        = (pin <=? 1) || (12 <=? pin)).
Proof.
  split; [|split].
  - unfold XL9555.__init__.
    erewrite bind_ok by (apply xl_config_run; lia).
    rewrite xl_set_output_run.
    change (65535 mod 256) with 255. change ((65535 / 256) mod 256) with 255.
    by rewrite <- app_assoc.
  - exists 0xFF, 0xFF. repeat split; lia.
  - intros pin Hp.
    assert (Hcases : pin = 0 \/ pin = 1 \/ pin = 2 \/ pin = 3 \/ pin = 4 \/ pin = 5
                     \/ pin = 6 \/ pin = 7 \/ pin = 8 \/ pin = 9 \/ pin = 10
                     \/ pin = 11 \/ pin = 12 \/ pin = 13 \/ pin = 14 \/ pin = 15)
      by lia.
    repeat (destruct Hcases as [-> | Hcases]; [reflexivity|]).
    subst. reflexivity.
Qed.

Lemma get_output_run a o0 o1 cfg :
  XL9555.get_output (XL9555.mk a [o0; o1] cfg) = inr (Z.lor (Z.shiftl o1 8) o0).
Proof. reflexivity. Qed.

Lemma word_of_bytes v :
  Z.lor (Z.shiftl ((v / 256) mod 256) 8) (v mod 256) = v mod 65536.
Proof.
  rewrite <- le16_read, !land_255, Z.shiftr_div_pow2 by lia.
  apply Z.lor_comm.
Qed.

(** Bit [k] of the 16-bit word made of a low byte and a high byte. *)
Lemma word_bits lo hi k :
  0 <= lo < 256 ->
  Z.testbit (Z.lor (Z.shiftl hi 8) lo) k
  = if k <? 8 then Z.testbit lo k else Z.testbit hi (k - 8).
Proof.
  intros Hlo. rewrite Z.lor_spec.
  destruct (Z.ltb_spec k 8) as [Hk|Hk].
  - destruct (Z.lt_ge_cases k 0) as [Hneg|Hnn].
    + by rewrite !Z.testbit_neg_r by done.
    + rewrite Z.shiftl_spec, (Z.testbit_neg_r _ (k - 8)) by lia. done.
  - rewrite Z.shiftl_spec by lia. rewrite (byte_high_bits lo k) by lia.
    apply orb_false_r.
Qed.

(** X2: [set_output(value)], for every integer [value], stores the low byte
    in cache entry 0 and the next byte in entry 1, writes both output
    registers in that order, and never raises; [get_output()] afterwards
    returns the low 16 bits of [value]. *)
Theorem set_output_get_output (value : Z) (x : XL9555.t) (tr : list event) :
  length (XL9555._output_cache x) = 2%nat ->
  exists x',
    XL9555.set_output value (x, tr)
    = (inr tt,
       (x', tr ++ [I2cWriteto (XL9555.address x)
                              [XL9555.REG_OUTPUT_PORT0; value mod 256];
                   I2cWriteto (XL9555.address x)
                              [XL9555.REG_OUTPUT_PORT1; (value / 256) mod 256]]))
    /\ XL9555._output_cache x' = [value mod 256; (value / 256) mod 256]
    /\ XL9555.get_output x' = inr (value mod 65536)
    /\ XL9555.cache_ok x'
    /\ XL9555._config_cache x' = XL9555._config_cache x
    /\ XL9555.address x' = XL9555.address x.
Proof.
  intros Hlen. destruct x as [a oc cfg]. cbn [XL9555._output_cache] in Hlen.
  destruct (two_entries oc Hlen) as (o0 & o1 & ->).
  eexists. split; [apply xl_set_output_run|].
  split; [reflexivity|]. split; [by rewrite get_output_run, word_of_bytes|].
  split; [|done].
  exists (value mod 256), ((value / 256) mod 256).
  split; [reflexivity|]. split; apply Z.mod_pos_bound; lia.
Qed.

Lemma set_output_get_output_witness :
  length (XL9555._output_cache fresh_xl) = 2%nat
  /\ exists x',
      fst (XL9555.set_output (-2) (fresh_xl, [])) = inr tt
      /\ snd (XL9555.set_output (-2) (fresh_xl, []))
         = (x', [I2cWriteto 0x20 [2; 0xFE]; I2cWriteto 0x20 [3; 0xFF]])
      /\ XL9555.get_output x' = inr 0xFFFE.
Proof.
  assert (H : length (XL9555._output_cache fresh_xl) = 2%nat) by reflexivity.
  split; [exact H|].
  destruct (set_output_get_output (-2) fresh_xl [] H) as (x' & Hrun & _ & Hget & _).
  exists x'. rewrite Hrun. split; [reflexivity|]. split; [reflexivity | exact Hget].
Defined.

(** X3: [set_output_port(port, value)] rejects every port other than 0 and
    1 with [ValueError] before touching anything; for a byte value it stores
    the value in that port's cache entry and writes that port's output
    register, leaving the other entry alone; for a value that is not a byte
    it raises [ValueError] only after the cache entry has been overwritten
    and before anything is written to the bus, so that the cache no longer
    mirrors the device. *)
Theorem set_output_port_cases (port value : Z) (a o0 o1 : Z) (cfg : list Z)
    (tr : list event) :
  let x := XL9555.mk a [o0; o1] cfg in
  (port <> 0 /\ port <> 1 ->
     XL9555.set_output_port port value (x, tr) = (inl ValueError, (x, tr)))
  /\ (0 <= value < 256 ->
      XL9555.set_output_port 0 value (x, tr)
      = (inr tt, (XL9555.mk a [value; o1] cfg, tr ++ [I2cWriteto a [2; value]]))
      /\ XL9555.set_output_port 1 value (x, tr)
         = (inr tt, (XL9555.mk a [o0; value] cfg, tr ++ [I2cWriteto a [3; value]])))
  /\ (~ 0 <= value < 256 ->
      XL9555.set_output_port 0 value (x, tr)
      = (inl ValueError, (XL9555.mk a [value; o1] cfg, tr))
      /\ XL9555.set_output_port 1 value (x, tr)
         = (inl ValueError, (XL9555.mk a [o0; value] cfg, tr))).
Proof.
  cbv zeta. split; [|split].
  - intros [H0 H1]. unfold XL9555.set_output_port.
    replace ((port =? 0) || (port =? 1)) with false; [done|].
    symmetry. apply orb_false_iff. split; apply Z.eqb_neq; done.
  - intros Hv. unfold XL9555.set_output_port. cbn [Z.eqb Pos.eqb orb negb].
    split.
    + erewrite bind_ok by (by apply xl_set_out).
      by rewrite xl_write_reg_ok by (cbv [XL9555.REG_OUTPUT_PORT0]; lia).
    + erewrite bind_ok by (by apply xl_set_out).
      by rewrite xl_write_reg_ok by (cbv [XL9555.REG_OUTPUT_PORT0]; lia).
  - intros Hv. unfold XL9555.set_output_port. cbn [Z.eqb Pos.eqb orb negb].
    split.
    + erewrite bind_ok by (by apply xl_set_out).
      by rewrite xl_write_reg_bad by lia.
    + erewrite bind_ok by (by apply xl_set_out).
      by rewrite xl_write_reg_bad by lia.
Qed.

Lemma set_output_port_cases_witness :
  (2 <> 0 /\ 2 <> 1) /\ 0 <= 0x5A < 256 /\ ~ 0 <= 256 < 256
  /\ XL9555.set_output_port 2 0 (fresh_xl, []) = (inl ValueError, (fresh_xl, []))
  /\ XL9555.set_output_port 1 0x5A (fresh_xl, [])
     = (inr tt, (XL9555.mk 0x20 [0xFF; 0x5A] [0x03; 0xF0], [I2cWriteto 0x20 [3; 0x5A]]))
  /\ XL9555.set_output_port 0 256 (fresh_xl, [])
     = (inl ValueError, (XL9555.mk 0x20 [256; 0xFF] [0x03; 0xF0], [])).
Proof.
  assert (H1 : 2 <> 0 /\ 2 <> 1) by lia.
  assert (H2 : 0 <= 0x5A < 256) by lia.
  assert (H3 : ~ 0 <= 256 < 256) by lia.
  destruct (set_output_port_cases 2 0 0x20 0xFF 0xFF [0x03; 0xF0] []) as (Ha & _ & _).
  destruct (set_output_port_cases 1 0x5A 0x20 0xFF 0xFF [0x03; 0xF0] []) as (_ & Hb & _).
  destruct (set_output_port_cases 0 256 0x20 0xFF 0xFF [0x03; 0xF0] []) as (_ & _ & Hc).
  split; [exact H1|]. split; [exact H2|]. split; [exact H3|].
  split; [exact (Ha H1)|]. split; [exact (proj2 (Hb H2)) | exact (proj1 (Hc H3))].
Defined.

(** ** Single pins and the output word *)

Lemma with_bit_last c bit a b :
  0 <= bit -> with_bit (with_bit c bit a) bit b = with_bit c bit b.
Proof.
  intros Hb. apply Z.bits_inj'. intros k _. rewrite !with_bit_spec by done.
  by destruct (k =? bit).
Qed.

Lemma with_bit_comm c i j a b :
  0 <= i -> 0 <= j -> i <> j ->
  with_bit (with_bit c i a) j b = with_bit (with_bit c j b) i a.
Proof.
  intros Hi Hj Hne. apply Z.bits_inj'. intros k _. rewrite !with_bit_spec by done.
  destruct (Z.eqb_spec k i), (Z.eqb_spec k j); try done. lia.
Qed.

(** X4: on the 16-bit word that [get_output()] returns, [write_pin(pin,
    level)] sets bit [pin] to the level and changes no other bit. *)
Theorem write_pin_output_word (pin : Z) (level : bool) (x : XL9555.t)
    (tr : list event) :
  XL9555.cache_ok x -> 0 <= pin <= 15 ->
  exists v x' tr' v',
    XL9555.get_output x = inr v
    /\ XL9555.write_pin pin level (x, tr) = (inr tt, (x', tr'))
    /\ XL9555.get_output x' = inr v'
    /\ forall k, Z.testbit v' k = if k =? pin then level else Z.testbit v k.
Proof.
  intros (c0 & c1 & Hc & H0 & H1) Hp.
  destruct x as [a oc cfg]. cbn [XL9555._output_cache] in Hc. subst oc.
  destruct (pin_port_bit pin Hp) as [Hport Hbit].
  pose proof (Z.div_mod pin 8 ltac:(lia)) as Hdm.
  pose proof (with_bit_byte c0 (pin mod 8) level H0 Hbit) as Hb0.
  rewrite xl_write_pin_run by done.
  destruct Hport as [E|E]; rewrite E in *; cbn [Z.eqb].
  - eexists _, _, _, _. split; [apply get_output_run|].
    split; [reflexivity|]. split; [apply get_output_run|].
    intros k. rewrite !word_bits by done. rewrite with_bit_spec by lia.
    destruct (Z.ltb_spec k 8), (Z.eqb_spec k (pin mod 8)), (Z.eqb_spec k pin);
      try done; lia.
  - eexists _, _, _, _. split; [apply get_output_run|].
    split; [reflexivity|]. split; [apply get_output_run|].
    intros k. rewrite !word_bits by done. rewrite with_bit_spec by lia.
    destruct (Z.ltb_spec k 8), (Z.eqb_spec (k - 8) (pin mod 8)), (Z.eqb_spec k pin);
      try done; lia.
Qed.

Lemma write_pin_output_word_witness :
  XL9555.cache_ok fresh_xl /\ 0 <= 11 <= 15
  /\ exists x' tr' v',
      XL9555.write_pin 11 false (fresh_xl, []) = (inr tt, (x', tr'))
      /\ XL9555.get_output x' = inr v'
      /\ Z.testbit v' 11 = false /\ Z.testbit v' 10 = true.
Proof.
  assert (H1 : XL9555.cache_ok fresh_xl).
  { exists 0xFF, 0xFF. repeat split; lia. }
  assert (H2 : 0 <= 11 <= 15) by lia.
  split; [exact H1|]. split; [exact H2|].
  destruct (write_pin_output_word 11 false fresh_xl [] H1 H2)
    as (v & x' & tr' & v' & Hv & Hrun & Hv' & Hbits).
  exists x', tr', v'. split; [exact Hrun|]. split; [exact Hv'|].
  split; [exact (Hbits 11)|].
  rewrite (Hbits 10). injection Hv as <-. reflexivity.
Defined.

(** X5: pin writes compose as independent bits.  Writing the same pin
    twice leaves the expander object as the second write alone would, and
    writes to two different pins leave the same object in either order; only
    the bus traffic differs. *)
Theorem write_pin_compose (p q : Z) (a b : bool) (x : XL9555.t) (tr : list event) :
  XL9555.cache_ok x -> 0 <= p <= 15 -> 0 <= q <= 15 ->
  fst (snd ((XL9555.write_pin p a ;; XL9555.write_pin p b) (x, tr)))
  = fst (snd (XL9555.write_pin p b (x, tr)))
  /\ (p <> q ->
      fst (snd ((XL9555.write_pin p a ;; XL9555.write_pin q b) (x, tr)))
      = fst (snd ((XL9555.write_pin q b ;; XL9555.write_pin p a) (x, tr)))).
Proof.
  intros (c0 & c1 & Hc & H0 & H1) Hp Hq.
  destruct x as [ad oc cfg]. cbn [XL9555._output_cache] in Hc. subst oc.
  destruct (pin_port_bit p Hp) as [Hpp Hpb].
  destruct (pin_port_bit q Hq) as [Hqp Hqb].
  pose proof (Z.div_mod p 8 ltac:(lia)) as Hdp.
  pose proof (Z.div_mod q 8 ltac:(lia)) as Hdq.
  assert (Hstep : forall r (v : bool) d0 d1 tr0 (k : unit -> M XL9555.st unit),
            0 <= r <= 15 -> 0 <= d0 < 256 -> 0 <= d1 < 256 ->
            bind (XL9555.write_pin r v) k (XL9555.mk ad [d0; d1] cfg, tr0)
            = k tt (snd (XL9555.write_pin r v (XL9555.mk ad [d0; d1] cfg, tr0)))).
  { intros r v d0 d1 tr0 k Hr Hd0 Hd1. unfold bind.
    rewrite xl_write_pin_run by done. by destruct (r / 8 =? 0). }
  rewrite !Hstep by done.
  rewrite !(xl_write_pin_run _ _ ad c0 c1) by done.
  pose proof (with_bit_byte c0 (p mod 8) a H0 Hpb).
  pose proof (with_bit_byte c1 (p mod 8) a H1 Hpb).
  pose proof (with_bit_byte c0 (q mod 8) b H0 Hqb).
  pose proof (with_bit_byte c1 (q mod 8) b H1 Hqb).
  split.
  - destruct Hpp as [E|E]; rewrite E; cbn [Z.eqb snd];
      rewrite xl_write_pin_run by done; rewrite E; cbn [Z.eqb snd fst];
      by rewrite with_bit_last by lia.
  - intros Hne.
    destruct Hpp as [E|E], Hqp as [F|F]; rewrite E, F; cbn [Z.eqb snd];
      rewrite !xl_write_pin_run by done; rewrite E, F; cbn [Z.eqb snd fst];
      try reflexivity.
    + rewrite (with_bit_comm c0 (p mod 8) (q mod 8)) by lia. reflexivity.
    + rewrite (with_bit_comm c1 (p mod 8) (q mod 8)) by lia. reflexivity.
Qed.

Lemma write_pin_compose_witness :
  XL9555.cache_ok fresh_xl /\ 0 <= 10 <= 15 /\ 0 <= 3 <= 15 /\ 10 <> 3
  /\ fst (snd ((XL9555.write_pin 10 false ;; XL9555.write_pin 10 true) (fresh_xl, [])))
     = fst (snd (XL9555.write_pin 10 true (fresh_xl, [])))
  /\ fst (snd ((XL9555.write_pin 10 false ;; XL9555.write_pin 3 false) (fresh_xl, [])))
     = fst (snd ((XL9555.write_pin 3 false ;; XL9555.write_pin 10 false) (fresh_xl, []))).
Proof.
  assert (H1 : XL9555.cache_ok fresh_xl).
  { exists 0xFF, 0xFF. repeat split; lia. }
  assert (H2 : 0 <= 10 <= 15) by lia.
  assert (H3 : 0 <= 3 <= 15) by lia.
  assert (H4 : 10 <> 3) by lia.
  split; [exact H1|]. split; [exact H2|]. split; [exact H3|]. split; [exact H4|].
  split.
  - exact (proj1 (write_pin_compose 10 10 false true fresh_xl [] H1 H2 H2)).
  - exact (proj2 (write_pin_compose 10 3 false false fresh_xl [] H1 H2 H3) H4).
Defined.

(** ** Reading pins *)

Lemma land_bit_zero c bit :
  0 <= bit -> (Z.land c (Z.shiftl 1 bit) =? 0) = negb (Z.testbit c bit).
Proof.
  intros Hb. destruct (Z.testbit c bit) eqn:Hc; cbn [negb].
  - apply Z.eqb_neq. intros Hz.
    assert (Ht : Z.testbit (Z.land c (Z.shiftl 1 bit)) bit = true).
    { rewrite Z.land_spec, testbit_one_shl, Hc, Z.eqb_refl by done. done. }
    rewrite Hz, Z.bits_0 in Ht. discriminate.
  - apply Z.eqb_eq. apply Z.bits_inj'. intros k _.
    rewrite Z.land_spec, testbit_one_shl, Z.bits_0 by done.
    destruct (Z.eqb_spec k bit) as [->|]; [by rewrite Hc | apply andb_false_r].
Qed.

Lemma shiftr_bit value bit :
  0 <= bit -> Z.land (Z.shiftr value bit) 1 = Z.b2z (Z.testbit value bit).
Proof.
  intros Hb. change 1 with (Z.ones 1). rewrite Z.land_ones by lia.
  change (2 ^ 1) with 2. rewrite <- Z.bit0_mod, Z.shiftr_spec by lia.
  by rewrite Z.add_0_l.
Qed.

Lemma read_reg_run dev reg x log :
  0 <= reg < 256 ->
  Expander._read_reg dev reg (x, log)
  = (inr (dev reg),
     (x, log ++ [Expander.Sent (I2cWriteto (XL9555.address x) [reg]);
                 Expander.I2cReadfrom (XL9555.address x) 1 [dev reg]])).
Proof.
  intros Hr. unfold Expander._read_reg.
  erewrite bind_ok
    by (apply lift_bytes_run; cbn [forallb]; by rewrite is_byte_true).
  erewrite bind_ok by apply gets_run.
  unfold Expander.emit, bind, modify, lift_result. cbn [fst snd].
  by rewrite <- app_assoc.
Qed.

(** What [read_pin] does, case by case. *)
Lemma read_pin_run (dev : Z -> Z) (pin a o0 o1 g0 g1 : Z)
    (log : list Expander.bus_op) :
  let x := XL9555.mk a [o0; o1] [g0; g1] in
  let port := pin / 8 in
  let bit := pin mod 8 in
  let cfg := if port =? 0 then g0 else g1 in
  let out := if port =? 0 then o0 else o1 in
  (~ 0 <= pin <= 15 ->
     Expander.read_pin dev pin (x, log) = (inl ValueError, (x, log)))
  /\ (0 <= pin <= 15 -> Z.testbit cfg bit = false ->
      Expander.read_pin dev pin (x, log)
      = (inr (Z.b2z (Z.testbit out bit)), (x, log)))
  /\ (0 <= pin <= 15 -> Z.testbit cfg bit = true ->
      Expander.read_pin dev pin (x, log)
      = (inr (Z.b2z (Z.testbit (dev port) bit)),
         (x, log ++ [Expander.Sent (I2cWriteto a [port]);
                     Expander.I2cReadfrom a 1 [dev port]]))).
Proof.
  cbv zeta. split; [|split].
  - intros Hout. unfold Expander.read_pin.
    replace ((0 <=? pin) && (pin <=? 15)) with false; [done|].
    symmetry. apply not_true_is_false. rewrite andb_true_iff. lia.
  - intros Hp Hcfg. destruct (pin_port_bit pin Hp) as [Hport Hbit].
    unfold Expander.read_pin.
    replace ((0 <=? pin) && (pin <=? 15)) with true
      by (symmetry; apply andb_true_intro; split; lia).
    cbn [negb].
    destruct Hport as [E|E]; rewrite E in *; cbn [Z.eqb] in *;
      unfold bind; cbn [fst snd XL9555._config_cache XL9555._output_cache];
      change (getitem [g0; g1] 0) with (@inr exn Z g0);
      change (getitem [g0; g1] 1) with (@inr exn Z g1);
      cbv beta iota;
      rewrite land_bit_zero, Hcfg by lia; cbn [negb];
      cbn [fst snd XL9555._config_cache XL9555._output_cache];
      change (getitem [o0; o1] 0) with (@inr exn Z o0);
      change (getitem [o0; o1] 1) with (@inr exn Z o1);
      unfold ret; by rewrite shiftr_bit by lia.
  - intros Hp Hcfg. destruct (pin_port_bit pin Hp) as [Hport Hbit].
    unfold Expander.read_pin.
    replace ((0 <=? pin) && (pin <=? 15)) with true
      by (symmetry; apply andb_true_intro; split; lia).
    cbn [negb].
    destruct Hport as [E|E]; rewrite E in *; cbn [Z.eqb] in *;
      unfold bind at 1; cbn [fst snd XL9555._config_cache];
      change (getitem [g0; g1] 0) with (@inr exn Z g0);
      change (getitem [g0; g1] 1) with (@inr exn Z g1);
      cbv beta iota;
      rewrite land_bit_zero, Hcfg by lia; cbn [negb];
      (erewrite bind_ok
         by (apply read_reg_run; cbv [XL9555.REG_INPUT_PORT0]; lia));
      unfold ret; cbn [XL9555.address]; by rewrite shiftr_bit by lia.
Qed.


Lemma b2z_cases (b : bool) : Z.b2z b = 0 \/ Z.b2z b = 1.
Proof. destruct b; [right|left]; reflexivity. Qed.

(** X6: [read_pin(pin)] raises [ValueError] for a pin outside 0..15 without
    any bus traffic; for a pin whose bit in the configuration cache is 0
    (an output) it returns the bit of the output cache and does not touch
    the bus; for a pin whose configuration bit is 1 (an input) it selects
    and reads the input register of the pin's port and returns the pin's
    bit of the answer.  The result is always 0 or 1 and the object is never
    changed. *)
Theorem read_pin_cases (dev : Z -> Z) (pin a o0 o1 g0 g1 : Z)
    (log : list Expander.bus_op) :
  let x := XL9555.mk a [o0; o1] [g0; g1] in
  let port := pin / 8 in
  let bit := pin mod 8 in
  let cfg := if port =? 0 then g0 else g1 in
  let out := if port =? 0 then o0 else o1 in
  (~ 0 <= pin <= 15 ->
     Expander.read_pin dev pin (x, log) = (inl ValueError, (x, log)))
  /\ (0 <= pin <= 15 -> Z.testbit cfg bit = false ->
      Expander.read_pin dev pin (x, log)
      = (inr (Z.b2z (Z.testbit out bit)), (x, log)))
  /\ (0 <= pin <= 15 -> Z.testbit cfg bit = true ->
      Expander.read_pin dev pin (x, log)
      = (inr (Z.b2z (Z.testbit (dev port) bit)),
         (x, log ++ [Expander.Sent (I2cWriteto a [port]);
                     Expander.I2cReadfrom a 1 [dev port]])))
  /\ (forall r s', Expander.read_pin dev pin (x, log) = (inr r, s') ->
        (r = 0 \/ r = 1) /\ fst s' = x).
Proof.
  cbv zeta.
  destruct (read_pin_run dev pin a o0 o1 g0 g1 log) as (Herr & Hout & Hin).
  cbv zeta in Herr, Hout, Hin.
  split; [exact Herr|]. split; [exact Hout|]. split; [exact Hin|].
  intros r s' Hrun.
  destruct (decide (0 <= pin <= 15)) as [Hp|Hp]; [|by rewrite Herr in Hrun].
  destruct (Z.testbit (if pin / 8 =? 0 then g0 else g1) (pin mod 8)) eqn:Hcfg.
  - rewrite Hin in Hrun by done. injection Hrun as <- <-.
    split; [|reflexivity]. apply b2z_cases.
  - rewrite Hout in Hrun by done. injection Hrun as <- <-.
    split; [|reflexivity]. apply b2z_cases.
Qed.

Lemma read_pin_cases_witness :
  ~ 0 <= 16 <= 15 /\ 0 <= 10 <= 15 /\ 0 <= 12 <= 15
  /\ Z.testbit 0xF0 (10 mod 8) = false /\ Z.testbit 0xF0 (12 mod 8) = true
  /\ Expander.read_pin (fun _ => 0xEF) 16 (fresh_xl, []) = (inl ValueError, (fresh_xl, []))
  /\ Expander.read_pin (fun _ => 0xEF) 10 (fresh_xl, []) = (inr 1, (fresh_xl, []))
  /\ Expander.read_pin (fun _ => 0xEF) 12 (fresh_xl, [])
     = (inr 0, (fresh_xl, [Expander.Sent (I2cWriteto 0x20 [1]);
                           Expander.I2cReadfrom 0x20 1 [0xEF]])).
Proof.
  assert (H1 : ~ 0 <= 16 <= 15) by lia.
  assert (H2 : 0 <= 10 <= 15) by lia.
  assert (H3 : 0 <= 12 <= 15) by lia.
  assert (H4 : Z.testbit 0xF0 (10 mod 8) = false) by reflexivity.
  assert (H5 : Z.testbit 0xF0 (12 mod 8) = true) by reflexivity.
  destruct (read_pin_cases (fun _ => 0xEF) 16 0x20 0xFF 0xFF 0x03 0xF0 []) as (Ha & _ & _).
  destruct (read_pin_cases (fun _ => 0xEF) 10 0x20 0xFF 0xFF 0x03 0xF0 []) as (_ & Hb & _).
  destruct (read_pin_cases (fun _ => 0xEF) 12 0x20 0xFF 0xFF 0x03 0xF0 []) as (_ & _ & Hc & _).
  split; [exact H1|]. split; [exact H2|]. split; [exact H3|].
  split; [exact H4|]. split; [exact H5|].
  split; [exact (Ha H1)|]. split; [exact (Hb H2 H4) | exact (Hc H3 H5)].
Defined.

Lemma writes_write_pin_run pin level a c0 c1 cfg (log : list Expander.bus_op) :
  0 <= pin <= 15 -> 0 <= c0 < 256 -> 0 <= c1 < 256 ->
  Expander.writes (XL9555.write_pin pin level) (XL9555.mk a [c0; c1] cfg, log)
  = if pin / 8 =? 0
    then (inr tt, (XL9555.mk a [with_bit c0 (pin mod 8) level; c1] cfg,
                   log ++ [Expander.Sent
                             (I2cWriteto a [2; with_bit c0 (pin mod 8) level])]))
    else (inr tt, (XL9555.mk a [c0; with_bit c1 (pin mod 8) level] cfg,
                   log ++ [Expander.Sent
                             (I2cWriteto a [3; with_bit c1 (pin mod 8) level])])).
Proof.
  intros Hp H0 H1. unfold Expander.writes. cbn [fst snd].
  rewrite xl_write_pin_run by done. by destruct (pin / 8 =? 0).
Qed.

(** X7: a pin configured as an output reads back what was written to it:
    after [write_pin(pin, level)], [read_pin(pin)] returns the level, taken
    from the cache without any bus traffic, whatever the device would
    answer. *)
Theorem write_then_read_pin (dev : Z -> Z) (pin : Z) (level : bool)
    (a o0 o1 g0 g1 : Z) (log : list Expander.bus_op) :
  0 <= o0 < 256 -> 0 <= o1 < 256 -> 0 <= pin <= 15 ->
  Z.testbit (if pin / 8 =? 0 then g0 else g1) (pin mod 8) = false ->
  exists s',
    Expander.writes (XL9555.write_pin pin level)
      (XL9555.mk a [o0; o1] [g0; g1], log) = (inr tt, s')
    /\ Expander.read_pin dev pin s' = (inr (Z.b2z level), s').
Proof.
  intros H0 H1 Hp Hcfg. destruct (pin_port_bit pin Hp) as [Hport Hbit].
  rewrite writes_write_pin_run by done.
  destruct Hport as [E|E]; rewrite E in *; cbn [Z.eqb] in *.
  - eexists. split; [reflexivity|].
    destruct (read_pin_run dev pin a (with_bit o0 (pin mod 8) level) o1 g0 g1
                (log ++ [Expander.Sent
                           (I2cWriteto a [2; with_bit o0 (pin mod 8) level])]))
      as (_ & Hout & _).
    rewrite E in Hout. cbn [Z.eqb] in Hout. rewrite Hout by done.
    by rewrite with_bit_spec, Z.eqb_refl by lia.
  - eexists. split; [reflexivity|].
    destruct (read_pin_run dev pin a o0 (with_bit o1 (pin mod 8) level) g0 g1
                (log ++ [Expander.Sent
                           (I2cWriteto a [3; with_bit o1 (pin mod 8) level])]))
      as (_ & Hout & _).
    rewrite E in Hout. cbn [Z.eqb] in Hout. rewrite Hout by done.
    by rewrite with_bit_spec, Z.eqb_refl by lia.
Qed.

Lemma write_then_read_pin_witness :
  0 <= 0xFF < 256 /\ 0 <= 10 <= 15
  /\ Z.testbit (if 10 / 8 =? 0 then 0x03 else 0xF0) (10 mod 8) = false
  /\ exists s',
      Expander.writes (XL9555.write_pin 10 false) (fresh_xl, []) = (inr tt, s')
      /\ Expander.read_pin (fun _ => 0xFF) 10 s' = (inr 0, s').
Proof.
  assert (H1 : 0 <= 0xFF < 256) by lia.
  assert (H2 : 0 <= 10 <= 15) by lia.
  assert (H3 : Z.testbit (if 10 / 8 =? 0 then 0x03 else 0xF0) (10 mod 8) = false)
    by reflexivity.
  split; [exact H1|]. split; [exact H2|]. split; [exact H3|].
  exact (write_then_read_pin (fun _ => 0xFF) 10 false 0x20 0xFF 0xFF 0x03 0xF0 []
           H1 H1 H2 H3).
Defined.

(** ** Toggling *)

Lemma b2z_eqb_0 (b : bool) : (Z.b2z b =? 0) = negb b.
Proof. by destruct b. Qed.

Lemma with_bit_same c bit v :
  0 <= bit -> Z.testbit c bit = v -> with_bit c bit v = c.
Proof.
  intros Hb Hv. apply Z.bits_inj'. intros k _. rewrite with_bit_spec by done.
  destruct (Z.eqb_spec k bit) as [->|]; done.
Qed.

(** [toggle_pin] is a read followed by a write of the opposite level. *)
Lemma toggle_pin_run dev pin a o0 o1 g0 g1 (log : list Expander.bus_op) :
  let x := XL9555.mk a [o0; o1] [g0; g1] in
  let port := pin / 8 in
  let bit := pin mod 8 in
  let cfg := if port =? 0 then g0 else g1 in
  let out := if port =? 0 then o0 else o1 in
  (~ 0 <= pin <= 15 ->
     Expander.toggle_pin dev pin (x, log) = (inl ValueError, (x, log)))
  /\ (0 <= pin <= 15 -> Z.testbit cfg bit = false ->
      Expander.toggle_pin dev pin (x, log)
      = Expander.writes (XL9555.write_pin pin (negb (Z.testbit out bit))) (x, log))
  /\ (0 <= pin <= 15 -> Z.testbit cfg bit = true ->
      Expander.toggle_pin dev pin (x, log)
      = Expander.writes (XL9555.write_pin pin (negb (Z.testbit (dev port) bit)))
          (x, log ++ [Expander.Sent (I2cWriteto a [port]);
                      Expander.I2cReadfrom a 1 [dev port]])).
Proof.
  cbv zeta.
  destruct (read_pin_run dev pin a o0 o1 g0 g1 log) as (Herr & Hout & Hin).
  cbv zeta in Herr, Hout, Hin. unfold Expander.toggle_pin.
  split; [|split].
  - intros Hp. by erewrite bind_err by (by apply Herr).
  - intros Hp Hcfg. erewrite bind_ok by (by apply Hout). by rewrite b2z_eqb_0.
  - intros Hp Hcfg. erewrite bind_ok by (by apply Hin). by rewrite b2z_eqb_0.
Qed.

(** X8: [toggle_pin(pin)] raises [ValueError] for a pin outside 0..15 and
    then does nothing.  On a pin configured as an output it inverts the
    pin's bit in the output cache with one register write and no read: a
    pin read afterwards gives the opposite of a pin read before, and a
    second toggle restores the object.  On a pin configured as an input it
    reads the device and stores the opposite of the level it read in the
    output cache, whatever the cached bit was. *)
Theorem toggle_pin_cases (dev : Z -> Z) (pin a o0 o1 g0 g1 : Z)
    (log : list Expander.bus_op) :
  0 <= o0 < 256 -> 0 <= o1 < 256 ->
  let x := XL9555.mk a [o0; o1] [g0; g1] in
  let port := pin / 8 in
  let bit := pin mod 8 in
  let cfg := if port =? 0 then g0 else g1 in
  let out := if port =? 0 then o0 else o1 in
  (~ 0 <= pin <= 15 ->
     Expander.toggle_pin dev pin (x, log) = (inl ValueError, (x, log)))
  /\ (0 <= pin <= 15 -> Z.testbit cfg bit = false ->
      exists x' c',
        Expander.toggle_pin dev pin (x, log)
        = (inr tt, (x', log ++ [Expander.Sent (I2cWriteto a [2 + port; c'])]))
        /\ fst (Expander.read_pin dev pin (x, log)) = inr (Z.b2z (Z.testbit out bit))
        /\ (forall log', fst (Expander.read_pin dev pin (x', log'))
                         = inr (1 - Z.b2z (Z.testbit out bit)))
        /\ (forall log', fst (snd (Expander.toggle_pin dev pin (x', log'))) = x))
  /\ (0 <= pin <= 15 -> Z.testbit cfg bit = true ->
      exists x' c',
        Expander.toggle_pin dev pin (x, log)
        = (inr tt, (x', log ++ [Expander.Sent (I2cWriteto a [port]);
                                Expander.I2cReadfrom a 1 [dev port];
                                Expander.Sent (I2cWriteto a [2 + port; c'])]))
        /\ XL9555._output_cache x' !! Z.to_nat port = Some c'
        /\ forall k, Z.testbit c' k
                     = if k =? bit then negb (Z.testbit (dev port) bit)
                       else Z.testbit out k).
Proof.
  intros H0 H1. cbv zeta.
  destruct (toggle_pin_run dev pin a o0 o1 g0 g1 log) as (Herr & Hout & Hin).
  cbv zeta in Herr, Hout, Hin.
  split; [exact Herr|]. split.
  - intros Hp Hcfg. destruct (pin_port_bit pin Hp) as [Hport Hbit].
    rewrite Hout, writes_write_pin_run by done.
    destruct (read_pin_run dev pin a o0 o1 g0 g1 log) as (_ & Hr0 & _).
    cbv zeta in Hr0. rewrite Hr0 by done. clear Hr0.
    destruct Hport as [E|E]; rewrite E in *; cbn [Z.eqb] in *.
    + set (b := Z.testbit o0 (pin mod 8)) in *.
      pose proof (with_bit_byte o0 (pin mod 8) (negb b) H0 Hbit) as Hb.
      eexists _, _. split; [reflexivity|]. split; [reflexivity|]. split.
      * intros log'.
        destruct (read_pin_run dev pin a (with_bit o0 (pin mod 8) (negb b)) o1
                    g0 g1 log') as (_ & Hr & _).
        cbv zeta in Hr. rewrite E in Hr. cbn [Z.eqb] in Hr. rewrite Hr by done.
        rewrite with_bit_spec, Z.eqb_refl by lia. by destruct b.
      * intros log'.
        destruct (toggle_pin_run dev pin a (with_bit o0 (pin mod 8) (negb b)) o1
                    g0 g1 log') as (_ & Ht & _).
        cbv zeta in Ht. rewrite E in Ht. cbn [Z.eqb] in Ht. rewrite Ht by done.
        rewrite writes_write_pin_run, E by done. cbn [Z.eqb fst snd].
        rewrite with_bit_spec, Z.eqb_refl, negb_involutive by lia.
        rewrite with_bit_last by lia. by rewrite with_bit_same by (lia || done).
    + set (b := Z.testbit o1 (pin mod 8)) in *.
      pose proof (with_bit_byte o1 (pin mod 8) (negb b) H1 Hbit) as Hb.
      eexists _, _. split; [reflexivity|]. split; [reflexivity|]. split.
      * intros log'.
        destruct (read_pin_run dev pin a o0 (with_bit o1 (pin mod 8) (negb b))
                    g0 g1 log') as (_ & Hr & _).
        cbv zeta in Hr. rewrite E in Hr. cbn [Z.eqb] in Hr. rewrite Hr by done.
        rewrite with_bit_spec, Z.eqb_refl by lia. by destruct b.
      * intros log'.
        destruct (toggle_pin_run dev pin a o0 (with_bit o1 (pin mod 8) (negb b))
                    g0 g1 log') as (_ & Ht & _).
        cbv zeta in Ht. rewrite E in Ht. cbn [Z.eqb] in Ht. rewrite Ht by done.
        rewrite writes_write_pin_run, E by done. cbn [Z.eqb fst snd].
        rewrite with_bit_spec, Z.eqb_refl, negb_involutive by lia.
        rewrite with_bit_last by lia. by rewrite with_bit_same by (lia || done).
  - intros Hp Hcfg. destruct (pin_port_bit pin Hp) as [Hport Hbit].
    rewrite Hin, writes_write_pin_run by done.
    destruct Hport as [E|E]; rewrite E in *; cbn [Z.eqb] in *.
    + eexists _, _. split; [by rewrite <- app_assoc|]. split; [reflexivity|].
      intros k. apply with_bit_spec. lia.
    + eexists _, _. split; [by rewrite <- app_assoc|]. split; [reflexivity|].
      intros k. apply with_bit_spec. lia.
Qed.

Lemma toggle_pin_cases_witness :
  0 <= 0xFF < 256 /\ ~ 0 <= 16 <= 15 /\ 0 <= 3 <= 15
  /\ Z.testbit (if 3 / 8 =? 0 then 0x03 else 0xF0) (3 mod 8) = false
  /\ Expander.toggle_pin (fun _ => 0) 16 (fresh_xl, []) = (inl ValueError, (fresh_xl, []))
  /\ exists x' c',
      Expander.toggle_pin (fun _ => 0) 3 (fresh_xl, [])
      = (inr tt, (x', [Expander.Sent (I2cWriteto 0x20 [2; c'])]))
      /\ fst (Expander.read_pin (fun _ => 0) 3 (x', [])) = inr 0
      /\ fst (snd (Expander.toggle_pin (fun _ => 0) 3 (x', []))) = fresh_xl.
Proof.
  assert (H1 : 0 <= 0xFF < 256) by lia.
  assert (H2 : ~ 0 <= 16 <= 15) by lia.
  assert (H3 : 0 <= 3 <= 15) by lia.
  assert (H4 : Z.testbit (if 3 / 8 =? 0 then 0x03 else 0xF0) (3 mod 8) = false)
    by reflexivity.
  destruct (toggle_pin_cases (fun _ => 0) 16 0x20 0xFF 0xFF 0x03 0xF0 [] H1 H1)
    as (Ha & _ & _).
  destruct (toggle_pin_cases (fun _ => 0) 3 0x20 0xFF 0xFF 0x03 0xF0 [] H1 H1)
    as (_ & Hb & _).
  destruct (Hb H3 H4) as (x' & c' & Hrun & _ & Hread & Hback).
  split; [exact H1|]. split; [exact H2|]. split; [exact H3|]. split; [exact H4|].
  split; [exact (Ha H2)|].
  exists x', c'. split; [exact Hrun|]. split; [exact (Hread []) | exact (Hback [])].
Defined.

(** ** Named pins, whole-port input and keys *)

(** X9: the three convenience methods write pins 2, 3 and 4: each sets that
    one bit of port 0 to the given level with a single write of output
    register 2 and never raises; the cache entry of port 1, where the
    display driver keeps its reset (pin 10) and backlight (pin 11) lines,
    is not touched by any of them. *)
Theorem named_pin_writes (v : bool) (a c0 c1 : Z) (cfg : list Z)
    (log : list Expander.bus_op) :
  0 <= c0 < 256 -> 0 <= c1 < 256 ->
  let x := XL9555.mk a [c0; c1] cfg in
  let written (m : bool -> M Expander.st unit) (bit : Z) :=
    exists c0',
      m v (x, log)
      = (inr tt, (XL9555.mk a [c0'; c1] cfg,
                  log ++ [Expander.Sent (I2cWriteto a [XL9555.REG_OUTPUT_PORT0; c0'])]))
      /\ forall k, Z.testbit c0' k = if k =? bit then v else Z.testbit c0 k in
  written Expander.set_backlight 2
  /\ written Expander.set_lcd_power 3
  /\ written Expander.beep 4.
Proof.
  intros H0 H1. cbv zeta.
  unfold Expander.set_backlight, Expander.set_lcd_power, Expander.beep.
  rewrite !writes_write_pin_run
    by (done || cbv [Expander.P02 Expander.P03 Expander.P04]; lia).
  repeat split; eexists; (split; [reflexivity|]); intros k;
    apply with_bit_spec; done.
Qed.

Lemma named_pin_writes_witness :
  0 <= 0xFF < 256
  /\ exists c0',
      Expander.set_backlight false (fresh_xl, [])
      = (inr tt, (XL9555.mk 0x20 [c0'; 0xFF] [0x03; 0xF0],
                  [Expander.Sent (I2cWriteto 0x20 [2; c0'])]))
      /\ Z.testbit c0' 2 = false.
Proof.
  assert (H : 0 <= 0xFF < 256) by lia.
  split; [exact H|].
  destruct (named_pin_writes false 0x20 0xFF 0xFF [0x03; 0xF0] [] H H)
    as ((c0' & Hrun & Hbits) & _).
  exists c0'. split; [exact Hrun | exact (Hbits 2)].
Defined.

Lemma get_input_run dev x log :
  Expander.get_input dev (x, log)
  = (inr (Z.lor (Z.shiftl (dev 1) 8) (dev 0)),
     (x, log ++ [Expander.Sent (I2cWriteto (XL9555.address x) [0]);
                 Expander.I2cReadfrom (XL9555.address x) 1 [dev 0];
                 Expander.Sent (I2cWriteto (XL9555.address x) [1]);
                 Expander.I2cReadfrom (XL9555.address x) 1 [dev 1]])).
Proof.
  unfold Expander.get_input.
  erewrite bind_ok by (apply read_reg_run; cbv [XL9555.REG_INPUT_PORT0]; lia).
  erewrite bind_ok by (apply read_reg_run; cbv [XL9555.REG_INPUT_PORT1]; lia).
  unfold ret. cbn [XL9555.address]. by rewrite <- app_assoc.
Qed.

(** X10: [get_input()] reads input register 0 and then input register 1
    and never raises; bit [pin] of the word it returns is bit [pin mod 8]
    of the register of port [pin div 8], for every pin 0..15, so the word
    agrees with [get_input_port(0)] in its low byte and with
    [get_input_port(1)] in its high byte; [get_input_port] raises
    [ValueError] for any other port without touching the bus. *)
Theorem get_input_word (dev : Z -> Z) (x : XL9555.t) (log : list Expander.bus_op) :
  0 <= dev 0 < 256 ->
  exists v,
    Expander.get_input dev (x, log)
    = (inr v,
       (x, log ++ [Expander.Sent (I2cWriteto (XL9555.address x) [0]);
                   Expander.I2cReadfrom (XL9555.address x) 1 [dev 0];
                   Expander.Sent (I2cWriteto (XL9555.address x) [1]);
                   Expander.I2cReadfrom (XL9555.address x) 1 [dev 1]]))
    /\ (forall pin, 0 <= pin <= 15 ->
          Z.testbit v pin = Z.testbit (dev (pin / 8)) (pin mod 8))
    /\ fst (Expander.get_input_port dev 0 (x, log)) = inr (dev 0)
    /\ fst (Expander.get_input_port dev 1 (x, log)) = inr (dev 1)
    /\ (forall port, port <> 0 -> port <> 1 ->
          Expander.get_input_port dev port (x, log) = (inl ValueError, (x, log))).
Proof.
  intros Hb. eexists. split; [apply get_input_run|]. split; [|split; [|split]].
  - intros pin Hp. destruct (pin_port_bit pin Hp) as [Hport Hbit].
    pose proof (Z.div_mod pin 8 ltac:(lia)) as Hdm.
    rewrite word_bits by done.
    destruct Hport as [E|E]; rewrite E in *.
    + replace (pin <? 8) with true by (symmetry; apply Z.ltb_lt; lia).
      f_equal. lia.
    + replace (pin <? 8) with false by (symmetry; apply Z.ltb_ge; lia).
      f_equal. lia.
  - unfold Expander.get_input_port. cbn [Z.eqb orb negb].
    by rewrite read_reg_run by (cbv [XL9555.REG_INPUT_PORT0]; lia).
  - unfold Expander.get_input_port. cbn [Z.eqb Pos.eqb orb negb].
    by rewrite read_reg_run by (cbv [XL9555.REG_INPUT_PORT0]; lia).
  - intros port Hp0 Hp1. unfold Expander.get_input_port.
    replace ((port =? 0) || (port =? 1)) with false; [done|].
    symmetry. apply orb_false_iff. split; by apply Z.eqb_neq.
Qed.

Lemma get_input_word_witness :
  let dev := fun reg => if reg =? 0 then 0x03 else 0xE0 in
  0 <= dev 0 < 256
  /\ exists v,
      fst (Expander.get_input dev (fresh_xl, [])) = inr v
      /\ Z.testbit v 12 = false /\ Z.testbit v 13 = true.
Proof.
  cbv zeta.
  assert (H : 0 <= (fun reg => if reg =? 0 then 0x03 else 0xE0) 0 < 256)
    by (cbn; lia).
  split; [exact H|].
  destruct (get_input_word (fun reg => if reg =? 0 then 0x03 else 0xE0)
              fresh_xl [] H) as (v & Hrun & Hbits & _).
  exists v. rewrite Hrun. split; [reflexivity|].
  split; [exact (Hbits 12 ltac:(lia)) | exact (Hbits 13 ltac:(lia))].
Defined.

(** X11: [key_scan()] reads both input registers and never raises.  Its
    answer is decided by four input bits only, tested in this order: 0 if
    pin 9 is low, else 1 if pin 8 is low, else 2 if pin 1 is low, else 3 if
    pin 0 is low, else -1.  So it is -1 exactly when these four pins are all
    high, and two devices that agree on these four pins get the same answer,
    whatever pins 12 to 15 are. *)
Theorem key_scan_priority (dev : Z -> Z) (x : XL9555.t) (log : list Expander.bus_op) :
  0 <= dev 0 < 256 ->
  let pin9 := Z.testbit (dev 1) 1 in
  let pin8 := Z.testbit (dev 1) 0 in
  let pin1 := Z.testbit (dev 0) 1 in
  let pin0 := Z.testbit (dev 0) 0 in
  let key := if negb pin9 then 0 else if negb pin8 then 1
             else if negb pin1 then 2 else if negb pin0 then 3 else -1 in
  Expander.key_scan dev (x, log)
  = (inr key,
     (x, log ++ [Expander.Sent (I2cWriteto (XL9555.address x) [0]);
                 Expander.I2cReadfrom (XL9555.address x) 1 [dev 0];
                 Expander.Sent (I2cWriteto (XL9555.address x) [1]);
                 Expander.I2cReadfrom (XL9555.address x) 1 [dev 1]]))
  /\ (key = -1 <-> pin9 && pin8 && pin1 && pin0 = true)
  /\ (forall dev' log',
        0 <= dev' 0 < 256 ->
        Z.testbit (dev' 1) 1 = pin9 -> Z.testbit (dev' 1) 0 = pin8 ->
        Z.testbit (dev' 0) 1 = pin1 -> Z.testbit (dev' 0) 0 = pin0 ->
        fst (Expander.key_scan dev' (x, log')) = inr key).
Proof.
  intros Hb. cbv zeta.
  assert (Hscan : forall d l, 0 <= d 0 < 256 ->
            Expander.key_scan d (x, l)
            = (inr (if negb (Z.testbit (d 1) 1) then 0
                    else if negb (Z.testbit (d 1) 0) then 1
                    else if negb (Z.testbit (d 0) 1) then 2
                    else if negb (Z.testbit (d 0) 0) then 3 else -1),
               (x, l ++ [Expander.Sent (I2cWriteto (XL9555.address x) [0]);
                         Expander.I2cReadfrom (XL9555.address x) 1 [d 0];
                         Expander.Sent (I2cWriteto (XL9555.address x) [1]);
                         Expander.I2cReadfrom (XL9555.address x) 1 [d 1]]))).
  { intros d l Hd. unfold Expander.key_scan.
    erewrite bind_ok by apply get_input_run.
    rewrite !land_bit_zero
      by (cbv [Expander.P11 Expander.P10 Expander.P01 Expander.P00]; lia).
    rewrite !word_bits by done.
    cbv [Expander.P11 Expander.P10 Expander.P01 Expander.P00].
    change (9 - 8) with 1. change (8 - 8) with 0.
    by destruct (Z.testbit (d 1) 1), (Z.testbit (d 1) 0),
         (Z.testbit (d 0) 1), (Z.testbit (d 0) 0). }
  split; [by apply Hscan|]. split.
  - destruct (Z.testbit (dev 1) 1), (Z.testbit (dev 1) 0),
      (Z.testbit (dev 0) 1), (Z.testbit (dev 0) 0); cbn; split; (done || lia).
  - intros dev' log' Hb' E9 E8 E1 E0. rewrite Hscan by done.
    by rewrite E9, E8, E1, E0.
Qed.

Lemma key_scan_priority_witness :
  let dev := fun reg => if reg =? 0 then 0xFD else 0x0F in
  0 <= dev 0 < 256
  /\ fst (Expander.key_scan dev (fresh_xl, [])) = inr 2.
Proof.
  cbv zeta.
  assert (H : 0 <= (fun reg => if reg =? 0 then 0xFD else 0x0F) 0 < 256)
    by (cbn; lia).
  split; [exact H|].
  destruct (key_scan_priority (fun reg => if reg =? 0 then 0xFD else 0x0F)
              fresh_xl [] H) as (Hrun & _).
  rewrite Hrun. reflexivity.
Defined.

(** * The rest of the display driver *)

(** ** What the bus operations leave alone *)

Lemma oe_ret {A} (a : A) : only_emits (ret a).
Proof. intros s. exists []. cbn. by rewrite add_events_nil. Qed.

Lemma oe_raise {A} e : only_emits (@raise state A e).
Proof. intros s. exists []. cbn. by rewrite add_events_nil. Qed.

Lemma oe_gets {A} (f : state -> A) : only_emits (gets f).
Proof. intros s. exists []. cbn. by rewrite add_events_nil. Qed.

Lemma oe_lift {A} (r : result A) : only_emits (lift_result r).
Proof. intros s. exists []. cbn. by rewrite add_events_nil. Qed.

Lemma oe_emit e : only_emits (emit e).
Proof. intros s. by exists [e]. Qed.

Lemma oe_bind {A B} (m : M state A) (k : A -> M state B) :
  only_emits m -> (forall a, only_emits (k a)) -> only_emits (bind m k).
Proof.
  intros Hm Hk s. destruct (Hm s) as [e1 H1]. unfold bind.
  destruct (m s) as [[e|a] s1]; cbn [snd] in *; subst s1.
  - by exists e1.
  - destruct (Hk a (add_events s e1)) as [e2 H2]. exists (e1 ++ e2).
    by rewrite H2, add_events_app.
Qed.

Lemma oe_for_each {A} (xs : list A) (body : A -> M state unit) :
  (forall x, only_emits (body x)) -> only_emits (for_each xs body).
Proof.
  intros Hb. induction xs as [|x xs IH]; cbn [for_each].
  - apply oe_ret.
  - apply oe_bind; [apply Hb | intros _; apply IH].
Qed.

Lemma oe_cs_call v : only_emits (cs_call v).
Proof.
  apply oe_bind; [apply oe_gets|]. intros [p|]; [apply oe_emit | apply oe_raise].
Qed.

Lemma oe_dc_call v : only_emits (dc_call v).
Proof. apply oe_bind; [apply oe_gets | intros p; apply oe_emit]. Qed.

Lemma oe_when b (m : M state unit) : only_emits m -> only_emits (when b m).
Proof. destruct b; [done | intros _; apply oe_ret]. Qed.

Ltac oe_intro :=
  match goal with |- forall _, only_emits _ => intros ? end.

Lemma oe_write_cmd cmd : only_emits (_write_cmd cmd).
Proof.
  unfold _write_cmd.
  repeat first [ apply oe_gets
               | apply oe_when
               | apply oe_cs_call
               | apply oe_dc_call
               | apply oe_lift
               | apply oe_emit
               | apply oe_bind
               | oe_intro ].
Qed.

Lemma oe_write_data data : only_emits (_write_data data).
Proof.
  unfold _write_data.
  repeat first [ apply oe_gets
               | apply oe_when
               | apply oe_cs_call
               | apply oe_dc_call
               | apply oe_lift
               | apply oe_emit
               | apply oe_bind
               | oe_intro ].
Qed.

Lemma oe_write_reg reg data : only_emits (_write_reg reg data).
Proof.
  unfold _write_reg. apply oe_bind; [apply oe_write_cmd|]. intros _.
  destruct data; [apply oe_ret|].
  apply oe_bind; [apply oe_lift | intros b; apply oe_write_data].
Qed.

Lemma oe_set_window x y w h : only_emits (set_window x y w h).
Proof.
  unfold set_window. cbv zeta.
  repeat first [ apply oe_write_reg
               | apply oe_write_cmd
               | apply oe_bind
               | oe_intro ].
Qed.

Lemma oe_deref l : only_emits (deref l).
Proof.
  intros s. exists []. unfold deref. rewrite add_events_nil.
  by destruct (heap s !! l).
Qed.

Lemma oe_show_chunked C : only_emits (show_chunked C).
Proof.
  unfold show_chunked.
  repeat first [ apply oe_gets
               | apply oe_deref
               | apply oe_set_window
               | apply oe_cs_call
               | apply oe_dc_call
               | apply oe_for_each
               | apply oe_lift
               | apply oe_emit
               | apply oe_bind
               | oe_intro ].
Qed.

(** X14: the bus side of the driver never touches the pixel store or the
    driver object.  Whatever their arguments and whatever state they start
    from, and whether they return or raise (a missing chip-select line, a
    value that is not a byte, a buffer of odd length), [_write_cmd],
    [_write_data], [_write_reg], [set_window] and the refresh [show] end in
    the state they started from with some events added to the trace.  In
    particular the refresh converts into its scratch chunks and leaves every
    byte of the frame buffer as it was. *)
Theorem bus_operations_only_emit :
  (forall cmd, only_emits (_write_cmd cmd))
  /\ (forall data, only_emits (_write_data data))
  /\ (forall reg data, only_emits (_write_reg reg data))
  /\ (forall x y w h, only_emits (set_window x y w h))
  /\ only_emits show
  /\ (forall s, heap (snd (show s)) = heap s /\ self (snd (show s)) = self s).
Proof.
  split; [exact oe_write_cmd|]. split; [exact oe_write_data|].
  split; [exact oe_write_reg|]. split; [exact oe_set_window|].
  split; [exact (oe_show_chunked CHUNK)|].
  intros s. destruct (oe_show_chunked CHUNK s) as [evs Hs].
  unfold show. by rewrite Hs.
Qed.

(** X13: a command byte outside 0..255 makes [_write_cmd] raise
    [ValueError] after chip-select (when present) and data/command have
    been driven low and before anything is sent: chip-select is not
    released.  A payload with a value outside 0..255 makes [_write_reg]
    raise [ValueError] after the whole command transaction and before the
    data transaction starts. *)
Theorem bad_bytes_on_the_bus (s : state) (cmd reg d : Z) (ds : list Z) :
  (~ 0 <= cmd < 256 ->
     _write_cmd cmd s
     = (inl ValueError,
        add_events s (cs_events (cs (self s)) 0 ++ [PinCall (dc (self s)) 0])))
  /\ (0 <= reg < 256 -> forallb is_byte (d :: ds) = false ->
      _write_reg reg (d :: ds) s
      = (inl ValueError,
         add_events s (cmd_events (cs (self s)) (dc (self s)) reg))).
Proof.
  split.
  - intros Hbad. unfold _write_cmd.
    step_with @gets_run. step_with when_cs_run. step_with dc_call_run.
    erewrite bind_err; [reflexivity|].
    unfold lift_result, bytes_of. cbn [forallb]. unfold is_byte.
    destruct ((0 <=? cmd) && (cmd <? 256) && true) eqn:E; [|done].
    rewrite !andb_true_iff in E. lia.
  - intros Hreg Hbad. unfold _write_reg.
    step_with write_cmd_run.
    erewrite bind_err; [reflexivity|].
    unfold lift_result, bytes_of. by rewrite Hbad.
Qed.

Lemma bad_bytes_on_the_bus_witness :
  let s := blank_state (Some (mkPin 1)) None 4 3 in
  ~ 0 <= 256 < 256 /\ 0 <= 0x36 < 256 /\ forallb is_byte [0x160] = false
  /\ _write_cmd 256 s
     = (inl ValueError, add_events s [PinCall (mkPin 1) 0; PinCall (mkPin 2) 0])
  /\ fst (_write_reg 0x36 [0x160] s) = inl ValueError.
Proof.
  cbv zeta.
  assert (H1 : ~ 0 <= 256 < 256) by lia.
  assert (H2 : 0 <= 0x36 < 256) by lia.
  assert (H3 : forallb is_byte [0x160] = false) by reflexivity.
  destruct (bad_bytes_on_the_bus (blank_state (Some (mkPin 1)) None 4 3)
              256 0x36 0x160 []) as [Hc Hr].
  split; [exact H1|]. split; [exact H2|]. split; [exact H3|].
  split; [exact (Hc H1)|]. by rewrite (Hr H2 H3).
Defined.

(** ** The refresh on the wire *)

Lemma map_lookup {A B} (f : A -> B) (l : list A) (k : nat) :
  map f l !! k = f <$> (l !! k).
Proof. revert k. induction l as [|x l IH]; intros [|k]; cbn; auto. Qed.

Lemma wire_chunk_lookup (c : nat) buf (k : nat) ch :
  (0 < c)%nat ->
  wire_chunks (Z.of_nat c) buf !! k = Some ch ->
  (k * c < length buf)%nat
  /\ ch = swap_pairs (take c (drop (k * c) buf)).
Proof.
  intros Hc. unfold wire_chunks.
  destruct (py_range_count (Z.of_nat (length buf)) (Z.of_nat c))
    as (cnt & -> & _ & Hlt); [lia..|].
  rewrite !map_lookup. intros Hk.
  destruct (seq 0 cnt !! k) as [j|] eqn:Hj; [|done].
  apply lookup_seq in Hj as [-> Hj]. cbn in Hk. injection Hk as <-.
  specialize (Hlt k Hj). split; [nia|].
  rewrite Nat2Z.id. do 3 f_equal. lia.
Qed.

Lemma wire_chunks_count (c : nat) buf :
  (0 < c)%nat ->
  length (wire_chunks (Z.of_nat c) buf)
  = Z.to_nat ((Z.of_nat (length buf) + Z.of_nat c - 1) / Z.of_nat c).
Proof.
  intros Hc. unfold wire_chunks, py_range.
  rewrite !length_map, length_seq. do 2 f_equal. lia.
Qed.

(** X15: the refresh never sends more than 512 bytes in one transfer.  A
    frame buffer of [n] bytes goes out in [ceil(n / 512)] transfers; the
    [k]-th one carries [min(512, n - 512 k)] bytes, so every transfer but
    the last carries exactly 512 bytes and none is empty. *)
Theorem show_chunk_sizes (s : state) (c : Pin) (buf : list Z) :
  cs (self s) = Some c ->
  heap s !! buffer (self s) = Some buf ->
  Nat.even (length buf) = true ->
  exists chunks,
    show s
    = (inr tt,
       add_events s
         (window_events (Some c) (dc (self s)) 0 0 (width (self s)) (height (self s))
          ++ [PinCall c 0; PinCall (dc (self s)) 1]
          ++ map SpiWrite chunks
          ++ [PinCall c 1]))
    /\ length chunks = ((length buf + 511) / 512)%nat
    /\ forall (k : nat) ch,
         chunks !! k = Some ch ->
         length ch = (512 `min` (length buf - 512 * k))%nat
         /\ (0 < length ch <= 512)%nat.
Proof.
  intros Hcs Hbuf Hev. apply Nat.even_spec in Hev as [n2 Hn2].
  exists (wire_chunks 512 buf). split; [|split].
  - unfold show, CHUNK. change 512 with (Z.of_nat (2 * 256)).
    rewrite (show_chunked_run 256 n2 s c buf) by (done || lia).
    unfold show_events. by rewrite Hcs.
  - change 512 with (Z.of_nat 512). rewrite wire_chunks_count by lia.
    rewrite <- (Nat2Z.id ((length buf + 511) / 512)). f_equal.
    rewrite Nat2Z.inj_div. f_equal. lia.
  - intros k ch Hk. change 512 with (Z.of_nat 512) in Hk.
    apply wire_chunk_lookup in Hk as [Hlt ->]; [|lia].
    rewrite swap_pairs_length, length_take, length_drop. lia.
Qed.

Lemma show_chunk_sizes_witness :
  cs (self counting_state) = Some (mkPin 1)
  /\ Nat.even (length (map (fun k => Z.of_nat k mod 256) (seq 0 520))) = true
  /\ exists chunks : list (list Z),
      fst (show counting_state) = inr tt
      /\ length chunks = 2%nat
      /\ forall ch, chunks !! 1%nat = Some ch -> length ch = 8%nat.
Proof.
  assert (H1 : cs (self counting_state) = Some (mkPin 1)) by reflexivity.
  assert (H2 : heap counting_state !! buffer (self counting_state)
               = Some (map (fun k => Z.of_nat k mod 256) (seq 0 520)))
    by (vm_compute; reflexivity).
  assert (H3 : Nat.even (length (map (fun k => Z.of_nat k mod 256) (seq 0 520))) = true)
    by (vm_compute; reflexivity).
  split; [exact H1|]. split; [exact H3|].
  destruct (show_chunk_sizes counting_state (mkPin 1) _ H1 H2 H3)
    as (chunks & Hrun & Hcount & Hsize).
  exists chunks. split; [by rewrite Hrun|].
  split; [exact Hcount|].
  intros ch Hch. exact (proj1 (Hsize 1%nat ch Hch)).
Defined.

Section Frames.
Variables c d : Pin.
Hypothesis Hdistinct : gpio c <> gpio d.

Lemma pin_eqb_refl p : pin_eqb p p = true.
Proof. apply Z.eqb_refl. Qed.

Lemma pin_eqb_cd : pin_eqb c d = false.
Proof. by apply Z.eqb_neq. Qed.

Lemma pin_eqb_dc : pin_eqb d c = false.
Proof. apply Z.eqb_neq. congruence. Qed.

Lemma bf_cs csl dcl v rest :
  bus_frames c d csl dcl (PinCall c v :: rest) = bus_frames c d v dcl rest.
Proof. cbn [bus_frames]. by rewrite pin_eqb_refl, pin_eqb_cd. Qed.

Lemma bf_dc csl dcl v rest :
  bus_frames c d csl dcl (PinCall d v :: rest) = bus_frames c d csl v rest.
Proof. cbn [bus_frames]. by rewrite pin_eqb_refl, pin_eqb_dc. Qed.

Lemma bf_spi csl dcl data rest :
  bus_frames c d csl dcl (SpiWrite data :: rest)
  = (csl, dcl, data) :: bus_frames c d csl dcl rest.
Proof. reflexivity. Qed.

Lemma bf_chunks csl dcl chunks rest :
  bus_frames c d csl dcl (map SpiWrite chunks ++ rest)
  = map (fun ch => (csl, dcl, ch)) chunks ++ bus_frames c d csl dcl rest.
Proof. induction chunks as [|ch chunks IH]; cbn; [done|]. by rewrite IH. Qed.

Lemma ll_cs v v' rest :
  line_level c v (PinCall c v' :: rest) = line_level c v' rest.
Proof. cbn [line_level]. by rewrite pin_eqb_refl. Qed.

Lemma ll_dc v v' rest :
  line_level c v (PinCall d v' :: rest) = line_level c v rest.
Proof. cbn [line_level]. by rewrite pin_eqb_dc. Qed.

Lemma ll_spi v data rest :
  line_level c v (SpiWrite data :: rest) = line_level c v rest.
Proof. reflexivity. Qed.

Lemma ll_chunks v chunks rest :
  line_level c v (map SpiWrite chunks ++ rest) = line_level c v rest.
Proof. induction chunks as [|ch chunks IH]; cbn; done. Qed.

(** The frames and the final chip-select level of a refresh. *)
Lemma show_events_frames W H C buf dcl :
  bus_frames c d 1 dcl (show_events (Some c) d W H C buf)
  = [(0, 0, [0x2A]); (0, 1, be16 0 ++ be16 (0 + W - 1));
     (0, 0, [0x2B]); (0, 1, be16 0 ++ be16 (0 + H - 1));
     (0, 0, [0x2C])]
    ++ map (fun ch => (0, 1, ch)) (wire_chunks C buf)
  /\ line_level c 1 (show_events (Some c) d W H C buf) = 1.
Proof.
  unfold show_events, window_events, reg_events, cmd_events, data_events,
    cs_events.
  cbn [app]. rewrite <- ?app_assoc. cbn [app].
  split.
  - repeat first [rewrite bf_cs | rewrite bf_dc | rewrite bf_spi].
    rewrite bf_chunks, bf_cs. cbn [bus_frames app]. by rewrite app_nil_r.
  - repeat first [rewrite ll_cs | rewrite ll_dc | rewrite ll_spi].
    rewrite ll_chunks, ll_cs. reflexivity.
Qed.
End Frames.

(** X16: on the wire, a refresh is well formed.  With a chip-select line
    distinct from the data/command line, every SPI transfer of [show]
    happens while chip-select is low; the three commands 0x2A, 0x2B, 0x2C go
    out with data/command low, the two address payloads and every pixel
    chunk with data/command high, in this order; and chip-select is high
    again when the refresh returns. *)
Theorem show_bus_frames (s : state) (c : Pin) (buf : list Z) (dcl : Z) :
  cs (self s) = Some c -> gpio c <> gpio (dc (self s)) ->
  heap s !! buffer (self s) = Some buf ->
  Nat.even (length buf) = true ->
  exists evs,
    show s = (inr tt, add_events s evs)
    /\ bus_frames c (dc (self s)) 1 dcl evs
       = [(0, 0, [0x2A]); (0, 1, be16 0 ++ be16 (width (self s) - 1));
          (0, 0, [0x2B]); (0, 1, be16 0 ++ be16 (height (self s) - 1));
          (0, 0, [0x2C])]
         ++ map (fun ch => (0, 1, ch)) (wire_chunks 512 buf)
    /\ Forall (fun f => fst (fst f) = 0) (bus_frames c (dc (self s)) 1 dcl evs)
    /\ line_level c 1 evs = 1.
Proof.
  intros Hcs Hne Hbuf Hev. apply Nat.even_spec in Hev as [n2 Hn2].
  eexists. split.
  { unfold show, CHUNK. change 512 with (Z.of_nat (2 * 256)).
    rewrite (show_chunked_run 256 n2 s c buf) by (done || lia). reflexivity. }
  rewrite Hcs.
  destruct (show_events_frames c (dc (self s)) Hne (width (self s)) (height (self s))
              (Z.of_nat (2 * 256)) buf dcl) as [Hf Hl].
  rewrite Hf, Hl. split; [reflexivity|]. split; [|reflexivity].
  apply Forall_app. split.
  - by repeat constructor.
  - apply List.Forall_forall. intros f Hin.
    apply in_map_iff in Hin as (ch & <- & _). reflexivity.
Qed.

Lemma show_bus_frames_witness :
  cs (self counting_state) = Some (mkPin 1)
  /\ gpio (mkPin 1) <> gpio (dc (self counting_state))
  /\ Nat.even (length (map (fun k => Z.of_nat k mod 256) (seq 0 520))) = true
  /\ exists evs,
      show counting_state = (inr tt, add_events counting_state evs)
      /\ Forall (fun f => fst (fst f) = 0) (bus_frames (mkPin 1) (mkPin 2) 1 0 evs)
      /\ line_level (mkPin 1) 1 evs = 1.
Proof.
  assert (H1 : cs (self counting_state) = Some (mkPin 1)) by reflexivity.
  assert (H2 : gpio (mkPin 1) <> gpio (dc (self counting_state))) by (cbn; lia).
  assert (H3 : heap counting_state !! buffer (self counting_state)
               = Some (map (fun k => Z.of_nat k mod 256) (seq 0 520)))
    by (vm_compute; reflexivity).
  assert (H4 : Nat.even (length (map (fun k => Z.of_nat k mod 256) (seq 0 520))) = true)
    by (vm_compute; reflexivity).
  split; [exact H1|]. split; [exact H2|]. split; [exact H4|].
  destruct (show_bus_frames counting_state (mkPin 1) _ 0 H1 H2 H3 H4)
    as (evs & Hrun & _ & Hlow & Hend).
  exists evs. split; [exact Hrun|]. split; [exact Hlow | exact Hend].
Defined.

(** ** Rotation, reset and backlight again *)

Lemma set_rotation_mod r s : set_rotation (r mod 4) s = set_rotation r s.
Proof. unfold set_rotation. by rewrite Z.mod_mod by lia. Qed.

(** X17: [set_rotation] depends on its argument modulo 4 only, so it is
    periodic ([r + 4 k] acts as [r], negative arguments included); a
    rotation overrides the one before it (the driver object is the same as
    if only the last rotation had been applied); and one more quarter turn
    exchanges the logical width and height. *)
Theorem set_rotation_periodic (s : state) (r q k : Z) :
  set_rotation (r + 4 * k) s = set_rotation r s
  /\ self (snd (set_rotation r (snd (set_rotation q s))))
     = self (snd (set_rotation r s))
  /\ w (self (snd (set_rotation (r + 1) s))) = h (self (snd (set_rotation r s)))
  /\ h (self (snd (set_rotation (r + 1) s))) = w (self (snd (set_rotation r s))).
Proof.
  split; [|split].
  - rewrite <- (set_rotation_mod (r + 4 * k)), <- (set_rotation_mod r).
    f_equal. rewrite (Z.mul_comm 4 k). apply Z_mod_plus_full.
  - destruct (set_rotation_run s q) as (cq & wq & hq & _ & ->). cbn [snd].
    match goal with
    | |- context [set_rotation r ?s1] =>
        destruct (set_rotation_run s1 r) as (c1 & w1 & h1 & T1 & ->)
    end.
    destruct (set_rotation_run s r) as (c2 & w2 & h2 & T2 & ->).
    cbn [snd self] in *.
    assert (Hsame : w1 = w2 /\ h1 = h2).
    { clear -T1 T2. cbn [with_rotation with_w with_h width height] in T1.
      destruct T1 as [(E1 & _ & -> & ->)|[(E1 & _ & -> & ->)|[(E1 & _ & -> & ->)|(E1 & _ & -> & ->)]]];
        destruct T2 as [(E2 & _ & -> & ->)|[(E2 & _ & -> & ->)|[(E2 & _ & -> & ->)|(E2 & _ & -> & ->)]]];
        (done || lia). }
    destruct Hsame as [-> ->]. reflexivity.
  - destruct (set_rotation_run s (r + 1)) as (c1 & w1 & h1 & T1 & ->).
    destruct (set_rotation_run s r) as (c2 & w2 & h2 & T2 & ->).
    cbn [snd self with_rotation with_w with_h w h].
    assert (Hstep : (r + 1) mod 4 = (r mod 4 + 1) mod 4)
      by (rewrite Zplus_mod_idemp_l; done).
    destruct T1 as [(E1 & _ & -> & ->)|[(E1 & _ & -> & ->)|[(E1 & _ & -> & ->)|(E1 & _ & -> & ->)]]];
      destruct T2 as [(E2 & _ & -> & ->)|[(E2 & _ & -> & ->)|[(E2 & _ & -> & ->)|(E2 & _ & -> & ->)]]];
      rewrite E1, E2 in Hstep; (done || discriminate Hstep).
Qed.

(** X18: with an expander, [reset()] writes the output register of port 1
    twice, first with the reset bit (bit 2) cleared and then with it set,
    each write followed by 100 ms; every other bit of port 1 is sent and
    kept as it was, port 0 is not written, and the pixel store and the
    wiring of the driver are untouched. *)
Theorem reset_pulse_shape (s : state) (x : XL9555.t) (c1 : Z) :
  expander_ready s x -> XL9555._output_cache x !! 1%nat = Some c1 ->
  exists s' lo hi,
    reset s = (inr tt, s')
    /\ trace s'
       = trace s ++ [I2cWriteto (XL9555.address x) [XL9555.REG_OUTPUT_PORT1; lo];
                     SleepMs 100;
                     I2cWriteto (XL9555.address x) [XL9555.REG_OUTPUT_PORT1; hi];
                     SleepMs 100]
    /\ (forall k, Z.testbit lo k = if k =? 2 then false else Z.testbit c1 k)
    /\ (forall k, Z.testbit hi k = if k =? 2 then true else Z.testbit c1 k)
    /\ _xl9555 (self s')
       = Some (XL9555.mk (XL9555.address x) (<[1%nat := hi]> (XL9555._output_cache x))
                         (XL9555._config_cache x))
    /\ heap s' = heap s
    /\ same_wiring (self s) (self s').
Proof.
  intros Hrdy Hl. pose proof Hrdy as (Hu & _).
  exists (snd (reset s)), (with_bit c1 2 false), (with_bit c1 2 true).
  unfold reset. erewrite bind_ok by apply gets_run. rewrite Hu.
  rewrite (reset_pulse_run s x c1) by done. cbn [snd].
  rewrite with_bit_last by lia.
  split; [reflexivity|].
  cbn [self heap trace add_events port1_written with_xl XL9555.address
       XL9555._output_cache XL9555._config_cache _xl9555].
  rewrite list_insert_insert_eq.
  split; [by rewrite <- !app_assoc|].
  split; [intros k; apply with_bit_spec; lia|].
  split; [intros k; apply with_bit_spec; lia|].
  by repeat split.
Qed.

Lemma reset_pulse_shape_witness :
  let s := blank_state (Some (mkPin 1)) (Some fresh_xl) 4 3 in
  expander_ready s fresh_xl
  /\ XL9555._output_cache fresh_xl !! 1%nat = Some 0xFF
  /\ exists s' lo hi,
      reset s = (inr tt, s')
      /\ trace s' = [I2cWriteto 0x20 [3; lo]; SleepMs 100;
                     I2cWriteto 0x20 [3; hi]; SleepMs 100]
      /\ Z.testbit lo 2 = false /\ Z.testbit hi 2 = true /\ Z.testbit lo 3 = true.
Proof.
  cbv zeta.
  assert (H1 : expander_ready (blank_state (Some (mkPin 1)) (Some fresh_xl) 4 3)
                              fresh_xl).
  { repeat split; try reflexivity. exists 0xFF, 0xFF. repeat split; lia. }
  assert (H2 : XL9555._output_cache fresh_xl !! 1%nat = Some 0xFF) by reflexivity.
  split; [exact H1|]. split; [exact H2|].
  destruct (reset_pulse_shape _ fresh_xl 0xFF H1 H2)
    as (s' & lo & hi & Hrun & Ht & Hlo & Hhi & _).
  exists s', lo, hi. split; [exact Hrun|]. split; [exact Ht|].
  split; [exact (Hlo 2)|]. split; [exact (Hhi 2) | exact (Hlo 3)].
Defined.

(** X19: the display driver and the expander agree on the backlight.  With
    an expander whose pin 11 is configured as an output (as its constructor
    does), [set_backlight(on)] of the display driver returns normally,
    writes the output register of port 1 once with bit 3 equal to [on] and
    the other bits as they were; afterwards the expander's [read_pin(11)]
    returns [on] and its [read_pin(10)], the reset line, returns what it
    returned before. *)
Theorem backlight_reads_back (s : state) (x : XL9555.t) (g0 g1 : Z)
    (dev : Z -> Z) (on : bool) (log : list Expander.bus_op) :
  expander_ready s x ->
  XL9555._config_cache x = [g0; g1] ->
  Z.testbit g1 3 = false -> Z.testbit g1 2 = false ->
  exists s' x' c',
    set_backlight on s = (inr tt, s')
    /\ _xl9555 (self s') = Some x'
    /\ trace s' = trace s ++ [I2cWriteto (XL9555.address x)
                                         [XL9555.REG_OUTPUT_PORT1; c']]
    /\ Expander.read_pin dev 11 (x', log) = (inr (Z.b2z on), (x', log))
    /\ fst (Expander.read_pin dev 10 (x', log)) = fst (Expander.read_pin dev 10 (x, log))
    /\ heap s' = heap s.
Proof.
  intros Hrdy Hcfg H3 H2. pose proof Hrdy as (Hu & Hx & Hr & Hb & Hok).
  destruct Hok as (c0 & c1 & Hc & Hc0 & Hc1).
  destruct x as [a oc cfg]. cbn [XL9555._output_cache XL9555._config_cache] in *.
  subst oc cfg.
  rewrite (backlight_run s _ c1) by done.
  eexists _, _, _. split; [reflexivity|].
  cbn [self heap trace port1_written with_xl _xl9555 XL9555.address
       XL9555._output_cache XL9555._config_cache insert list_insert].
  split; [reflexivity|]. split; [reflexivity|].
  destruct (read_pin_run dev 11 a c0 (with_bit c1 3 on) g0 g1 log) as (_ & R11 & _).
  destruct (read_pin_run dev 10 a c0 (with_bit c1 3 on) g0 g1 log) as (_ & R10 & _).
  destruct (read_pin_run dev 10 a c0 c1 g0 g1 log) as (_ & R10' & _).
  cbv zeta in R11, R10, R10'.
  change (11 / 8) with 1 in R11. change (11 mod 8) with 3 in R11.
  change (10 / 8) with 1 in R10, R10'. change (10 mod 8) with 2 in R10, R10'.
  cbn [Z.eqb] in R11, R10, R10'.
  rewrite R11, R10, R10' by (done || lia). cbn [fst].
  rewrite !with_bit_spec by lia. cbn [Z.eqb Pos.eqb].
  by repeat split.
Qed.

Lemma backlight_reads_back_witness :
  let s := blank_state (Some (mkPin 1)) (Some fresh_xl) 4 3 in
  expander_ready s fresh_xl
  /\ XL9555._config_cache fresh_xl = [0x03; 0xF0]
  /\ Z.testbit 0xF0 3 = false /\ Z.testbit 0xF0 2 = false
  /\ exists s' x',
      fst (set_backlight false s) = inr tt
      /\ _xl9555 (self s') = Some x'
      /\ Expander.read_pin (fun _ => 0xFF) 11 (x', []) = (inr 0, (x', [])).
Proof.
  cbv zeta.
  assert (H1 : expander_ready (blank_state (Some (mkPin 1)) (Some fresh_xl) 4 3)
                              fresh_xl).
  { repeat split; try reflexivity. exists 0xFF, 0xFF. repeat split; lia. }
  assert (H2 : XL9555._config_cache fresh_xl = [0x03; 0xF0]) by reflexivity.
  assert (H3 : Z.testbit 0xF0 3 = false) by reflexivity.
  assert (H4 : Z.testbit 0xF0 2 = false) by reflexivity.
  split; [exact H1|]. split; [exact H2|]. split; [exact H3|]. split; [exact H4|].
  destruct (backlight_reads_back _ fresh_xl 0x03 0xF0 (fun _ => 0xFF) false []
              H1 H2 H3 H4) as (s' & x' & c' & Hrun & Hx' & _ & Hread & _).
  exists s', x'. rewrite Hrun. split; [reflexivity|].
  split; [exact Hx' | exact Hread].
Defined.

(** ** Direction configuration and bring-up *)

(** X12: [config(config0, config1)] stores both values in the configuration
    cache and then writes configuration registers 6 and 7 in this order,
    leaving the output cache alone.  A [config0] that is not a byte raises
    [ValueError] with both cache entries already replaced and nothing
    written; a [config1] that is not a byte raises [ValueError] after
    register 6 has been written, so the cache and the device then disagree
    about port 1. *)
Theorem config_cases (c0 c1 a g0 g1 : Z) (oc : list Z) (tr : list event) :
  let x := XL9555.mk a oc [g0; g1] in
  let x' := XL9555.mk a oc [c0; c1] in
  (0 <= c0 < 256 -> 0 <= c1 < 256 ->
     XL9555.config c0 c1 (x, tr)
     = (inr tt, (x', tr ++ [I2cWriteto a [XL9555.REG_CONFIG_PORT0; c0];
                            I2cWriteto a [XL9555.REG_CONFIG_PORT1; c1]])))
  /\ (~ 0 <= c0 < 256 ->
      XL9555.config c0 c1 (x, tr) = (inl ValueError, (x', tr)))
  /\ (0 <= c0 < 256 -> ~ 0 <= c1 < 256 ->
      XL9555.config c0 c1 (x, tr)
      = (inl ValueError, (x', tr ++ [I2cWriteto a [XL9555.REG_CONFIG_PORT0; c0]]))).
Proof.
  cbv zeta. split; [|split].
  - intros H0 H1. by apply xl_config_run.
  - intros H0. unfold XL9555.config.
    erewrite bind_ok by (by apply xl_set_cfg).
    erewrite bind_ok by (by apply xl_set_cfg). cbn [insert list_insert Z.to_nat].
    erewrite bind_err by (apply xl_write_reg_bad; lia). reflexivity.
  - intros H0 H1. unfold XL9555.config.
    erewrite bind_ok by (by apply xl_set_cfg).
    erewrite bind_ok by (by apply xl_set_cfg). cbn [insert list_insert Z.to_nat].
    erewrite bind_ok
      by (apply xl_write_reg_ok; [cbv [XL9555.REG_CONFIG_PORT0]; lia|done]).
    rewrite xl_write_reg_bad by lia. reflexivity.
Qed.

Lemma config_cases_witness :
  0 <= 0x03 < 256 /\ 0 <= 0xF0 < 256 /\ ~ 0 <= 0x1F0 < 256
  /\ XL9555.config 0x03 0xF0 (XL9555.mk 0x20 [0; 0] [0xFF; 0xFF], [])
     = (inr tt, (XL9555.mk 0x20 [0; 0] [0x03; 0xF0],
                 [I2cWriteto 0x20 [6; 0x03]; I2cWriteto 0x20 [7; 0xF0]]))
  /\ XL9555.config 0x03 0x1F0 (XL9555.mk 0x20 [0; 0] [0xFF; 0xFF], [])
     = (inl ValueError, (XL9555.mk 0x20 [0; 0] [0x03; 0x1F0],
                         [I2cWriteto 0x20 [6; 0x03]])).
Proof.
  assert (H1 : 0 <= 0x03 < 256) by lia.
  assert (H2 : 0 <= 0xF0 < 256) by lia.
  assert (H3 : ~ 0 <= 0x1F0 < 256) by lia.
  destruct (config_cases 0x03 0xF0 0x20 0xFF 0xFF [0; 0] []) as (Ha & _ & _).
  destruct (config_cases 0x03 0x1F0 0x20 0xFF 0xFF [0; 0] []) as (_ & _ & Hc).
  split; [exact H1|]. split; [exact H2|]. split; [exact H3|].
  split; [exact (Ha H1 H2) | exact (Hc H1 H3)].
Defined.



